(** * Sudoku engine of [src/pages/Regular.jsx]: model and verification

    The engine is the group of plain functions at the top of
    [Regular.jsx]: [createEmptyGrid], [cloneGrid], [isValidPlacement],
    [findEmpty], [shuffledDigits], [solveSudoku], [generateSudoku] and
    [gridHasConflicts].  They are embedded here as Rocq functions over
    an explicit store of row arrays, so that the in-place writes of the
    backtracking search and the copies made by [cloneGrid] are visible.

    - A grid is a JavaScript array of row arrays.  Row arrays live in a
      store and are named by their address; the outer array is the list
      of the addresses of its rows.  No function of the engine writes to
      an outer array, so outer arrays are kept as values.
    - A read outside an array yields [undefined]; a read of a cell of a
      missing row raises a [TypeError].
    - [Math.random] is a stream of draws carried by the world.
    - The recursive searches take a fuel argument that bounds the number
      of nested activation frames. *)

From Stdlib Require Import ZArith List Lia Bool Arith Permutation.
From Stdlib Require String Ascii.
Import ListNotations.
Import String.StringSyntax.
Open Scope Z_scope.

(** ** JavaScript values, arrays and the store *)

(** The values a cell read can produce: a number, or [undefined] for a
    read outside the array. *)
Inductive jsval : Type :=
| Num (z : Z)
| Undefined.

(** [a === b] on these values. *)
Definition strict_eq (a b : jsval) : bool :=
  match a, b with
  | Num x, Num y => x =? y
  | Undefined, Undefined => true
  | _, _ => false
  end.

Definition loc := nat.
Definition heap := list (list jsval).
Definition Grid := list loc.

(** Outcome of a call: a value, a [TypeError], or a search stopped by
    the fuel bound. *)
Inductive result (A : Type) : Type :=
| Ok (a : A)
| TypeError
| OutOfFuel.
Arguments Ok {A} a.
Arguments TypeError {A}.
Arguments OutOfFuel {A}.

Definition rbind {A B} (m : result A) (k : A -> result B) : result B :=
  match m with
  | Ok a => k a
  | TypeError => TypeError
  | OutOfFuel => OutOfFuel
  end.

(** The world: the store of row arrays and the state of [Math.random]
    (the stream of draws and how many were consumed). *)
Record world : Type := World {
  w_heap : heap;
  w_rand : nat -> nat;
  w_used : nat
}.

Definition M (A : Type) : Type := world -> result (A * world).

Definition ret {A} (a : A) : M A := fun w => Ok (a, w).

Definition bind {A B} (m : M A) (k : A -> M B) : M B :=
  fun w => match m w with
           | Ok (a, w') => k a w'
           | TypeError => TypeError
           | OutOfFuel => OutOfFuel
           end.

Definition throw {A} : M A := fun _ => TypeError.
Definition out_of_fuel {A} : M A := fun _ => OutOfFuel.

Declare Scope js_scope.
Delimit Scope js_scope with js.
Notation "x <- m ;; k" := (bind m (fun x => k))
  (at level 61, m at next level, right associativity) : js_scope.
Notation "m ;;; k" := (bind m (fun _ => k))
  (at level 61, right associativity) : js_scope.
Notation "x <~ m ;; k" := (rbind m (fun x => k))
  (at level 61, m at next level, right associativity) : js_scope.
Open Scope js_scope.

(** A computation that only reads the store. *)
Definition reading {A} (f : heap -> result A) : M A :=
  fun w => match f (w_heap w) with
           | Ok a => Ok (a, w)
           | TypeError => TypeError
           | OutOfFuel => OutOfFuel
           end.

(** A computation that replaces the store. *)
Definition writing (f : heap -> result heap) : M unit :=
  fun w => match f (w_heap w) with
           | Ok h => Ok (tt, World h (w_rand w) (w_used w))
           | TypeError => TypeError
           | OutOfFuel => OutOfFuel
           end.

(** [xs[i]] for an integer [i]: [None] is [undefined]. *)
Definition index {A} (xs : list A) (i : Z) : option A :=
  if i <? 0 then None else nth_error xs (Z.to_nat i).

Fixpoint upd {A} (xs : list A) (n : nat) (x : A) : list A :=
  match xs, n with
  | [], _ => []
  | _ :: t, O => x :: t
  | y :: t, S n' => y :: upd t n' x
  end.

(** [row[c] = v].  Inside the array the element is replaced; past its
    end JavaScript extends the array, leaving holes that read as
    [undefined]; a negative [c] names a property that is not an element,
    so the elements stay as they are. *)
Definition store (row : list jsval) (c : Z) (v : jsval) : list jsval :=
  if c <? 0 then row
  else
    let n := Z.to_nat c in
    if (n <? length row)%nat then upd row n v
    else row ++ repeat Undefined (n - length row) ++ [v].

(** [grid[r][c]] *)
Definition read_cell (grid : Grid) (r c : Z) (h : heap) : result jsval :=
  match index grid r with
  | None => TypeError
  | Some l =>
      match nth_error h l with
      | None => TypeError
      | Some row =>
          Ok (match index row c with Some v => v | None => Undefined end)
      end
  end.

(** [grid[r][c] = v] *)
Definition write_cell (grid : Grid) (r c : Z) (v : jsval) (h : heap)
  : result heap :=
  match index grid r with
  | None => TypeError
  | Some l =>
      match nth_error h l with
      | None => TypeError
      | Some row => Ok (upd h l (store row c v))
      end
  end.

Definition assign (grid : Grid) (r c : Z) (v : jsval) : M unit :=
  writing (write_cell grid r c v).

(** A new array object. *)
Definition alloc (row : list jsval) : M loc :=
  fun w => Ok (length (w_heap w),
               World (w_heap w ++ [row]) (w_rand w) (w_used w)).

Definition deref (l : loc) : M (list jsval) :=
  reading (fun h => match nth_error h l with
                    | Some row => Ok row
                    | None => TypeError
                    end).

(** [Math.floor(Math.random() * n)] for a positive integer [n]: a draw
    from [0 .. n-1]. *)
Definition random_below (n : nat) : M nat :=
  fun w => Ok ((w_rand w (w_used w) mod n)%nat,
               World (w_heap w) (w_rand w) (S (w_used w))).

(** ** Loops *)

(** What the body of a loop does to the enclosing function: go on with
    the next iteration, or return a value. *)
Inductive flow (A : Type) : Type :=
| Next
| Return (a : A).
Arguments Next {A}.
Arguments Return {A} a.

Definition range (lo hi : Z) : list Z :=
  map (fun k => lo + Z.of_nat k) (seq 0 (Z.to_nat (hi - lo))).

Fixpoint for_each {I A} (xs : list I) (body : I -> result (flow A))
  : result (flow A) :=
  match xs with
  | [] => Ok Next
  | x :: rest =>
      match body x with
      | Ok Next => for_each rest body
      | other => other
      end
  end.

Fixpoint for_eachM {I A} (xs : list I) (body : I -> M (flow A))
  : M (flow A) :=
  match xs with
  | [] => ret Next
  | x :: rest =>
      f <- body x ;;
      match f with
      | Next => for_eachM rest body
      | Return a => ret (Return a)
      end
  end.

Fixpoint mapM {I A} (f : I -> M A) (xs : list I) : M (list A) :=
  match xs with
  | [] => ret []
  | x :: rest => a <- f x ;; l <- mapM f rest ;; ret (a :: l)
  end.

(** ** The engine *)

(** [Array.from({ length: 9 }, () => Array(9).fill(0))] *)
Definition createEmptyGrid : M Grid :=
  mapM (fun _ => alloc (repeat (Num 0) 9)) (seq 0 9).

Definition DIGITS : list Z := [1; 2; 3; 4; 5; 6; 7; 8; 9].

(** [grid.map((r) => r.slice())] *)
Definition cloneGrid (grid : Grid) : M Grid :=
  mapM (fun r => row <- deref r ;; alloc row) grid.

(** [a && b] with [b] evaluated only when [a] holds. *)
Definition and_then (a : bool) (b : result bool) : result bool :=
  if a then b else Ok false.

Definition isValidPlacement (grid : Grid) (row col : Z) (val : jsval)
  (h : heap) : result bool :=
  f1 <~ for_each (range 0 9) (fun i =>
          a <~ and_then (negb (i =? col))
                 (x <~ read_cell grid row i h ;; Ok (strict_eq x val)) ;;
          if a then Ok (Return false) else
          b <~ and_then (negb (i =? row))
                 (x <~ read_cell grid i col h ;; Ok (strict_eq x val)) ;;
          if b then Ok (Return false) else Ok Next) ;;
  match f1 with
  | Return b => Ok b
  | Next =>
      let br := row / 3 * 3 in
      let bc := col / 3 * 3 in
      f2 <~ for_each (range br (br + 3)) (fun r =>
              for_each (range bc (bc + 3)) (fun c =>
                a <~ and_then (negb (r =? row) || negb (c =? col))
                       (x <~ read_cell grid r c h ;; Ok (strict_eq x val)) ;;
                if a then Ok (Return false) else Ok Next)) ;;
      match f2 with
      | Return b => Ok b
      | Next => Ok true
      end
  end.

(** The result is [Some (r, c)] for [[r, c]] and [None] for [null]. *)
Definition findEmpty (grid : Grid) (h : heap) : result (option (Z * Z)) :=
  f <~ for_each (range 0 9) (fun r =>
         for_each (range 0 9) (fun c =>
           x <~ read_cell grid r c h ;;
           if strict_eq x (Num 0) then Ok (Return (r, c)) else Ok Next)) ;;
  match f with
  | Return pos => Ok (Some pos)
  | Next => Ok None
  end.

(** [[arr[i], arr[j]] = [arr[j], arr[i]]] on a local array of numbers. *)
Definition swap (arr : list Z) (i j : nat) : list Z :=
  let x := nth j arr 0 in
  let y := nth i arr 0 in
  upd (upd arr i x) j y.

(** [for (let i = n; i > 0; i--) { const j = Math.floor(Math.random() *
    (i + 1)); swap arr[i], arr[j] }]: the shuffle loop of
    [shuffledDigits] and of [generateSudoku]. *)
Fixpoint fisher_yates (i : nat) (arr : list Z) : M (list Z) :=
  match i with
  | O => ret arr
  | S i' =>
      j <- random_below (i + 1) ;;
      fisher_yates i' (swap arr i j)
  end.

Definition shuffledDigits : M (list Z) :=
  fisher_yates (length DIGITS - 1) DIGITS.

(** The candidate loop shared, word for word, by [backtrack] and
    [fill]:
    [for (const val of vals) { g[r][c] = val; if (isValidPlacement(g,
    r, c, val) && recur()) return true; g[r][c] = 0; } return false;] *)
Fixpoint try_candidates (recur : M bool) (g : Grid) (r c : Z)
  (vals : list Z) : M bool :=
  match vals with
  | [] => ret false
  | val :: rest =>
      assign g r c (Num val) ;;;
      ok <- reading (isValidPlacement g r c (Num val)) ;;
      found <- (if ok then recur else ret false) ;;
      if found then ret true
      else assign g r c (Num 0) ;;; try_candidates recur g r c rest
  end.

(** The inner function of [solveSudoku]; [fuel] bounds the number of
    nested frames. *)
Fixpoint backtrack (fuel : nat) (g : Grid) : M bool :=
  match fuel with
  | O => out_of_fuel
  | S fuel' =>
      pos <- reading (findEmpty g) ;;
      match pos with
      | None => ret true
      | Some (r, c) => try_candidates (backtrack fuel' g) g r c DIGITS
      end
  end.

Definition solveSudoku_fuel (fuel : nat) (grid : Grid) : M (bool * Grid) :=
  g <- cloneGrid grid ;;
  solved <- backtrack fuel g ;;
  ret (solved, g).

(** 82 frames: one for each of the 81 cells and the one that finds the
    grid full. *)
Definition solveSudoku (grid : Grid) : M (bool * Grid) :=
  solveSudoku_fuel 82 grid.

(** The inner function of [generateSudoku]. *)
Fixpoint fill (fuel : nat) (solution : Grid) : M bool :=
  match fuel with
  | O => out_of_fuel
  | S fuel' =>
      pos <- reading (findEmpty solution) ;;
      match pos with
      | None => ret true
      | Some (r, c) =>
          candidates <- shuffledDigits ;;
          try_candidates (fill fuel' solution) solution r c candidates
      end
  end.

(** [givens] is [None] when the option is absent (default 32).  The
    result is the pair [(puzzle, solution)]. *)
Definition generateSudoku_fuel (fuel : nat) (givens : option Z)
  : M (Grid * Grid) :=
  let givens := match givens with Some n => n | None => 32 end in
  solution <- createEmptyGrid ;;
  fill fuel solution ;;;
  puzzle <- cloneGrid solution ;;
  indices <- fisher_yates 80 (range 0 81) ;;
  let keep := Z.max 17 (Z.min 81 givens) in
  let toRemove := 81 - keep in
  for_eachM (range 0 toRemove) (fun k =>
    match index indices k with
    | None => throw
    | Some idx =>
        let r := idx / 9 in
        let c := Z.rem idx 9 in
        assign puzzle r c (Num 0) ;;; ret (@Next unit)
    end) ;;;
  ret (puzzle, solution).

Definition generateSudoku (givens : option Z) : M (Grid * Grid) :=
  generateSudoku_fuel 82 givens.

Definition gridHasConflicts (grid : Grid) : M bool :=
  f <- for_eachM (range 0 9) (fun r =>
         for_eachM (range 0 9) (fun c =>
           val <- reading (read_cell grid r c) ;;
           if strict_eq val (Num 0) then ret Next
           else
             copy <- cloneGrid grid ;;
             assign copy r c (Num 0) ;;;
             ok <- reading (isValidPlacement copy r c val) ;;
             if negb ok then ret (Return true) else ret Next)) ;;
  match f with
  | Return b => ret b
  | Next => ret false
  end.


(** ** The screen: state and handlers of the [Regular] component *)

(** The state of the component: the grid, the mask of given cells and
    the status message.  A handler is a function from the state of the
    render it was created in to the state after the event, together
    with the requests it makes to the page. *)
Bind Scope string_scope with String.string.

Record toast : Type := Toast {
  message : String.string;
  variant : String.string
}.

Record screen : Type := Screen {
  st_grid : Grid;
  st_givensMask : list (list bool);
  st_toast : toast
}.

(** What a handler asks of the page: [e.preventDefault()], a call of
    [focusCell], and a call of [focusCell] deferred by [setTimeout]. *)
Inductive request : Type :=
| PreventDefault
| Focus (row col : Z)
| FocusLater (row col : Z).

Definition lift {A} (r : result A) : M A :=
  fun w => match r with
           | Ok a => Ok (a, w)
           | TypeError => TypeError
           | OutOfFuel => OutOfFuel
           end.

(** [mask[row][col]] used as a condition: a missing row raises, a
    missing entry is [undefined], which is falsy. *)
Definition mask_at (mask : list (list bool)) (row col : Z) : result bool :=
  match index mask row with
  | None => TypeError
  | Some r => Ok (match index r col with Some b => b | None => false end)
  end.

(** [mask[r][c] = v] on a local matrix of booleans: a missing row
    raises; past the end of the row the array is extended, the holes
    reading as falsy. *)
Definition mask_set (mask : list (list bool)) (r c : Z) (v : bool)
  : result (list (list bool)) :=
  match index mask r with
  | None => TypeError
  | Some row =>
      let row' :=
        if c <? 0 then row
        else
          let n := Z.to_nat c in
          if (n <? length row)%nat then upd row n v
          else row ++ repeat false (n - length row) ++ [v] in
      Ok (upd mask (Z.to_nat r) row')
  end.

(** A loop that updates a local value at each iteration. *)
Fixpoint for_accM {I S} (xs : list I) (body : I -> S -> M S) (s : S) : M S :=
  match xs with
  | [] => ret s
  | x :: rest => s' <- body x s ;; for_accM rest body s'
  end.

(** The [useMemo] body computing [invalidMask] from [grid]. *)
Definition invalidMask (grid : Grid) : M (list (list bool)) :=
  for_accM (range 0 9) (fun r invalid =>
    for_accM (range 0 9) (fun c invalid =>
      v <- reading (read_cell grid r c) ;;
      if strict_eq v (Num 0) then ret invalid
      else
        copy <- cloneGrid grid ;;
        assign copy r c (Num 0) ;;;
        ok <- reading (isValidPlacement copy r c v) ;;
        if negb ok then lift (mask_set invalid r c true) else ret invalid)
      invalid)
    (repeat (repeat false 9) 9).

(** [setGrid((prev) => { const next = cloneGrid(prev); next[row][col] =
    nextVal; return next; })] *)
Definition setCellValue (row col : Z) (nextVal : Z) (st : screen) : M screen :=
  next <- cloneGrid (st_grid st) ;;
  assign next row col (Num nextVal) ;;;
  ret (Screen next (st_givensMask st) (st_toast st)).

(** [/^[1-9]$/.test(key)] and [Number(key)]: [Some d] when [key] is the
    one-character string of the digit [d] of 1..9. *)
Definition digit_key (key : String.string) : option Z :=
  match key with
  | String.String ch String.EmptyString =>
      let n := Z.of_nat (Ascii.nat_of_ascii ch) in
      if (49 <=? n) && (n <=? 57) then Some (n - 48) else None
  | _ => None
  end.

Definition handleKeyDown (key : String.string) (row col : Z) (st : screen)
  : M (screen * list request) :=
  if String.eqb key "ArrowUp" || String.eqb key "ArrowDown" ||
     String.eqb key "ArrowLeft" || String.eqb key "ArrowRight"
  then
    let dr := if String.eqb key "ArrowUp" then -1
              else if String.eqb key "ArrowDown" then 1 else 0 in
    let dc := if String.eqb key "ArrowLeft" then -1
              else if String.eqb key "ArrowRight" then 1 else 0 in
    let nr := Z.max 0 (Z.min 8 (row + dr)) in
    let nc := Z.max 0 (Z.min 8 (col + dc)) in
    ret (st, [PreventDefault; Focus nr nc])
  else if String.eqb key "Backspace" || String.eqb key "Delete" ||
          String.eqb key "0"
  then
    given <- lift (mask_at (st_givensMask st) row col) ;;
    if given then ret (st, [PreventDefault])
    else
      st' <- setCellValue row col 0 st ;;
      ret (st', [PreventDefault])
  else
    match digit_key key with
    | Some d =>
        given <- lift (mask_at (st_givensMask st) row col) ;;
        if given then ret (st, [PreventDefault])
        else
          st' <- setCellValue row col d st ;;
          let flat := row * 9 + col in
          let nextFlat := Z.min 80 (flat + 1) in
          ret (st', [PreventDefault;
                     Focus (nextFlat / 9) (Z.rem nextFlat 9)])
    | None => ret (st, [])
    end.

Definition handleSolve (st : screen) : M screen :=
  conflicts <- gridHasConflicts (st_grid st) ;;
  if conflicts then
    ret (Screen (st_grid st) (st_givensMask st)
           (Toast "Fix conflicts before solving." "error"))
  else
    res <- solveSudoku (st_grid st) ;;
    let (solved, solvedGrid) := res in
    if negb solved then
      ret (Screen (st_grid st) (st_givensMask st)
             (Toast "No solution found. Check the puzzle inputs." "error"))
    else
      ret (Screen solvedGrid (st_givensMask st) (Toast "Solved." "success")).

Definition handleClear (st : screen) : M (screen * list request) :=
  g <- createEmptyGrid ;;
  ret (Screen g (repeat (repeat false 9) 9) (Toast "Cleared." "info"),
       [FocusLater 0 0]).

(** [puzzle.map((r) => r.map((v) => v !== 0))] *)
Definition givens_of (puzzle : Grid) : M (list (list bool)) :=
  mapM (fun r =>
          row <- deref r ;;
          ret (map (fun v => negb (strict_eq v (Num 0))) row)) puzzle.

Definition handleGenerate (st : screen) : M (screen * list request) :=
  res <- generateSudoku (Some 32) ;;
  let puzzle := fst res in
  mask <- givens_of puzzle ;;
  ret (Screen puzzle mask (Toast "Generated a new regular puzzle." "success"),
       [FocusLater 0 0]).

(** The state of the first render: the [useState] initialisers. *)
Definition initialScreen : M screen :=
  g <- createEmptyGrid ;;
  ret (Screen g (repeat (repeat false 9) 9)
         (Toast "Enter digits 1–9. Use Backspace/Delete to clear a cell."
            "info")).

(** The events the page delivers: [onKeyDown] of the input of a cell,
    and [onClick] of the three buttons. *)
Inductive event : Type :=
| KeyDown (key : String.string) (row col : Z)
| ClickSolve
| ClickClear
| ClickGenerate.

(** One event: the handler of the current render runs on the current
    state, and the state it sets is the one of the next render. *)
Definition dispatch (e : event) (st : screen) : M screen :=
  match e with
  | KeyDown key row col => p <- handleKeyDown key row col st ;; ret (fst p)
  | ClickSolve => handleSolve st
  | ClickClear => p <- handleClear st ;; ret (fst p)
  | ClickGenerate => p <- handleGenerate st ;; ret (fst p)
  end.

Fixpoint run (es : list event) (st : screen) : M screen :=
  match es with
  | [] => ret st
  | e :: rest => st' <- dispatch e st ;; run rest st'
  end.

(** A session: the first render followed by a sequence of events. *)
Definition session (es : list event) : M screen :=
  st <- initialScreen ;; run es st.

(** The border flags of the table cell in row [r] and column [c]. *)
Definition thickTop (r : Z) : bool := Z.rem r 3 =? 0.
Definition thickLeft (c : Z) : bool := Z.rem c 3 =? 0.
Definition thickRight (c : Z) : bool := (c =? 2) || (c =? 5).
Definition thickBottom (r : Z) : bool := (r =? 2) || (r =? 5).

(** ** Boards: the contents of a grid *)

(** What a caller sees of a grid: its rows, read through the store. *)
Definition board := list (list jsval).

Definition snapshot (h : heap) (g : Grid) : board :=
  map (fun l => nth l h []) g.

Definition bcell (b : board) (r c : Z) : jsval :=
  match index b r with
  | Some row => match index row c with Some v => v | None => Undefined end
  | None => Undefined
  end.

Definition bset (b : board) (r c : Z) (v : jsval) : board :=
  match index b r with
  | Some row => upd b (Z.to_nat r) (store row c v)
  | None => b
  end.

Definition is_zero (v : jsval) : bool := strict_eq v (Num 0).

Definition allocated (h : heap) (g : Grid) : bool :=
  forallb (fun l => (l <? length h)%nat) g.

Definition is9x9 (b : board) : bool :=
  (length b =? 9)%nat && forallb (fun row => (length row =? 9)%nat) b.

Definition digit_or_zero (v : jsval) : bool :=
  match v with
  | Num z => (0 <=? z) && (z <=? 9)
  | Undefined => false
  end.

(** A 9x9 grid: nine allocated rows of nine cells. *)
Definition grid9x9 (h : heap) (g : Grid) : bool :=
  allocated h g && is9x9 (snapshot h g).

(** A grid of the data model: 9x9 with every entry in 0..9. *)
Definition wf_grid (h : heap) (g : Grid) : bool :=
  grid9x9 h g && forallb (forallb digit_or_zero) (snapshot h g).

(** [h'] differs from [h] in the rows of [g] at most. *)
Definition same_outside (g : Grid) (h h' : heap) : Prop :=
  length h' = length h /\
  forall l, ~ In l g -> nth_error h' l = nth_error h l.

Definition in_grid (r c : Z) : Prop := 0 <= r <= 8 /\ 0 <= c <= 8.

(** Numbers are doubles: arithmetic on integers is exact as long as the
    operands and the result are safe integers. *)
Definition MAX_SAFE_INTEGER : Z := 2 ^ 53 - 1.

(** A column from which [isValidPlacement] computes safe integers only:
    [bc = Math.floor(col / 3) * 3] is at least [col - 2], and the box
    loop counts [c] up to [bc + 3], at most [col + 3]. *)
Definition exact_column (col : Z) : Prop :=
  - MAX_SAFE_INTEGER <= col - 2 /\ col + 3 <= MAX_SAFE_INTEGER.

(** Two distinct cells that share a row, a column or a 3x3 box. *)
Definition peer (row col r c : Z) : Prop :=
  (r <> row \/ c <> col) /\
  (r = row \/ c = col \/ (r / 3 = row / 3 /\ c / 3 = col / 3)).

Definition peerb (row col r c : Z) : bool :=
  (negb (r =? row) || negb (c =? col)) &&
  ((r =? row) || (c =? col) ||
   ((r / 3 =? row / 3) && (c / 3 =? col / 3))).

Definition cells : list (Z * Z) :=
  flat_map (fun r => map (pair r) (range 0 9)) (range 0 9).

(** The two loops of [isValidPlacement] as a boolean formula over the
    contents of the grid. *)
Definition pvalid (b : board) (row col : Z) (val : jsval) : bool :=
  negb (existsb (fun i =>
          (negb (i =? col) && strict_eq (bcell b row i) val) ||
          (negb (i =? row) && strict_eq (bcell b i col) val)) (range 0 9))
  &&
  negb (existsb (fun r =>
          existsb (fun c =>
            (negb (r =? row) || negb (c =? col)) &&
            strict_eq (bcell b r c) val)
            (range (col / 3 * 3) (col / 3 * 3 + 3)))
          (range (row / 3 * 3) (row / 3 * 3 + 3))).

(** The first empty cell in row-major order. *)
Definition first_empty (b : board) : option (Z * Z) :=
  find (fun p => is_zero (bcell b (fst p) (snd p))) cells.

Definition count_empty (b : board) : nat :=
  list_sum (map (fun row => length (filter is_zero row)) b).

Definition count_filled (b : board) : nat :=
  list_sum (map (fun row => length (filter (fun v => negb (is_zero v)) row)) b).

(** The filled cell [(r, c)] fails the placement check once taken off
    the board: the test made by [gridHasConflicts] and by the per-cell
    mask. *)
Definition conflict_at (b : board) (r c : Z) : bool :=
  negb (is_zero (bcell b r c)) &&
  negb (pvalid (bset b r c (Num 0)) r c (bcell b r c)).

Definition has_conflicts (b : board) : bool :=
  existsb (fun r => existsb (fun c => conflict_at b r c) (range 0 9))
    (range 0 9).

(** ** The search on boards *)

(** The search of [backtrack] and [fill] as a function of the contents
    of the grid and of the number of draws consumed: [None] when the
    fuel runs out, else the answer, the final contents and the draws
    consumed.  [pcands k] is the candidate order chosen when [k] draws
    were consumed, and the draws consumed after choosing. *)
Fixpoint ptry (recur : board -> nat -> option (bool * board * nat))
  (b : board) (k : nat) (r c : Z) (vals : list Z)
  : option (bool * board * nat) :=
  match vals with
  | [] => Some (false, b, k)
  | val :: rest =>
      let b1 := bset b r c (Num val) in
      if pvalid b1 r c (Num val) then
        match recur b1 k with
        | None => None
        | Some (true, b2, k2) => Some (true, b2, k2)
        | Some (false, b2, k2) => ptry recur (bset b2 r c (Num 0)) k2 r c rest
        end
      else ptry recur (bset b1 r c (Num 0)) k r c rest
  end.

Fixpoint psearch (pcands : nat -> list Z * nat) (fuel : nat) (b : board)
  (k : nat) : option (bool * board * nat) :=
  match fuel with
  | O => None
  | S fuel' =>
      match first_empty b with
      | None => Some (true, b, k)
      | Some (r, c) =>
          let (vals, k1) := pcands k in
          ptry (psearch pcands fuel') b k1 r c vals
      end
  end.

(** The search with the candidate order left open; [backtrack] and
    [fill] are its two instances. *)
Fixpoint search (cands : M (list Z)) (fuel : nat) (g : Grid) : M bool :=
  match fuel with
  | O => out_of_fuel
  | S fuel' =>
      pos <- reading (findEmpty g) ;;
      match pos with
      | None => ret true
      | Some (r, c) =>
          vals <- cands ;;
          try_candidates (search cands fuel' g) g r c vals
      end
  end.

(** The shuffle loop as a function of the oracle and of the number of
    draws consumed. *)
Fixpoint pshuffle (rand : nat -> nat) (i : nat) (arr : list Z) (k : nat)
  : list Z * nat :=
  match i with
  | O => (arr, k)
  | S i' => pshuffle rand i' (swap arr i (rand k mod (i + 1))%nat) (S k)
  end.

(** The board grows: filled cells keep their value. *)
Definition extends (b b' : board) : Prop :=
  forall r c, in_grid r c ->
    is_zero (bcell b r c) = false -> bcell b' r c = bcell b r c.

Definition full (b : board) : Prop :=
  forall r c, in_grid r c -> is_zero (bcell b r c) = false.

(** Cells that were empty in [b] hold a digit in [b']. *)
Definition placed_digits (b b' : board) : Prop :=
  forall r c, in_grid r c -> bcell b r c = Num 0 ->
    exists v, 1 <= v <= 9 /\ bcell b' r c = Num v.

(** Two peers of [b] hold the same value only when both were already
    filled in [b0]. *)
Definition clashes_within (b0 b : board) : Prop :=
  forall r c r' c', in_grid r c -> in_grid r' c' -> peer r c r' c' ->
    is_zero (bcell b r c) = false -> bcell b r' c' = bcell b r c ->
    is_zero (bcell b0 r c) = false /\ is_zero (bcell b0 r' c') = false.

(** A failed call leaves the board as it found it. *)
Definition restores (recur : board -> nat -> option (bool * board * nat))
  : Prop :=
  forall b k b' k',
    is9x9 b = true -> recur b k = Some (false, b', k') -> b' = b.

(** The working grid of a search: nine distinct allocated rows. *)
Definition arena (h : heap) (g : Grid) : Prop :=
  NoDup g /\ allocated h g = true /\ length g = 9%nat.

(** A run on the store agrees with a run on the contents of [g]: same
    answer, same draws, the final contents of [g] as computed, and the
    rest of the store untouched. *)
Definition simulates (g : Grid) (w : world)
  (o : option (bool * board * nat)) (r : result (bool * world)) : Prop :=
  match o with
  | None => r = OutOfFuel
  | Some (res, b', k') =>
      exists w', r = Ok (res, w') /\
                 w_rand w' = w_rand w /\ w_used w' = k' /\
                 snapshot (w_heap w') g = b' /\
                 same_outside g (w_heap w) (w_heap w') /\
                 arena (w_heap w') g
  end.

(** A solved grid: every cell holds a digit and no two peers hold the
    same one. *)
Definition solution (G : board) : Prop :=
  is9x9 G = true /\
  (forall r c, in_grid r c -> exists v, 1 <= v <= 9 /\ bcell G r c = Num v) /\
  (forall r c r' c', in_grid r c -> in_grid r' c' -> peer r c r' c' ->
     bcell G r' c' <> bcell G r c).

(** [b] is [G] with some cells emptied. *)
Definition below (b G : board) : Prop :=
  forall r c, in_grid r c -> bcell b r c = Num 0 \/ bcell b r c = bcell G r c.

(** The candidate order of [backtrack]: always [DIGITS], no draw. *)
Definition ascending (k : nat) : list Z * nat := (DIGITS, k).

(** The candidate order of [fill]: [shuffledDigits] under the oracle. *)
Definition shuffled (rand : nat -> nat) (k : nat) : list Z * nat :=
  pshuffle rand (length DIGITS - 1) DIGITS k.

(** ** Statements about grids *)

Definition no_empty_cell (b : board) : bool :=
  forallb (forallb (fun v => negb (is_zero v))) b.

(** No filled cell holds the value of one of its peers. *)
Definition clash_free (b : board) : Prop :=
  forall r c r' c', in_grid r c -> in_grid r' c' -> peer r c r' c' ->
    is_zero (bcell b r c) = false -> bcell b r' c' <> bcell b r c.

(** [b'] assigns a digit to every empty cell of [b] and keeps the
    others. *)
Definition completes (b b' : board) : Prop :=
  is9x9 b' = true /\
  forall r c, in_grid r c ->
    (bcell b r c <> Num 0 -> bcell b' r c = bcell b r c) /\
    (bcell b r c = Num 0 -> exists v, 1 <= v <= 9 /\ bcell b' r c = Num v).

(** The placement check run on a board, taken as a store whose first
    nine arrays are the rows of the grid. *)
Definition placement_ok (b : board) (r c : Z) : Prop :=
  isValidPlacement (seq 0 9) r c (bcell b r c) b = Ok true.

(** A valid completion: every cell of the completed grid passes the
    placement check. *)
Definition valid_completion (b b' : board) : Prop :=
  completes b b' /\ forall r c, in_grid r c -> placement_ok b' r c.

(** The cells cleared by [generateSudoku]: index [idx] of the shuffled
    list names the cell [(Math.floor(idx / 9), idx % 9)]. *)
Definition clear_cells (b : board) (idxs : list Z) : board :=
  fold_left (fun b idx => bset b (idx / 9) (Z.rem idx 9) (Num 0)) idxs b.

Definition clamp_givens (givens : Z) : Z := Z.max 17 (Z.min 81 givens).

Definition digit (v : jsval) : bool :=
  match v with
  | Num z => (1 <=? z) && (z <=? 9)
  | Undefined => false
  end.

(** A decision procedure for [solution]. *)
Definition solutionb (G : board) : bool :=
  is9x9 G &&
  forallb (fun p => digit (bcell G (fst p) (snd p))) cells &&
  forallb (fun p =>
    forallb (fun q =>
      negb (peerb (fst p) (snd p) (fst q) (snd q)) ||
      negb (strict_eq (bcell G (fst q) (snd q)) (bcell G (fst p) (snd p))))
      cells) cells.

(** ** Sample grids *)

Definition board_of (rows : list (list Z)) : board := map (map Num) rows.

Definition empty_board : board := repeat (repeat (Num 0) 9) 9.

Definition fives_board : board := repeat (repeat (Num 5) 9) 9.

Definition solved_board : board :=
  board_of [[1; 2; 3; 4; 5; 6; 7; 8; 9]; [4; 5; 6; 7; 8; 9; 1; 2; 3];
            [7; 8; 9; 1; 2; 3; 4; 5; 6]; [2; 1; 4; 3; 6; 5; 8; 9; 7];
            [3; 6; 5; 8; 9; 7; 2; 1; 4]; [8; 9; 7; 2; 1; 4; 3; 6; 5];
            [5; 3; 1; 6; 4; 2; 9; 7; 8]; [6; 4; 2; 9; 7; 8; 5; 3; 1];
            [9; 7; 8; 5; 3; 1; 6; 4; 2]].

(** [solved_board] with its first row and a few more cells emptied. *)
Definition open_board : board :=
  board_of [[0; 0; 0; 0; 0; 0; 0; 0; 0]; [4; 5; 6; 7; 8; 9; 1; 2; 3];
            [7; 8; 9; 1; 2; 3; 4; 5; 6]; [2; 1; 4; 0; 6; 5; 8; 9; 7];
            [3; 6; 5; 8; 9; 7; 2; 1; 4]; [8; 9; 7; 2; 1; 4; 3; 6; 5];
            [5; 3; 1; 6; 4; 2; 9; 0; 8]; [6; 4; 2; 9; 7; 8; 5; 3; 1];
            [9; 7; 8; 5; 3; 1; 6; 4; 0]].

(** No clash among the givens, and no digit fits the first cell. *)
Definition stuck_board : board :=
  board_of ([0; 2; 3; 4; 5; 6; 7; 8; 9] :: [1; 0; 0; 0; 0; 0; 0; 0; 0]
            :: repeat (repeat 0 9) 7).

Definition first_rows : Grid := seq 0 9.

(** A world whose store holds exactly the rows of [b]. *)
Definition start (b : board) : world := World b (fun k => (7 * k + 3)%nat) O.

(** The outcome of a board search with its draw count replaced. *)
Definition with_draws (k : nat) (o : option (bool * board * nat))
  : option (bool * board * nat) :=
  match o with
  | Some (res, b, _) => Some (res, b, k)
  | None => None
  end.

(** A decision procedure for [below]. *)
Definition belowb (b G : board) : bool :=
  forallb (fun p =>
    is_zero (bcell b (fst p) (snd p)) ||
    strict_eq (bcell b (fst p) (snd p)) (bcell G (fst p) (snd p))) cells.

(** [solved_board] with its first cell emptied. *)
Definition almost_solved : board := bset solved_board 0 0 (Num 0).

(** [(r', c')] comes before [(r, c)] in row-major order. *)
Definition row_major_lt (r' c' r c : Z) : Prop :=
  r' < r \/ (r' = r /\ c' < c).

(** ** Statements about the screen *)

Delimit Scope string_scope with string.

(** [mask[r][c]] with a missing row or entry read as falsy. *)
Definition mget (m : list (list bool)) (r c : Z) : bool :=
  match index m r with
  | Some row => match index row c with Some b => b | None => false end
  | None => false
  end.

(** The write [mask[r][c] = v] inside a 9x9 matrix. *)
Definition mset (m : list (list bool)) (r c : Z) (v : bool)
  : list (list bool) :=
  match index m r with
  | Some row => upd m (Z.to_nat r) (upd row (Z.to_nat c) v)
  | None => m
  end.

Definition bool9x9 (m : list (list bool)) : Prop :=
  length m = 9%nat /\ forall row, In row m -> length row = 9%nat.

(** One iteration of the inner loop of [invalidMask], on the matrix. *)
Definition mark (b : board) (r c : Z) (inv : list (list bool))
  : list (list bool) :=
  if conflict_at b r c then mset inv r c true else inv.

(** The entry of the mask for a cell holding [v]: [v !== 0]. *)
Definition filled_cell (v : jsval) : bool := negb (strict_eq v (Num 0)).

(** The state the handlers expect: a grid of the data model and a 9x9
    mask. *)
Definition screen_ok (w : world) (st : screen) : Prop :=
  wf_grid (w_heap w) (st_grid st) = true /\ bool9x9 (st_givensMask st).

(** Key events come from the inputs of the table, one per cell of the
    grid. *)
Definition on_grid (e : event) : bool :=
  match e with
  | KeyDown _ row col =>
      (0 <=? row) && (row <=? 8) && (0 <=? col) && (col <=? 8)
  | _ => true
  end.

(** The cells marked as given hold the digits of one solved Sudoku. *)
Definition givens_hold (mask : list (list bool)) (b : board) : Prop :=
  exists G, solution G /\
    forall r c, in_grid r c -> mget mask r c = true ->
      bcell b r c = bcell G r c.

Definition digit_keys : list (String.string * Z) :=
  [("1"%string, 1); ("2"%string, 2); ("3"%string, 3); ("4"%string, 4);
   ("5"%string, 5); ("6"%string, 6); ("7"%string, 7); ("8"%string, 8);
   ("9"%string, 9)].

Definition arrow_keys : list String.string :=
  ["ArrowUp"%string; "ArrowDown"%string; "ArrowLeft"%string;
   "ArrowRight"%string].

Definition clear_keys : list String.string :=
  ["Backspace"%string; "Delete"%string; "0"%string].

(** ** Properties *)

(** *** Arrays *)

Lemma index_Some {A} (xs : list A) (i : Z) :
  0 <= i < Z.of_nat (length xs) ->
  exists x, index xs i = Some x /\ nth_error xs (Z.to_nat i) = Some x.
Proof.
  intros Hi. unfold index.
  destruct (Z.ltb_spec i 0) as [Hneg|_]; [lia|].
  destruct (nth_error xs (Z.to_nat i)) eqn:E; [eauto|].
  apply nth_error_None in E. lia.
Qed.

Lemma index_None {A} (xs : list A) (i : Z) :
  ~ (0 <= i < Z.of_nat (length xs)) -> index xs i = None.
Proof.
  intros Hi. unfold index.
  destruct (Z.ltb_spec i 0) as [Hneg|Hpos]; [reflexivity|].
  apply nth_error_None. lia.
Qed.

Lemma upd_length {A} (xs : list A) n x : length (upd xs n x) = length xs.
Proof.
  revert n; induction xs as [|y t IH]; intros [|n]; simpl; auto.
Qed.

Lemma nth_error_upd_eq {A} (xs : list A) n x :
  (n < length xs)%nat -> nth_error (upd xs n x) n = Some x.
Proof.
  revert n; induction xs as [|y t IH]; intros [|n] H; simpl in *;
    try lia; auto.
  apply IH. lia.
Qed.

Lemma nth_error_upd_neq {A} (xs : list A) n m x :
  n <> m -> nth_error (upd xs n x) m = nth_error xs m.
Proof.
  revert n m; induction xs as [|y t IH]; intros [|n] [|m] H; simpl;
    try congruence; auto.
Qed.

Lemma upd_same {A} (xs : list A) n x :
  nth_error xs n = Some x -> upd xs n x = xs.
Proof.
  revert n; induction xs as [|y t IH]; intros [|n] H; simpl in *;
    try congruence.
  f_equal. auto.
Qed.

Lemma upd_upd {A} (xs : list A) n x y :
  upd (upd xs n x) n y = upd xs n y.
Proof.
  revert n; induction xs as [|z t IH]; intros [|n]; simpl; auto.
  f_equal. auto.
Qed.

Lemma In_range lo hi x : In x (range lo hi) <-> lo <= x < hi.
Proof.
  unfold range. rewrite in_map_iff. split.
  - intros (k & <- & Hk). apply in_seq in Hk. lia.
  - intros H. exists (Z.to_nat (x - lo)). split; [lia|].
    apply in_seq. lia.
Qed.

Lemma range_0_9 : range 0 9 = [0; 1; 2; 3; 4; 5; 6; 7; 8].
Proof. reflexivity. Qed.

(** *** Boards *)

Lemma is9x9_inv b :
  is9x9 b = true ->
  length b = 9%nat /\ forall row, In row b -> length row = 9%nat.
Proof.
  unfold is9x9. intros H. apply andb_true_iff in H as [H1 H2].
  apply Nat.eqb_eq in H1. split; [assumption|].
  intros row Hin. rewrite forallb_forall in H2.
  apply Nat.eqb_eq. auto.
Qed.

Lemma is9x9_intro b :
  length b = 9%nat -> (forall row, In row b -> length row = 9%nat) ->
  is9x9 b = true.
Proof.
  intros H1 H2. unfold is9x9. apply andb_true_iff. split.
  - now apply Nat.eqb_eq.
  - apply forallb_forall. intros row Hin. apply Nat.eqb_eq. auto.
Qed.

Lemma board_row b r :
  is9x9 b = true -> 0 <= r <= 8 ->
  exists row, index b r = Some row /\
              nth_error b (Z.to_nat r) = Some row /\
              length row = 9%nat.
Proof.
  intros Hb Hr. destruct (is9x9_inv b Hb) as [Hlen Hrows].
  destruct (index_Some b r) as (row & H1 & H2); [lia|].
  exists row. repeat split; auto.
  apply Hrows. eapply nth_error_In; eauto.
Qed.

Lemma store_in_row row c v :
  0 <= c < Z.of_nat (length row) ->
  store row c v = upd row (Z.to_nat c) v.
Proof.
  intros Hc. unfold store.
  destruct (Z.ltb_spec c 0); [lia|].
  destruct (Nat.ltb_spec (Z.to_nat c) (length row)); [reflexivity|lia].
Qed.

Lemma bset_eq b r c v :
  is9x9 b = true -> in_grid r c ->
  exists row, nth_error b (Z.to_nat r) = Some row /\
              length row = 9%nat /\
              bset b r c v = upd b (Z.to_nat r) (upd row (Z.to_nat c) v).
Proof.
  intros Hb [Hr Hc].
  destruct (board_row b r Hb Hr) as (row & H1 & H2 & H3).
  exists row. repeat split; auto.
  unfold bset. rewrite H1, store_in_row by lia. reflexivity.
Qed.

Lemma is9x9_bset b r c v :
  is9x9 b = true -> in_grid r c -> is9x9 (bset b r c v) = true.
Proof.
  intros Hb Hrc.
  destruct (bset_eq b r c v Hb Hrc) as (row & H1 & H2 & ->).
  destruct (is9x9_inv b Hb) as [Hlen Hrows].
  apply is9x9_intro.
  - now rewrite upd_length.
  - intros row' Hin. apply In_nth_error in Hin as [n Hn].
    destruct (Nat.eq_dec (Z.to_nat r) n) as [<-|Hne].
    + rewrite nth_error_upd_eq in Hn by (rewrite Hlen; destruct Hrc; lia).
      injection Hn as <-. now rewrite upd_length.
    + rewrite nth_error_upd_neq in Hn by assumption.
      apply Hrows. eapply nth_error_In; eauto.
Qed.

Lemma bcell_bset_same b r c v :
  is9x9 b = true -> in_grid r c -> bcell (bset b r c v) r c = v.
Proof.
  intros Hb Hrc.
  destruct (bset_eq b r c v Hb Hrc) as (row & H1 & H2 & ->).
  destruct (is9x9_inv b Hb) as [Hlen _]. destruct Hrc as [Hr Hc].
  unfold bcell, index.
  destruct (Z.ltb_spec r 0); [lia|]. destruct (Z.ltb_spec c 0); [lia|].
  rewrite nth_error_upd_eq by lia.
  rewrite nth_error_upd_eq by lia. reflexivity.
Qed.

Lemma bcell_bset_other b r c v r' c' :
  is9x9 b = true -> in_grid r c -> (r' <> r \/ c' <> c) ->
  bcell (bset b r c v) r' c' = bcell b r' c'.
Proof.
  intros Hb Hrc Hne.
  destruct (bset_eq b r c v Hb Hrc) as (row & H1 & H2 & ->).
  destruct (is9x9_inv b Hb) as [Hlen _]. destruct Hrc as [Hr Hc].
  unfold bcell, index.
  destruct (Z.ltb_spec r' 0); [reflexivity|].
  destruct (Z.eq_dec r' r) as [->|Hr'].
  - rewrite nth_error_upd_eq by lia. rewrite H1.
    destruct (Z.ltb_spec c' 0); [reflexivity|].
    rewrite nth_error_upd_neq by lia. reflexivity.
  - rewrite nth_error_upd_neq by lia. reflexivity.
Qed.

Lemma bset_restore b r c v :
  is9x9 b = true -> in_grid r c ->
  bset (bset b r c v) r c (bcell b r c) = b.
Proof.
  intros Hb Hrc.
  pose proof (is9x9_bset b r c v Hb Hrc) as Hb'.
  destruct (bset_eq (bset b r c v) r c (bcell b r c) Hb' Hrc)
    as (row' & H1' & H2' & ->).
  destruct (bset_eq b r c v Hb Hrc) as (row & H1 & H2 & E).
  destruct (is9x9_inv b Hb) as [Hlen _]. destruct Hrc as [Hr Hc].
  rewrite E in H1'. rewrite nth_error_upd_eq in H1' by lia.
  injection H1' as <-. rewrite E, upd_upd, upd_upd.
  apply upd_same. rewrite H1. f_equal. symmetry. apply upd_same.
  unfold bcell, index.
  destruct (Z.ltb_spec r 0); [lia|]. destruct (Z.ltb_spec c 0); [lia|].
  rewrite H1.
  destruct (nth_error row (Z.to_nat c)) eqn:E'; [reflexivity|].
  apply nth_error_None in E'. lia.
Qed.

(** Weighted sums under a one-place update: the tool for counting
    empty and filled cells. *)
Lemma list_sum_upd {A} (f : A -> nat) (xs : list A) n x y :
  nth_error xs n = Some x ->
  (list_sum (map f (upd xs n y)) + f x = list_sum (map f xs) + f y)%nat.
Proof.
  revert n; induction xs as [|z t IH]; intros [|n] H; simpl in *;
    try discriminate.
  - injection H as ->. lia.
  - specialize (IH n H). lia.
Qed.

Lemma count_upd (p : jsval -> bool) row n x y :
  nth_error row n = Some x ->
  (length (filter p (upd row n y)) + (if p x then 1 else 0) =
   length (filter p row) + (if p y then 1 else 0))%nat.
Proof.
  revert n; induction row as [|z t IH]; intros [|n] H; simpl in *;
    try discriminate.
  - injection H as ->. destruct (p x), (p y); simpl; lia.
  - specialize (IH n H). destruct (p z); simpl; lia.
Qed.

Lemma bcell_nth b r c row :
  in_grid r c -> nth_error b (Z.to_nat r) = Some row ->
  length row = 9%nat ->
  nth_error row (Z.to_nat c) = Some (bcell b r c).
Proof.
  intros [Hr Hc] H1 H2. unfold bcell, index.
  destruct (Z.ltb_spec r 0); [lia|]. destruct (Z.ltb_spec c 0); [lia|].
  rewrite H1.
  destruct (nth_error row (Z.to_nat c)) eqn:E'; [reflexivity|].
  apply nth_error_None in E'. lia.
Qed.

Lemma count_bset (p : jsval -> bool) b r c v :
  is9x9 b = true -> in_grid r c ->
  (list_sum (map (fun row => length (filter p row)) (bset b r c v))
   + (if p (bcell b r c) then 1 else 0) =
   list_sum (map (fun row => length (filter p row)) b)
   + (if p v then 1 else 0))%nat.
Proof.
  intros Hb Hrc.
  destruct (bset_eq b r c v Hb Hrc) as (row & H1 & H2 & ->).
  pose proof (list_sum_upd (fun row => length (filter p row)) b
                (Z.to_nat r) row (upd row (Z.to_nat c) v) H1) as Hs.
  pose proof (count_upd p row (Z.to_nat c) (bcell b r c) v
                (bcell_nth b r c row Hrc H1 H2)) as Hc.
  simpl in Hs. lia.
Qed.

Lemma count_empty_fill b r c v :
  is9x9 b = true -> in_grid r c ->
  is_zero (bcell b r c) = true -> is_zero v = false ->
  S (count_empty (bset b r c v)) = count_empty b.
Proof.
  intros Hb Hrc Hz Hv. unfold count_empty.
  pose proof (count_bset is_zero b r c v Hb Hrc) as H.
  rewrite Hz, Hv in H. lia.
Qed.

Lemma count_filled_clear b r c :
  is9x9 b = true -> in_grid r c ->
  is_zero (bcell b r c) = false ->
  S (count_filled (bset b r c (Num 0))) = count_filled b.
Proof.
  intros Hb Hrc Hz. unfold count_filled.
  pose proof (count_bset (fun v => negb (is_zero v)) b r c (Num 0) Hb Hrc)
    as H.
  cbv beta in H. rewrite Hz in H. simpl in H. lia.
Qed.

(** *** Grids in the store *)

Lemma allocated_In h g l :
  allocated h g = true -> In l g -> nth_error h l = Some (nth l h []).
Proof.
  intros Ha Hin. unfold allocated in Ha. rewrite forallb_forall in Ha.
  apply Ha in Hin. apply Nat.ltb_lt in Hin.
  now apply nth_error_nth'.
Qed.

Lemma grid9x9_inv h g :
  grid9x9 h g = true ->
  allocated h g = true /\ is9x9 (snapshot h g) = true /\ length g = 9%nat.
Proof.
  unfold grid9x9. intros H. apply andb_true_iff in H as [H1 H2].
  repeat split; auto.
  apply is9x9_inv in H2 as [H2 _]. unfold snapshot in H2.
  now rewrite length_map in H2.
Qed.

Lemma wf_grid_inv h g :
  wf_grid h g = true ->
  grid9x9 h g = true /\
  forall r c, in_grid r c -> digit_or_zero (bcell (snapshot h g) r c) = true.
Proof.
  unfold wf_grid. intros H. apply andb_true_iff in H as [H1 H2].
  split; [assumption|]. intros r c Hrc.
  destruct (grid9x9_inv h g H1) as (_ & Hb & _).
  destruct (board_row _ r Hb (proj1 Hrc)) as (row & _ & Hrow & Hlen).
  pose proof (bcell_nth _ r c row Hrc Hrow Hlen) as Hc.
  rewrite forallb_forall in H2.
  specialize (H2 row (nth_error_In _ _ Hrow)).
  rewrite forallb_forall in H2. apply H2. eapply nth_error_In; eauto.
Qed.

Lemma index_snapshot h g r :
  index (snapshot h g) r =
  match index g r with Some l => Some (nth l h []) | None => None end.
Proof.
  unfold index, snapshot, Grid, loc in *. destruct (r <? 0); [reflexivity|].
  rewrite nth_error_map. destruct (nth_error g (Z.to_nat r)); reflexivity.
Qed.

Lemma read_cell_snapshot h g r c :
  allocated h g = true -> 0 <= r < Z.of_nat (length g) ->
  read_cell g r c h = Ok (bcell (snapshot h g) r c).
Proof.
  intros Ha Hr. unfold read_cell, bcell. rewrite index_snapshot.
  destruct (index_Some g r Hr) as (l & -> & Hl).
  rewrite (allocated_In h g l Ha (nth_error_In _ _ Hl)). reflexivity.
Qed.

Lemma read_cell_missing_row h g r c :
  ~ (0 <= r < Z.of_nat (length g)) -> read_cell g r c h = TypeError.
Proof.
  intros Hr. unfold read_cell. now rewrite index_None.
Qed.

Lemma snapshot_upd h g n l x :
  NoDup g -> nth_error g n = Some l ->
  snapshot (upd h l x) g = upd (snapshot h g) n (nth l (upd h l x) []).
Proof.
  intros Hnd Hn. apply nth_error_ext. intros m.
  assert (Hlt : (n < length g)%nat) by (apply nth_error_Some; congruence).
  destruct (Nat.eq_dec n m) as [<-|Hne].
  - rewrite nth_error_upd_eq
      by (unfold snapshot; now rewrite length_map).
    unfold snapshot. rewrite nth_error_map, Hn. reflexivity.
  - rewrite nth_error_upd_neq by assumption.
    unfold snapshot. rewrite !nth_error_map.
    destruct (nth_error g m) as [l'|] eqn:Hm; [|reflexivity].
    simpl. f_equal.
    assert (l <> l').
    { intros <-. apply Hne.
      rewrite NoDup_nth_error in Hnd. apply Hnd; [assumption|congruence]. }
    assert (E : nth_error (upd h l x) l' = nth_error h l')
      by (now apply nth_error_upd_neq).
    destruct (nth_error h l') as [y|] eqn:Ey.
    + rewrite (nth_error_nth _ _ [] E). symmetry.
      now apply nth_error_nth.
    + rewrite !nth_overflow; auto.
      * now apply nth_error_None.
      * now apply nth_error_None.
Qed.

Lemma write_cell_snapshot h g r c v :
  NoDup g -> allocated h g = true -> 0 <= r < Z.of_nat (length g) ->
  exists h',
    write_cell g r c v h = Ok h' /\
    snapshot h' g = bset (snapshot h g) r c v /\
    same_outside g h h' /\
    allocated h' g = true.
Proof.
  intros Hnd Ha Hr. unfold write_cell.
  destruct (index_Some g r Hr) as (l & Hi & Hl). rewrite Hi.
  pose proof (allocated_In h g l Ha (nth_error_In _ _ Hl)) as Hh.
  rewrite Hh. eexists. split; [reflexivity|].
  assert (Hlt : (l < length h)%nat) by (apply nth_error_Some; congruence).
  repeat split.
  - rewrite (snapshot_upd h g _ l _ Hnd Hl).
    unfold bset. rewrite index_snapshot, Hi. f_equal.
    apply nth_error_nth. now apply nth_error_upd_eq.
  - apply upd_length.
  - intros l' Hl'. apply nth_error_upd_neq. intros <-.
    apply Hl'. eapply nth_error_In; eauto.
  - unfold allocated in *. rewrite upd_length. assumption.
Qed.

Lemma same_outside_trans g h1 h2 h3 :
  same_outside g h1 h2 -> same_outside g h2 h3 -> same_outside g h1 h3.
Proof.
  intros [L1 F1] [L2 F2]. split; [congruence|].
  intros l Hl. rewrite F2, F1; auto.
Qed.

(** Two stores that agree outside the rows of [g] and show the same
    contents for [g] are the same store. *)
Lemma same_store g h h' :
  allocated h g = true -> same_outside g h h' ->
  snapshot h' g = snapshot h g -> h' = h.
Proof.
  intros Ha [Hlen Hout] Hsnap. apply nth_error_ext. intros l.
  destruct (in_dec Nat.eq_dec l g) as [Hin|Hnin]; [|auto].
  pose proof (allocated_In h g l Ha Hin) as Hl.
  assert (Hlt : (l < length h')%nat)
    by (rewrite Hlen; apply nth_error_Some; congruence).
  rewrite Hl, (nth_error_nth' h' [] Hlt). f_equal.
  unfold snapshot in Hsnap.
  apply In_nth_error in Hin as [n Hn].
  assert (E : nth_error (map (fun l => nth l h' []) g) n =
              nth_error (map (fun l => nth l h []) g) n) by now rewrite Hsnap.
  rewrite !nth_error_map, Hn in E. simpl in E. congruence.
Qed.

(** *** Loops *)

Lemma for_each_ext {I A} (xs : list I) (f g : I -> result (flow A)) :
  (forall x, In x xs -> f x = g x) -> for_each xs f = for_each xs g.
Proof.
  induction xs as [|x t IH]; intros H; simpl; [reflexivity|].
  rewrite (H x (or_introl eq_refl)), IH; [reflexivity|].
  intros y Hy. apply H. now right.
Qed.

Lemma for_each_test {I A} (xs : list I) (p : I -> bool) (a : A) :
  for_each xs (fun x => Ok (if p x then Return a else Next)) =
  Ok (if existsb p xs then Return a else Next).
Proof.
  induction xs as [|x t IH]; simpl; [reflexivity|].
  destruct (p x); simpl; [reflexivity|assumption].
Qed.

Lemma find_row {B} (p : Z * B -> bool) (r : Z) (cs : list B) rest :
  find p (map (pair r) cs ++ rest) =
  match find (fun c => p (r, c)) cs with
  | Some c => Some (r, c)
  | None => find p rest
  end.
Proof.
  induction cs as [|c t IH]; simpl; [reflexivity|].
  destruct (p (r, c)); [reflexivity|assumption].
Qed.

Lemma for_each_find_row (p : Z * Z -> bool) (r : Z) (cs : list Z) :
  for_each cs (fun c => Ok (if p (r, c) then Return (r, c) else Next)) =
  Ok (match find (fun c => p (r, c)) cs with
      | Some c => Return (r, c)
      | None => Next
      end).
Proof.
  induction cs as [|c t IH]; simpl; [reflexivity|].
  destruct (p (r, c)); [reflexivity|assumption].
Qed.

Lemma for_each_find_grid (p : Z * Z -> bool) (rs cs : list Z) :
  for_each rs (fun r =>
    for_each cs (fun c => Ok (if p (r, c) then Return (r, c) else Next))) =
  Ok (match find p (flat_map (fun r => map (pair r) cs) rs) with
      | Some q => Return q
      | None => Next
      end).
Proof.
  induction rs as [|r t IH]; simpl; [reflexivity|].
  rewrite for_each_find_row, find_row.
  destruct (find (fun c => p (r, c)) cs); [reflexivity|assumption].
Qed.

(** *** [isValidPlacement] and [findEmpty] read the contents only *)

Lemma box_rows row r :
  0 <= row <= 8 -> row / 3 * 3 <= r < row / 3 * 3 + 3 -> 0 <= r <= 8.
Proof. intros H1 H2. Z.div_mod_to_equations. lia. Qed.

Lemma isValidPlacement_pvalid h g row col val :
  allocated h g = true -> length g = 9%nat -> 0 <= row <= 8 ->
  isValidPlacement g row col val h = Ok (pvalid (snapshot h g) row col val).
Proof.
  intros Ha Hlen Hrow.
  unfold isValidPlacement, pvalid.
  rewrite for_each_ext with
    (g := fun i => Ok (if (negb (i =? col)
                           && strict_eq (bcell (snapshot h g) row i) val)
                          || (negb (i =? row)
                              && strict_eq (bcell (snapshot h g) i col) val)
                       then Return false else Next)).
  2:{ intros i Hi. apply In_range in Hi.
      rewrite !read_cell_snapshot by (auto; lia).
      destruct (i =? col), (i =? row); simpl;
        repeat match goal with
               | |- context [strict_eq ?a ?b] => destruct (strict_eq a b)
               end; reflexivity. }
  rewrite for_each_test. cbn [rbind].
  destruct (existsb _ (range 0 9)); [reflexivity|]. cbn [negb].
  rewrite andb_true_l.
  rewrite for_each_ext with
    (g := fun r => Ok (if existsb (fun c =>
                            (negb (r =? row) || negb (c =? col))
                            && strict_eq (bcell (snapshot h g) r c) val)
                            (range (col / 3 * 3) (col / 3 * 3 + 3))
                       then Return false else Next)).
  2:{ intros r Hr. apply In_range in Hr.
      pose proof (box_rows row r Hrow Hr) as Hr'.
      rewrite <- for_each_test. apply for_each_ext. intros c _.
      rewrite read_cell_snapshot by (auto; lia).
      destruct (negb (r =? row) || negb (c =? col)); simpl;
        [destruct (strict_eq _ val)|]; reflexivity. }
  rewrite for_each_test. cbn [rbind].
  destruct (existsb _ _); reflexivity.
Qed.

Lemma findEmpty_first_empty h g :
  allocated h g = true -> length g = 9%nat ->
  findEmpty g h = Ok (first_empty (snapshot h g)).
Proof.
  intros Ha Hlen.
  unfold findEmpty, first_empty, cells.
  rewrite for_each_ext with
    (g := fun r => for_each (range 0 9) (fun c =>
            Ok (if is_zero (bcell (snapshot h g) (fst (r, c)) (snd (r, c)))
                then Return (r, c) else Next))).
  2:{ intros r Hr. apply In_range in Hr. apply for_each_ext. intros c _.
      rewrite read_cell_snapshot by (auto; lia). cbn [rbind fst snd].
      unfold is_zero. destruct (strict_eq _ _); reflexivity. }
  rewrite (for_each_find_grid
             (fun p => is_zero (bcell (snapshot h g) (fst p) (snd p)))).
  cbn [rbind]. destruct (find _ _); reflexivity.
Qed.

(** *** The placement check as a statement about peers *)

Lemma peerb_spec row col r c : peerb row col r c = true <-> peer row col r c.
Proof.
  unfold peerb, peer.
  rewrite andb_true_iff, !orb_true_iff, andb_true_iff, !negb_true_iff,
    !Z.eqb_eq, !Z.eqb_neq.
  tauto.
Qed.

Lemma same_box row r :
  0 <= row <= 8 -> 0 <= r <= 8 ->
  (row / 3 * 3 <= r < row / 3 * 3 + 3 <-> r / 3 = row / 3).
Proof. intros H1 H2. Z.div_mod_to_equations. lia. Qed.

Lemma pvalid_false_iff b row col val :
  in_grid row col ->
  pvalid b row col val = false <->
  exists r c, in_grid r c /\ peer row col r c /\
              strict_eq (bcell b r c) val = true.
Proof.
  intros [Hrow Hcol]. unfold pvalid.
  rewrite andb_false_iff, !negb_false_iff, !existsb_exists. split.
  - intros [(i & Hi & H)|(r & Hr & H)].
    + apply In_range in Hi. apply orb_true_iff in H as [H|H];
        apply andb_true_iff in H as [H1 H2];
        apply negb_true_iff, Z.eqb_neq in H1.
      * exists row, i. unfold in_grid, peer. repeat split; auto; lia.
      * exists i, col. unfold in_grid, peer. repeat split; auto; lia.
    + apply existsb_exists in H as (c & Hc & H).
      apply In_range in Hr, Hc.
      apply andb_true_iff in H as [H1 H2].
      apply orb_true_iff in H1.
      rewrite !negb_true_iff, !Z.eqb_neq in H1.
      pose proof (box_rows row r Hrow Hr) as Hr'.
      pose proof (box_rows col c Hcol Hc) as Hc'.
      exists r, c. unfold in_grid, peer. repeat split; auto; try lia.
      right. right. split; apply same_box; auto.
  - intros (r & c & [Hr Hc] & [Hne Hp] & Hv).
    destruct (Z.eq_dec r row) as [->|Hr'].
    + left. exists c. split; [apply In_range; lia|].
      apply orb_true_iff. left. rewrite Hv, andb_true_r.
      apply negb_true_iff, Z.eqb_neq. lia.
    + destruct (Z.eq_dec c col) as [->|Hc'].
      * left. exists r. split; [apply In_range; lia|].
        apply orb_true_iff. right. rewrite Hv, andb_true_r.
        apply negb_true_iff, Z.eqb_neq. lia.
      * right. destruct Hp as [?|[?|[Hbr Hbc]]]; try lia.
        exists r. split; [apply In_range; apply same_box; auto|].
        apply existsb_exists. exists c.
        split; [apply In_range; apply same_box; auto|].
        rewrite Hv, andb_true_r. apply orb_true_iff. left.
        apply negb_true_iff, Z.eqb_neq. lia.
Qed.

Lemma pvalid_true_iff b row col val :
  in_grid row col ->
  pvalid b row col val = true <->
  forall r c, in_grid r c -> peer row col r c ->
              strict_eq (bcell b r c) val = false.
Proof.
  intros Hrc. split.
  - intros Hv r c Hin Hp.
    destruct (strict_eq (bcell b r c) val) eqn:E; [|reflexivity].
    assert (pvalid b row col val = false)
      by (apply pvalid_false_iff; eauto).
    congruence.
  - intros H. destruct (pvalid b row col val) eqn:E; [reflexivity|].
    apply pvalid_false_iff in E as (r & c & Hin & Hp & Hv); auto.
    rewrite H in Hv; auto.
Qed.

(** The check does not look at the cell it is asked about. *)
Lemma pvalid_bset_self b row col val v :
  is9x9 b = true -> in_grid row col ->
  pvalid (bset b row col v) row col val = pvalid b row col val.
Proof.
  intros Hb Hrc.
  destruct (pvalid b row col val) eqn:E.
  - apply pvalid_true_iff; auto. intros r c Hin Hp.
    rewrite bcell_bset_other; auto; [|apply Hp].
    rewrite pvalid_true_iff in E; auto.
  - apply pvalid_false_iff; auto.
    apply pvalid_false_iff in E as (r & c & Hin & Hp & Hv); auto.
    exists r, c. split; [assumption|]. split; [assumption|].
    rewrite bcell_bset_other; auto. apply Hp.
Qed.

(** *** Empty cells *)

Lemma strict_eq_true a b : strict_eq a b = true <-> a = b.
Proof.
  destruct a as [x|], b as [y|]; simpl; split; intros H;
    try discriminate; try reflexivity.
  - apply Z.eqb_eq in H. congruence.
  - injection H as ->. apply Z.eqb_refl.
Qed.

Lemma strict_eq_false a b : strict_eq a b = false <-> a <> b.
Proof.
  rewrite <- strict_eq_true. destruct (strict_eq a b); split; congruence.
Qed.

Lemma is_zero_true v : is_zero v = true <-> v = Num 0.
Proof. apply strict_eq_true. Qed.

Lemma is_zero_digit v : 1 <= v <= 9 -> is_zero (Num v) = false.
Proof. intros H. unfold is_zero. simpl. apply Z.eqb_neq. lia. Qed.

Lemma In_cells r c : In (r, c) cells <-> in_grid r c.
Proof.
  unfold cells, in_grid. rewrite in_flat_map. split.
  - intros (r' & Hr & H). apply in_map_iff in H as (c' & E & Hc).
    injection E as -> ->. apply In_range in Hr, Hc. lia.
  - intros [Hr Hc]. exists r. split; [apply In_range; lia|].
    apply in_map. apply In_range. lia.
Qed.

Lemma first_empty_Some b r c :
  first_empty b = Some (r, c) -> in_grid r c /\ bcell b r c = Num 0.
Proof.
  intros H. apply find_some in H as [H1 H2]. split.
  - now apply In_cells.
  - now apply is_zero_true.
Qed.

Lemma first_empty_None b r c :
  first_empty b = None -> in_grid r c -> is_zero (bcell b r c) = false.
Proof.
  intros H Hrc. apply In_cells in Hrc.
  apply (find_none _ _ H (r, c) Hrc).
Qed.

Lemma first_empty_full b :
  (forall r c, in_grid r c -> is_zero (bcell b r c) = false) ->
  first_empty b = None.
Proof.
  intros H. destruct (first_empty b) as [[r c]|] eqn:E; [|reflexivity].
  apply first_empty_Some in E as [Hrc Hz].
  specialize (H r c Hrc). rewrite Hz in H. discriminate.
Qed.

Lemma peer_sym row col r c : peer row col r c -> peer r c row col.
Proof. unfold peer. intros [H1 H2]. split; [lia|]. lia. Qed.

(** *** The search on boards *)

Lemma extends_refl b : extends b b.
Proof. intros r c _ _. reflexivity. Qed.

Lemma ptry_elim recur b k r c vals res b' k' :
  is9x9 b = true -> in_grid r c -> bcell b r c = Num 0 ->
  restores recur ->
  ptry recur b k r c vals = Some (res, b', k') ->
  (res = false /\ b' = b) \/
  (res = true /\ exists v k1,
      In v vals /\ pvalid (bset b r c (Num v)) r c (Num v) = true /\
      recur (bset b r c (Num v)) k1 = Some (true, b', k')).
Proof.
  intros Hb Hrc Hz Hrec. revert k.
  induction vals as [|v rest IH]; intros k H; simpl in H.
  - injection H as <- <- <-. now left.
  - assert (Hback : bset (bset b r c (Num v)) r c (Num 0) = b)
      by (rewrite <- Hz; now apply bset_restore).
    destruct (pvalid (bset b r c (Num v)) r c (Num v)) eqn:Hv.
    + destruct (recur (bset b r c (Num v)) k) as [[[[|] b2] k2]|] eqn:Hr;
        [| |discriminate].
      * injection H as <- <- <-. right. split; [reflexivity|].
        exists v, k. repeat split; auto. now left.
      * apply Hrec in Hr as ->; [|now apply is9x9_bset].
        rewrite Hback in H. apply IH in H as [H|(E & v' & k1 & Hin & H)];
          [now left|right].
        split; [assumption|]. exists v', k1. split; [now right|assumption].
    + rewrite Hback in H. apply IH in H as [H|(E & v' & k1 & Hin & H)];
        [now left|right].
      split; [assumption|]. exists v', k1. split; [now right|assumption].
Qed.

Lemma ptry_mono recur recur' b k r c vals x :
  (forall b1 k1 y, recur b1 k1 = Some y -> recur' b1 k1 = Some y) ->
  ptry recur b k r c vals = Some x -> ptry recur' b k r c vals = Some x.
Proof.
  intros Hrec. revert b k.
  induction vals as [|v rest IH]; intros b k H; simpl in *; [assumption|].
  destruct (pvalid (bset b r c (Num v)) r c (Num v)); [|auto].
  destruct (recur (bset b r c (Num v)) k) as [[[[|] b2] k2]|] eqn:Hr;
    [| |discriminate]; rewrite (Hrec _ _ _ Hr); auto.
Qed.

Lemma ptry_total recur b k r c vals n :
  is9x9 b = true -> in_grid r c -> bcell b r c = Num 0 ->
  restores recur ->
  (forall b1 k1, is9x9 b1 = true -> (count_empty b1 < n)%nat ->
                 recur b1 k1 <> None) ->
  (count_empty b <= n)%nat ->
  (forall v, In v vals -> 1 <= v <= 9) ->
  ptry recur b k r c vals <> None.
Proof.
  intros Hb Hrc Hz Hrec Htot Hn. revert k.
  induction vals as [|v rest IH]; intros k Hvals; simpl; [discriminate|].
  assert (Hback : bset (bset b r c (Num v)) r c (Num 0) = b)
    by (rewrite <- Hz; now apply bset_restore).
  assert (Hv : 1 <= v <= 9) by (apply Hvals; now left).
  assert (Hrest : forall v', In v' rest -> 1 <= v' <= 9)
    by (intros v' Hin; apply Hvals; now right).
  assert (Hcount : S (count_empty (bset b r c (Num v))) = count_empty b).
  { apply count_empty_fill; auto.
    - now apply is_zero_true.
    - now apply is_zero_digit. }
  destruct (pvalid (bset b r c (Num v)) r c (Num v)).
  - destruct (recur (bset b r c (Num v)) k) as [[[[|] b2] k2]|] eqn:Hr.
    + discriminate.
    + apply Hrec in Hr as ->; [|now apply is9x9_bset].
      rewrite Hback. now apply IH.
    + exfalso.
      apply (Htot _ k (is9x9_bset b r c (Num v) Hb Hrc)); [lia|exact Hr].
  - rewrite Hback. now apply IH.
Qed.

Section BoardSearch.

Variable pcands : nat -> list Z * nat.
Hypothesis pcands_digits : forall k v, In v (fst (pcands k)) -> 1 <= v <= 9.

Lemma psearch_restores fuel : restores (psearch pcands fuel).
Proof.
  induction fuel as [|fuel IH]; intros b k b' k' Hb H; simpl in H;
    [discriminate|].
  destruct (first_empty b) as [[r c]|] eqn:E; [|discriminate].
  apply first_empty_Some in E as [Hrc Hz].
  destruct (pcands k) as [vals k1].
  apply ptry_elim in H as [[_ H]|[H _]]; auto. discriminate.
Qed.

Lemma psearch_mono fuel : forall b k x,
  psearch pcands fuel b k = Some x ->
  psearch pcands (S fuel) b k = Some x.
Proof.
  induction fuel as [|fuel IH]; intros b k x H; [discriminate|].
  simpl in H. change (psearch pcands (S (S fuel)) b k) with
    (match first_empty b with
     | None => Some (true, b, k)
     | Some (r, c) =>
         let (vals, k1) := pcands k in
         ptry (psearch pcands (S fuel)) b k1 r c vals
     end).
  destruct (first_empty b) as [[r c]|]; [|assumption].
  destruct (pcands k) as [vals k1].
  eapply ptry_mono; eauto.
Qed.

Lemma psearch_more_fuel fuel fuel' b k x :
  (fuel <= fuel')%nat ->
  psearch pcands fuel b k = Some x -> psearch pcands fuel' b k = Some x.
Proof.
  induction 1 as [|m _ IH]; intros H; [assumption|].
  apply psearch_mono. auto.
Qed.

(** Each nested call is made on a board with one empty cell less, so a
    frame for every empty cell and one more are enough. *)
Lemma psearch_total fuel : forall b k,
  is9x9 b = true -> (count_empty b < fuel)%nat ->
  psearch pcands fuel b k <> None.
Proof.
  induction fuel as [|fuel IH]; intros b k Hb Hn; [lia|]. simpl.
  destruct (first_empty b) as [[r c]|] eqn:E; [|discriminate].
  apply first_empty_Some in E as [Hrc Hz].
  pose proof (pcands_digits k) as Hd.
  destruct (pcands k) as [vals k1]. simpl in Hd.
  apply ptry_total with (n := fuel); auto; [|lia].
  apply psearch_restores.
Qed.

Lemma psearch_sound fuel : forall b k b' k',
  is9x9 b = true ->
  psearch pcands fuel b k = Some (true, b', k') ->
  is9x9 b' = true /\ full b' /\ extends b b' /\ placed_digits b b' /\
  forall b0, extends b0 b -> clashes_within b0 b -> clashes_within b0 b'.
Proof.
  induction fuel as [|fuel IH]; intros b k b' k' Hb H; simpl in H;
    [discriminate|].
  destruct (first_empty b) as [[r c]|] eqn:E.
  - apply first_empty_Some in E as [Hrc Hz].
    pose proof (pcands_digits k) as Hd.
    destruct (pcands k) as [vals k1]. simpl in Hd.
    apply ptry_elim in H as [[H _]|(_ & v & k2 & Hin & Hv & H)]; auto;
      [discriminate| |apply psearch_restores].
    pose proof (is9x9_bset b r c (Num v) Hb Hrc) as Hb1.
    destruct (IH _ _ _ _ Hb1 H) as (Hb' & Hfull & Hext & Hdig & Hcl).
    assert (Hold : forall r' c', in_grid r' c' ->
              is_zero (bcell b r' c') = false -> r' <> r \/ c' <> c).
    { intros r' c' _ Hnz.
      destruct (Z.eq_dec r' r) as [->|]; [|now left].
      destruct (Z.eq_dec c' c) as [->|]; [|now right].
      rewrite Hz in Hnz. discriminate. }
    assert (Hnew : is_zero (bcell (bset b r c (Num v)) r c) = false)
      by (rewrite bcell_bset_same; auto; apply is_zero_digit; auto).
    split; [assumption|]. split; [assumption|].
    split; [|split].
    + intros r' c' Hin' Hnz. pose proof (Hold r' c' Hin' Hnz) as Hne.
      rewrite Hext; auto; rewrite bcell_bset_other; auto.
    + intros r' c' Hin' Hz'.
      destruct (Z.eq_dec r' r) as [->|Hr'].
      * destruct (Z.eq_dec c' c) as [->|Hc'].
        -- exists v. split; [auto|].
           rewrite Hext; auto. now apply bcell_bset_same.
        -- apply Hdig; auto. rewrite bcell_bset_other; auto.
      * apply Hdig; auto. rewrite bcell_bset_other; auto.
    + intros b0 Hext0 Hcl0. apply Hcl.
      * intros r' c' Hin' Hnz.
        assert (Hnz' : is_zero (bcell b r' c') = false)
          by (rewrite Hext0; auto).
        rewrite bcell_bset_other; auto.
      * rewrite pvalid_true_iff in Hv by assumption.
        intros r1 c1 r2 c2 Hin1 Hin2 Hp Hnz Heq.
        destruct (Z.eq_dec r1 r) as [->|Hr1];
          [destruct (Z.eq_dec c1 c) as [->|Hc1]|].
        -- exfalso. rewrite bcell_bset_same in Heq by assumption.
           specialize (Hv r2 c2 Hin2 Hp).
           apply strict_eq_false in Hv. auto.
        -- assert (Hne1 : r <> r \/ c1 <> c) by now right.
           rewrite (bcell_bset_other b r c (Num v) r c1) in Heq, Hnz
             by assumption.
           destruct (Z.eq_dec r2 r) as [->|Hr2];
             [destruct (Z.eq_dec c2 c) as [->|Hc2]|].
           ++ exfalso. rewrite bcell_bset_same in Heq by assumption.
              specialize (Hv r c1 Hin1 (peer_sym _ _ _ _ Hp)).
              rewrite bcell_bset_other in Hv by assumption.
              apply strict_eq_false in Hv. auto.
           ++ rewrite bcell_bset_other in Heq by auto.
              eapply Hcl0; eauto.
           ++ rewrite bcell_bset_other in Heq by auto.
              eapply Hcl0; eauto.
        -- assert (Hne1 : r1 <> r \/ c1 <> c) by now left.
           rewrite (bcell_bset_other b r c (Num v) r1 c1) in Heq, Hnz
             by assumption.
           destruct (Z.eq_dec r2 r) as [->|Hr2];
             [destruct (Z.eq_dec c2 c) as [->|Hc2]|].
           ++ exfalso. rewrite bcell_bset_same in Heq by assumption.
              specialize (Hv r1 c1 Hin1 (peer_sym _ _ _ _ Hp)).
              rewrite bcell_bset_other in Hv by assumption.
              apply strict_eq_false in Hv. auto.
           ++ rewrite bcell_bset_other in Heq by auto.
              eapply Hcl0; eauto.
           ++ rewrite bcell_bset_other in Heq by auto.
              eapply Hcl0; eauto.
  - injection H as <- <-. split; [assumption|].
    split; [|split; [|split]].
    + intros r c Hrc. now apply first_empty_None.
    + apply extends_refl.
    + intros r c Hrc Hz. pose proof (first_empty_None b r c E Hrc) as Hnz.
      rewrite Hz in Hnz. discriminate.
    + auto.
Qed.

End BoardSearch.

(** *** Completeness of the search *)

Lemma ptry_complete G recur b k r c vals n g :
  solution G -> is9x9 b = true -> below b G -> in_grid r c ->
  bcell b r c = Num 0 -> bcell G r c = Num g ->
  restores recur ->
  (forall b1 k1, is9x9 b1 = true -> below b1 G ->
     (count_empty b1 < n)%nat ->
     exists b' k', recur b1 k1 = Some (true, b', k')) ->
  (forall b1 k1, is9x9 b1 = true -> (count_empty b1 < n)%nat ->
     recur b1 k1 <> None) ->
  (count_empty b <= n)%nat ->
  (forall v, In v vals -> 1 <= v <= 9) -> In g vals ->
  exists b' k', ptry recur b k r c vals = Some (true, b', k').
Proof.
  intros (HG9 & HGd & HGp) Hb Hbel Hrc Hz Hg Hrec Hcomp Htot Hn.
  revert k. induction vals as [|v rest IH]; intros k Hvals Hin;
    [destruct Hin|]. simpl.
  assert (Hback : bset (bset b r c (Num v)) r c (Num 0) = b)
    by (rewrite <- Hz; now apply bset_restore).
  assert (Hv : 1 <= v <= 9) by (apply Hvals; now left).
  assert (Hrest : forall v', In v' rest -> 1 <= v' <= 9)
    by (intros v' Hin'; apply Hvals; now right).
  assert (Hcount : S (count_empty (bset b r c (Num v))) = count_empty b).
  { apply count_empty_fill; auto.
    - now apply is_zero_true.
    - now apply is_zero_digit. }
  pose proof (is9x9_bset b r c (Num v) Hb Hrc) as Hb1.
  assert (Hgood : v = g ->
            pvalid (bset b r c (Num v)) r c (Num v) = true /\
            below (bset b r c (Num v)) G).
  { intros ->. split.
    - apply pvalid_true_iff; auto. intros r' c' Hin' Hp.
      rewrite bcell_bset_other by (auto; apply Hp).
      apply strict_eq_false.
      destruct (Hbel r' c' Hin') as [E|E]; rewrite E.
      + intros E'. injection E' as E'. lia.
      + rewrite <- Hg. now apply HGp.
    - intros r' c' Hin'.
      destruct (Z.eq_dec r' r) as [->|Hr'];
        [destruct (Z.eq_dec c' c) as [->|Hc']|].
      + right. rewrite bcell_bset_same; auto.
      + rewrite bcell_bset_other; auto.
      + rewrite bcell_bset_other; auto. }
  destruct (pvalid (bset b r c (Num v)) r c (Num v)) eqn:Hpv.
  - destruct (recur (bset b r c (Num v)) k) as [[[[|] b2] k2]|] eqn:Hr.
    + eauto.
    + apply Hrec in Hr as E; [subst b2|assumption]. rewrite Hback.
      apply IH; auto. destruct Hin as [->|Hin]; [|assumption].
      exfalso. destruct (Hgood eq_refl) as [_ Hbel1].
      destruct (Hcomp _ k Hb1 Hbel1) as (b' & k' & E); [lia|]. congruence.
    + exfalso. apply (Htot _ k Hb1); [lia|exact Hr].
  - rewrite Hback. apply IH; auto.
    destruct Hin as [->|Hin]; [|assumption].
    destruct (Hgood eq_refl) as [E _]. discriminate.
Qed.

Section BoardSearchComplete.

Variable pcands : nat -> list Z * nat.
Hypothesis pcands_digits : forall k v, In v (fst (pcands k)) -> 1 <= v <= 9.
Hypothesis pcands_all : forall k v, 1 <= v <= 9 -> In v (fst (pcands k)).

Lemma psearch_complete G fuel : forall b k,
  solution G -> is9x9 b = true -> below b G ->
  (count_empty b < fuel)%nat ->
  exists b' k', psearch pcands fuel b k = Some (true, b', k').
Proof.
  induction fuel as [|fuel IH]; intros b k HG Hb Hbel Hn; [lia|]. simpl.
  destruct (first_empty b) as [[r c]|] eqn:E; [|eauto].
  apply first_empty_Some in E as [Hrc Hz].
  pose proof (pcands_digits k) as Hd. pose proof (pcands_all k) as Ha.
  destruct (pcands k) as [vals k1]. simpl in Hd, Ha.
  destruct HG as (HG9 & HGd & HGp).
  destruct (HGd r c Hrc) as (g & Hg & HGg).
  apply ptry_complete with (G := G) (n := fuel) (g := g); auto.
  - repeat split; auto.
  - now apply psearch_restores.
  - intros b1 k2 Hb1 Hbel1 Hn1. apply IH; auto. repeat split; auto.
  - intros b1 k2 Hb1 Hn1. now apply psearch_total.
  - lia.
Qed.

End BoardSearchComplete.

(** *** The search on the store follows the search on the board *)

Lemma assign_sim g r c v w :
  arena (w_heap w) g -> 0 <= r <= 8 ->
  exists w', assign g r c v w = Ok (tt, w') /\
             w_rand w' = w_rand w /\ w_used w' = w_used w /\
             snapshot (w_heap w') g = bset (snapshot (w_heap w) g) r c v /\
             same_outside g (w_heap w) (w_heap w') /\
             arena (w_heap w') g.
Proof.
  intros (Hnd & Ha & Hlen) Hr.
  destruct (write_cell_snapshot (w_heap w) g r c v Hnd Ha)
    as (h' & Hw & Hs & Ho & Ha'); [lia|].
  exists (World h' (w_rand w) (w_used w)).
  unfold assign, writing. rewrite Hw. simpl.
  repeat split; auto; apply Ho.
Qed.

Lemma check_sim g r c val w :
  arena (w_heap w) g -> 0 <= r <= 8 ->
  reading (isValidPlacement g r c val) w =
  Ok (pvalid (snapshot (w_heap w) g) r c val, w).
Proof.
  intros (_ & Ha & Hlen) Hr. unfold reading.
  now rewrite isValidPlacement_pvalid.
Qed.

Lemma find_sim g w :
  arena (w_heap w) g ->
  reading (findEmpty g) w = Ok (first_empty (snapshot (w_heap w) g), w).
Proof.
  intros (_ & Ha & Hlen). unfold reading.
  now rewrite findEmpty_first_empty.
Qed.

Lemma simulates_frame g w w1 o r :
  w_rand w1 = w_rand w ->
  same_outside g (w_heap w) (w_heap w1) ->
  simulates g w1 o r -> simulates g w o r.
Proof.
  intros Hr Ho. destruct o as [[[res b'] k']|]; simpl; [|auto].
  intros (w' & E & H1 & H2 & H3 & H4 & H5). exists w'.
  repeat split; try apply H5; auto; try congruence;
    apply (same_outside_trans g _ _ _ Ho H4).
Qed.

Section Simulation.

Variable g : Grid.
Variable rand : nat -> nat.

Lemma try_candidates_sim recur precur r c vals :
  in_grid r c ->
  (forall w1, w_rand w1 = rand -> arena (w_heap w1) g ->
     simulates g w1 (precur (snapshot (w_heap w1) g) (w_used w1))
       (recur w1)) ->
  forall w, w_rand w = rand -> arena (w_heap w) g ->
    simulates g w
      (ptry precur (snapshot (w_heap w) g) (w_used w) r c vals)
      (try_candidates recur g r c vals w).
Proof.
  intros [Hr Hc] Hrec.
  induction vals as [|v rest IH]; intros w Hw Har.
  - simpl. exists w. repeat split; auto; try apply Har.
  - cbn [try_candidates ptry].
    destruct (assign_sim g r c (Num v) w Har Hr)
      as (w1 & E1 & R1 & U1 & S1 & O1 & A1).
    unfold bind at 1. rewrite E1.
    unfold bind at 1. rewrite (check_sim g r c (Num v) w1 A1 Hr).
    rewrite S1. unfold bind at 1.
    apply (simulates_frame g w w1); auto.
    destruct (pvalid (bset (snapshot (w_heap w) g) r c (Num v)) r c (Num v)).
    + pose proof (Hrec w1 (eq_trans R1 Hw) A1) as Hsim.
      rewrite S1, U1 in Hsim.
      destruct (precur (bset (snapshot (w_heap w) g) r c (Num v)) (w_used w))
        as [[[[|] b2] k2]|]; simpl in Hsim.
      * destruct Hsim as (w2 & -> & R2 & U2 & S2 & O2 & A2).
        exists w2. repeat split; auto; apply A2 || apply O2.
      * destruct Hsim as (w2 & -> & R2 & U2 & S2 & O2 & A2).
        destruct (assign_sim g r c (Num 0) w2 A2 Hr)
          as (w3 & E3 & R3 & U3 & S3 & O3 & A3).
        unfold bind at 1. rewrite E3.
        apply (simulates_frame g w1 w3);
          [congruence|apply (same_outside_trans g _ _ _ O2 O3)|].
        rewrite <- S2, <- S3, <- U2, <- U3. apply IH; [congruence|assumption].
      * now rewrite Hsim.
    + destruct (assign_sim g r c (Num 0) w1 A1 Hr)
        as (w3 & E3 & R3 & U3 & S3 & O3 & A3).
      unfold ret at 1. unfold bind at 1. rewrite E3.
      apply (simulates_frame g w1 w3); [congruence|assumption|].
      rewrite <- S1, <- S3, <- U1, <- U3. apply IH; [congruence|assumption].
Qed.

Variable cands : M (list Z).
Variable pcands : nat -> list Z * nat.
Hypothesis cands_spec : forall w,
  w_rand w = rand ->
  cands w = Ok (fst (pcands (w_used w)),
                World (w_heap w) (w_rand w) (snd (pcands (w_used w)))).

Lemma search_sim fuel : forall w,
  w_rand w = rand -> arena (w_heap w) g ->
  simulates g w (psearch pcands fuel (snapshot (w_heap w) g) (w_used w))
    (search cands fuel g w).
Proof.
  induction fuel as [|fuel IH]; intros w Hw Har; [reflexivity|].
  cbn [search psearch]. unfold bind at 1. rewrite (find_sim g w Har).
  destruct (first_empty (snapshot (w_heap w) g)) as [[r c]|] eqn:E.
  - apply first_empty_Some in E as [Hrc _].
    unfold bind at 1. rewrite (cands_spec w Hw).
    destruct (pcands (w_used w)) as [vals k1]. cbn [fst snd].
    apply (try_candidates_sim (search cands fuel g) (psearch pcands fuel)
             r c vals Hrc IH
             (World (w_heap w) (w_rand w) k1) Hw Har).
  - exists w. repeat split; auto; try apply Har.
Qed.

End Simulation.

Lemma backtrack_search fuel g : backtrack fuel g = search (ret DIGITS) fuel g.
Proof.
  induction fuel as [|fuel IH]; [reflexivity|].
  cbn [backtrack search]. rewrite IH. reflexivity.
Qed.

Lemma fill_search fuel g : fill fuel g = search shuffledDigits fuel g.
Proof.
  induction fuel as [|fuel IH]; [reflexivity|].
  cbn [fill search]. rewrite IH. reflexivity.
Qed.

(** *** Allocation: [createEmptyGrid] and [cloneGrid] *)

Lemma snapshot_app h extra g :
  allocated h g = true -> snapshot (h ++ extra) g = snapshot h g.
Proof.
  intros Ha. unfold snapshot. apply map_ext_in. intros l Hl.
  unfold allocated in Ha. rewrite forallb_forall in Ha.
  apply app_nth1. apply Nat.ltb_lt. auto.
Qed.

Lemma snapshot_fresh h rows :
  snapshot (h ++ rows) (seq (length h) (length rows)) = rows.
Proof.
  apply nth_error_ext. intros n. unfold snapshot.
  rewrite nth_error_map, nth_error_seq.
  destruct (Nat.ltb_spec n (length rows)) as [Hn|Hn]; simpl.
  - rewrite app_nth2_plus. symmetry. now apply nth_error_nth'.
  - symmetry. now apply nth_error_None.
Qed.

Lemma allocated_app h extra g :
  allocated h g = true -> allocated (h ++ extra) g = true.
Proof.
  unfold allocated. rewrite !forallb_forall. intros H l Hl.
  specialize (H l Hl). apply Nat.ltb_lt in H. apply Nat.ltb_lt.
  rewrite length_app. lia.
Qed.

Lemma allocated_fresh h rows :
  allocated (h ++ rows) (seq (length h) (length rows)) = true.
Proof.
  unfold allocated. apply forallb_forall. intros l Hl.
  apply in_seq in Hl. apply Nat.ltb_lt. rewrite length_app. lia.
Qed.

Lemma arena_fresh h rows :
  length rows = 9%nat ->
  arena (h ++ rows) (seq (length h) (length rows)).
Proof.
  intros Hlen. repeat split.
  - apply seq_NoDup.
  - apply allocated_fresh.
  - now rewrite length_seq.
Qed.

Lemma mapM_alloc_rows {I} (row : list jsval) (xs : list I) : forall h rand k,
  mapM (fun _ => alloc row) xs (World h rand k) =
  Ok (seq (length h) (length xs),
      World (h ++ repeat row (length xs)) rand k).
Proof.
  induction xs as [|x t IH]; intros h rand k; simpl.
  - unfold ret. now rewrite app_nil_r.
  - unfold bind at 1. unfold alloc at 1. cbn [w_heap w_rand w_used].
    unfold bind at 1. rewrite IH. unfold ret.
    rewrite length_app, <- app_assoc. simpl.
    now rewrite Nat.add_1_r.
Qed.

Lemma createEmptyGrid_spec w :
  createEmptyGrid w =
  Ok (seq (length (w_heap w)) 9,
      World (w_heap w ++ repeat (repeat (Num 0) 9) 9) (w_rand w) (w_used w)).
Proof.
  destruct w as [h rand k]. unfold createEmptyGrid.
  now rewrite mapM_alloc_rows.
Qed.

Lemma deref_allocated l w :
  (l < length (w_heap w))%nat -> deref l w = Ok (nth l (w_heap w) [], w).
Proof.
  intros Hl. unfold deref, reading. now rewrite (nth_error_nth' _ [] Hl).
Qed.

Lemma mapM_clone g : forall h extra rand k,
  allocated h g = true ->
  mapM (fun r => row <- deref r ;; alloc row) g (World (h ++ extra) rand k) =
  Ok (seq (length (h ++ extra)) (length g),
      World (h ++ extra ++ snapshot h g) rand k).
Proof.
  induction g as [|l t IH]; intros h extra rand k Ha; simpl.
  - unfold ret. now rewrite app_nil_r.
  - simpl in Ha. apply andb_true_iff in Ha as [Hl Ht].
    apply Nat.ltb_lt in Hl.
    unfold bind at 1. unfold bind at 1.
    rewrite deref_allocated
      by (cbn [w_heap]; rewrite length_app; lia).
    cbn [w_heap]. rewrite app_nth1 by assumption.
    unfold alloc at 1. cbn [w_heap w_rand w_used].
    unfold bind at 1. rewrite <- app_assoc.
    rewrite (IH h (extra ++ [nth l h []]) rand k Ht). unfold ret.
    rewrite !length_app. simpl. rewrite <- !app_assoc. simpl.
    rewrite Nat.add_assoc, Nat.add_1_r. reflexivity.
Qed.

Lemma cloneGrid_spec g w :
  allocated (w_heap w) g = true ->
  cloneGrid g w =
  Ok (seq (length (w_heap w)) (length g),
      World (w_heap w ++ snapshot (w_heap w) g) (w_rand w) (w_used w)).
Proof.
  intros Ha. destruct w as [h rand k]. simpl in *. unfold cloneGrid.
  pose proof (mapM_clone g h [] rand k Ha) as H.
  rewrite app_nil_r in H. exact H.
Qed.

(** *** The shuffle *)

Lemma fisher_yates_spec i : forall arr w,
  fisher_yates i arr w =
  Ok (fst (pshuffle (w_rand w) i arr (w_used w)),
      World (w_heap w) (w_rand w)
        (snd (pshuffle (w_rand w) i arr (w_used w)))).
Proof.
  induction i as [|i IH]; intros arr w; simpl.
  - unfold ret. now destruct w.
  - unfold bind at 1. unfold random_below at 1. rewrite IH. reflexivity.
Qed.

Lemma count_occ_upd (xs : list Z) n x y v :
  nth_error xs n = Some x ->
  (count_occ Z.eq_dec (upd xs n y) v + (if Z.eq_dec x v then 1 else 0) =
   count_occ Z.eq_dec xs v + (if Z.eq_dec y v then 1 else 0))%nat.
Proof.
  revert n; induction xs as [|z t IH]; intros [|n] H; simpl in *;
    try discriminate.
  - injection H as ->. destruct (Z.eq_dec x v), (Z.eq_dec y v); lia.
  - specialize (IH n H). destruct (Z.eq_dec z v); lia.
Qed.

Lemma swap_length arr i j : length (swap arr i j) = length arr.
Proof. unfold swap. now rewrite !upd_length. Qed.

Lemma swap_perm arr i j :
  (i < length arr)%nat -> (j < length arr)%nat ->
  Permutation arr (swap arr i j).
Proof.
  intros Hi Hj. apply (Permutation_count_occ Z.eq_dec). intros v.
  unfold swap.
  pose proof (count_occ_upd arr i (nth i arr 0) (nth j arr 0) v
                (nth_error_nth' arr 0 Hi)) as H1.
  assert (Hj' : nth_error (upd arr i (nth j arr 0)) j = Some (nth j arr 0)).
  { destruct (Nat.eq_dec i j) as [->|Hne].
    - now apply nth_error_upd_eq.
    - rewrite nth_error_upd_neq by assumption. now apply nth_error_nth'. }
  pose proof (count_occ_upd _ j _ (nth i arr 0) v Hj') as H2.
  lia.
Qed.

Lemma pshuffle_perm rand i : forall arr k,
  (i < length arr)%nat -> Permutation arr (fst (pshuffle rand i arr k)).
Proof.
  induction i as [|i IH]; intros arr k Hi; simpl; [reflexivity|].
  assert (Hj : (rand k mod (S i + 1) < length arr)%nat).
  { pose proof (Nat.mod_upper_bound (rand k) (S i + 1)). lia. }
  etransitivity; [apply (swap_perm arr (S i) _ Hi Hj)|].
  apply IH. rewrite swap_length. lia.
Qed.

(** *** [solveSudoku] in one equation *)

Lemma store_after h b b' h' :
  length b' = length b ->
  same_outside (seq (length h) (length b)) (h ++ b) h' ->
  snapshot h' (seq (length h) (length b)) = b' ->
  h' = h ++ b'.
Proof.
  intros Hlen [Hl Ho] Hs.
  apply (same_store (seq (length h) (length b))).
  - rewrite <- Hlen. apply allocated_fresh.
  - split; [rewrite Hl, !length_app; lia|].
    intros l Hin. rewrite Ho by assumption.
    destruct (Nat.ltb_spec l (length h)) as [Hlt|Hge].
    + now rewrite !nth_error_app1.
    + assert (length h + length b <= l)%nat.
      { destruct (Nat.ltb_spec l (length h + length b)); [|assumption].
        exfalso. apply Hin. apply in_seq. lia. }
      transitivity (@None (list jsval)).
      * apply nth_error_None. rewrite length_app. lia.
      * symmetry. apply nth_error_None. rewrite length_app. lia.
  - rewrite Hs, <- Hlen. symmetry. apply snapshot_fresh.
Qed.

Lemma ascending_digits k v : In v (fst (ascending k)) -> 1 <= v <= 9.
Proof.
  simpl. intros H. repeat (destruct H as [<-|H]; [lia|]). destruct H.
Qed.

Lemma ascending_all k v : 1 <= v <= 9 -> In v (fst (ascending k)).
Proof.
  intros H. simpl.
  assert (v = 1 \/ v = 2 \/ v = 3 \/ v = 4 \/ v = 5 \/ v = 6 \/ v = 7 \/
          v = 8 \/ v = 9) by lia.
  intuition.
Qed.

Lemma shuffled_perm rand k : Permutation DIGITS (fst (shuffled rand k)).
Proof. apply pshuffle_perm. simpl. lia. Qed.

Lemma shuffled_digits rand k v : In v (fst (shuffled rand k)) -> 1 <= v <= 9.
Proof.
  intros H. apply (ascending_digits k).
  eapply Permutation_in; [symmetry; apply shuffled_perm|exact H].
Qed.

Lemma shuffled_all rand k v : 1 <= v <= 9 -> In v (fst (shuffled rand k)).
Proof.
  intros H. eapply Permutation_in; [apply shuffled_perm|].
  now apply (ascending_all k).
Qed.

Lemma search_on_clone cands pcands fuel h b rand k :
  length b = 9%nat ->
  (forall w, w_rand w = rand ->
     cands w = Ok (fst (pcands (w_used w)),
                   World (w_heap w) (w_rand w) (snd (pcands (w_used w))))) ->
  search cands fuel (seq (length h) (length b)) (World (h ++ b) rand k) =
  match psearch pcands fuel b k with
  | None => OutOfFuel
  | Some (res, b', k') => Ok (res, World (h ++ b') rand k')
  end.
Proof.
  intros Hlen Hc.
  pose proof (search_sim (seq (length h) (length b)) rand cands pcands Hc
                fuel (World (h ++ b) rand k) eq_refl) as H.
  cbn [w_heap w_used] in H. rewrite snapshot_fresh in H.
  specialize (H (arena_fresh h b Hlen)).
  destruct (psearch pcands fuel b k) as [[[res b'] k']|];
    unfold simulates in H; [|exact H].
  destruct H as (w' & E & R & U & S & O & A).
  rewrite E. f_equal. f_equal.
  destruct w' as [h' rand' k'']. cbn [w_heap w_rand w_used] in *.
  subst rand' k''. f_equal.
  apply (store_after h b); auto.
  rewrite <- S. unfold snapshot. now rewrite !length_map, !length_seq.
Qed.

Lemma solveSudoku_fuel_spec fuel g w :
  grid9x9 (w_heap w) g = true ->
  solveSudoku_fuel fuel g w =
  match psearch ascending fuel (snapshot (w_heap w) g) (w_used w) with
  | None => OutOfFuel
  | Some (res, b', k') =>
      Ok ((res, seq (length (w_heap w)) 9),
          World (w_heap w ++ b') (w_rand w) k')
  end.
Proof.
  intros Hg. destruct (grid9x9_inv _ _ Hg) as (Ha & Hb & Hlen).
  unfold solveSudoku_fuel. unfold bind at 1.
  rewrite (cloneGrid_spec g w Ha).
  unfold bind at 1. rewrite backtrack_search.
  assert (Hs : length (snapshot (w_heap w) g) = 9%nat)
    by (apply is9x9_inv in Hb; apply Hb).
  rewrite <- Hlen, <- (length_map (fun l : loc => nth l (w_heap w) []) g).
  fold (snapshot (w_heap w) g).
  rewrite (search_on_clone (ret DIGITS) ascending).
  - rewrite !length_map, Hlen.
    destruct (psearch ascending fuel _ _) as [[[res b'] k']|]; reflexivity.
  - exact Hs.
  - intros w1 _. destruct w1; reflexivity.
Qed.

(** *** Facts used by the claims about [solveSudoku] *)

Lemma list_sum_bound {A} (f : A -> nat) (m : nat) (l : list A) :
  (forall x, In x l -> (f x <= m)%nat) ->
  (list_sum (map f l) <= m * length l)%nat.
Proof.
  induction l as [|x t IH]; intros H; simpl; [lia|].
  pose proof (H x (or_introl eq_refl)).
  assert (list_sum (map f t) <= m * length t)%nat
    by (apply IH; intros y Hy; apply H; now right).
  lia.
Qed.

Lemma count_empty_le b : is9x9 b = true -> (count_empty b <= 81)%nat.
Proof.
  intros Hb. destruct (is9x9_inv b Hb) as [Hlen Hrows].
  unfold count_empty.
  pose proof (list_sum_bound (fun row => length (filter is_zero row)) 9 b)
    as H.
  rewrite Hlen in H. apply H. intros row Hin.
  rewrite <- (Hrows row Hin). apply filter_length_le.
Qed.

Lemma no_empty_cell_full b :
  is9x9 b = true -> no_empty_cell b = true -> full b.
Proof.
  intros Hb Hne r c Hrc.
  destruct (board_row b r Hb (proj1 Hrc)) as (row & _ & Hrow & Hlen).
  pose proof (bcell_nth b r c row Hrc Hrow Hlen) as Hc.
  unfold no_empty_cell in Hne. rewrite forallb_forall in Hne.
  specialize (Hne row (nth_error_In _ _ Hrow)).
  rewrite forallb_forall in Hne.
  specialize (Hne _ (nth_error_In _ _ Hc)).
  now apply negb_true_iff in Hne.
Qed.

Lemma ptry_no_draw recur r c vals :
  (forall b k, recur b k = with_draws k (recur b O)) ->
  forall b k, ptry recur b k r c vals = with_draws k (ptry recur b O r c vals).
Proof.
  intros Hrec. induction vals as [|v rest IH]; intros b k; simpl;
    [reflexivity|].
  destruct (pvalid (bset b r c (Num v)) r c (Num v)); [|apply IH].
  rewrite (Hrec _ k).
  destruct (recur (bset b r c (Num v)) O) as [[[[|] b2] k2]|]; simpl;
    [reflexivity| |reflexivity].
  rewrite (IH _ k), (IH _ k2).
  destruct (ptry recur (bset b2 r c (Num 0)) O r c rest) as [[[res b3] k3]|];
    reflexivity.
Qed.

Lemma psearch_ascending_no_draw fuel : forall b k,
  psearch ascending fuel b k = with_draws k (psearch ascending fuel b O).
Proof.
  induction fuel as [|fuel IH]; intros b k; [reflexivity|].
  cbn [psearch].
  destruct (first_empty b) as [[r c]|]; [|reflexivity].
  unfold ascending. cbv beta iota. now apply ptry_no_draw.
Qed.

Lemma grid9x9_fresh h b :
  is9x9 b = true -> grid9x9 (h ++ b) (seq (length h) 9) = true.
Proof.
  intros Hb. destruct (is9x9_inv b Hb) as [Hlen _].
  unfold grid9x9. rewrite <- Hlen, allocated_fresh, snapshot_fresh.
  exact Hb.
Qed.

Lemma snapshot_fresh9 h b :
  is9x9 b = true -> snapshot (h ++ b) (seq (length h) 9) = b.
Proof.
  intros Hb. destruct (is9x9_inv b Hb) as [Hlen _].
  rewrite <- Hlen. apply snapshot_fresh.
Qed.

(** The outcome of [solveSudoku] with enough fuel: a fresh grid at the
    end of the store, holding the final board of the search. *)
Lemma solveSudoku_fuel_outcome fuel g w :
  grid9x9 (w_heap w) g = true ->
  (count_empty (snapshot (w_heap w) g) < fuel)%nat ->
  exists res b',
    psearch ascending fuel (snapshot (w_heap w) g) (w_used w) =
      Some (res, b', w_used w) /\
    solveSudoku_fuel fuel g w =
      Ok ((res, seq (length (w_heap w)) 9),
          World (w_heap w ++ b') (w_rand w) (w_used w)) /\
    is9x9 b' = true.
Proof.
  intros Hg Hn. destruct (grid9x9_inv _ _ Hg) as (Ha & Hb & Hlen).
  rewrite (solveSudoku_fuel_spec fuel g w Hg).
  pose proof (psearch_total ascending ascending_digits fuel _ (w_used w)
                Hb Hn) as Htot.
  rewrite psearch_ascending_no_draw in *.
  destruct (psearch ascending fuel (snapshot (w_heap w) g) O)
    as [[[res b'] k']|] eqn:E; [|now elim Htot].
  exists res, b'. simpl. repeat split.
  destruct res.
  - now apply (psearch_sound ascending ascending_digits) in E.
  - apply (psearch_restores ascending) in E; [now subst|assumption].
Qed.

(** *** [gridHasConflicts] *)

Lemma for_eachM_scan {I A} (Inv : world -> Prop) (xs : list I)
  (body : I -> M (flow A)) (p : I -> bool) (a : A) :
  (forall x w, In x xs -> Inv w ->
     exists w', body x w = Ok ((if p x then Return a else Next), w') /\
                Inv w') ->
  forall w, Inv w ->
    exists w', for_eachM xs body w =
                 Ok ((if existsb p xs then Return a else Next), w') /\
               Inv w'.
Proof.
  induction xs as [|x t IH]; intros Hbody w Hw; simpl.
  - exists w. split; [reflexivity|assumption].
  - destruct (Hbody x w (or_introl eq_refl) Hw) as (w1 & E1 & Hw1).
    unfold bind at 1. rewrite E1. destruct (p x); simpl.
    + exists w1. split; [reflexivity|assumption].
    + apply IH; [|assumption]. intros y w2 Hy. apply Hbody. now right.
Qed.

Lemma assign_on_fresh h b r c v rand k :
  is9x9 b = true -> in_grid r c ->
  assign (seq (length h) 9) r c v (World (h ++ b) rand k) =
  Ok (tt, World (h ++ bset b r c v) rand k).
Proof.
  intros Hb Hrc. destruct (is9x9_inv b Hb) as [Hlen _].
  rewrite <- Hlen.
  destruct (assign_sim (seq (length h) (length b)) r c v
              (World (h ++ b) rand k) (arena_fresh h b Hlen) (proj1 Hrc))
    as ([h' rand' k'] & E & R & U & S & O & A).
  cbn [w_heap w_rand w_used] in *. subst rand' k'. rewrite E.
  rewrite snapshot_fresh in S. f_equal. f_equal. f_equal.
  apply (store_after h b); auto.
  pose proof (is9x9_bset b r c v Hb Hrc) as Hb'.
  apply is9x9_inv in Hb' as [Hlen' _]. congruence.
Qed.

Lemma conflict_at_spec b r c :
  is9x9 b = true -> in_grid r c ->
  conflict_at b r c = false <->
  (is_zero (bcell b r c) = false ->
   forall r' c', in_grid r' c' -> peer r c r' c' ->
     bcell b r' c' <> bcell b r c).
Proof.
  intros Hb Hrc. unfold conflict_at.
  rewrite pvalid_bset_self by assumption.
  destruct (is_zero (bcell b r c)); simpl.
  - split; [discriminate|reflexivity].
  - rewrite negb_false_iff, pvalid_true_iff by assumption. split.
    + intros H _ r' c' Hin Hp. apply strict_eq_false. auto.
    + intros H r' c' Hin Hp. apply strict_eq_false. auto.
Qed.

Lemma has_conflicts_false b :
  is9x9 b = true -> has_conflicts b = false <-> clash_free b.
Proof.
  intros Hb. unfold has_conflicts, clash_free. split.
  - intros H r c r' c' Hrc Hrc' Hp Hnz.
    assert (Hc : conflict_at b r c = false).
    { destruct (conflict_at b r c) eqn:E; [|reflexivity].
      assert (existsb (fun r => existsb (fun c => conflict_at b r c)
                                  (range 0 9)) (range 0 9) = true);
        [|congruence].
      apply existsb_exists. exists r.
      split; [apply In_range; destruct Hrc; lia|].
      apply existsb_exists. exists c.
      split; [apply In_range; destruct Hrc; lia|assumption]. }
    rewrite conflict_at_spec in Hc by assumption. auto.
  - intros H.
    destruct (existsb _ (range 0 9)) eqn:E; [|reflexivity].
    apply existsb_exists in E as (r & Hr & E).
    apply existsb_exists in E as (c & Hc & E).
    apply In_range in Hr, Hc.
    assert (Hrc : in_grid r c) by (unfold in_grid; lia).
    assert (conflict_at b r c = false); [|congruence].
    apply conflict_at_spec; auto.
Qed.

Lemma gridHasConflicts_spec g w :
  grid9x9 (w_heap w) g = true ->
  exists extra,
    gridHasConflicts g w =
    Ok (has_conflicts (snapshot (w_heap w) g),
        World (w_heap w ++ extra) (w_rand w) (w_used w)).
Proof.
  intros Hg. destruct (grid9x9_inv _ _ Hg) as (Ha & Hb & Hlen).
  destruct w as [h rand k]. cbn [w_heap w_rand w_used] in *.
  set (b := snapshot h g) in *.
  set (Inv := fun w : world => exists extra, w = World (h ++ extra) rand k).
  assert (Hbody : forall r c w, in_grid r c -> Inv w ->
            exists w',
              (val <- reading (read_cell g r c) ;;
               if strict_eq val (Num 0) then ret Next
               else
                 copy <- cloneGrid g ;;
                 assign copy r c (Num 0) ;;;
                 ok <- reading (isValidPlacement copy r c val) ;;
                 if negb ok then ret (Return true) else ret Next) w =
              Ok ((if conflict_at b r c then Return true else Next), w') /\
              Inv w').
  { intros r c w Hrc [extra ->].
    pose proof (allocated_app h extra g Ha) as Ha'.
    pose proof (snapshot_app h extra g Ha) as Hs.
    unfold bind at 1. unfold reading at 1. cbn [w_heap].
    rewrite read_cell_snapshot by (auto; destruct Hrc; lia).
    rewrite Hs. fold b. unfold conflict_at. fold (is_zero (bcell b r c)).
    destruct (is_zero (bcell b r c)); cbn [negb andb].
    - eexists. split; [reflexivity|]. now exists extra.
    - unfold bind at 1. rewrite cloneGrid_spec by assumption.
      cbn [w_heap w_rand w_used]. rewrite Hs, Hlen. fold b.
      unfold bind at 1. rewrite assign_on_fresh by assumption.
      unfold bind at 1. unfold reading at 1. cbn [w_heap].
      rewrite isValidPlacement_pvalid.
      + rewrite snapshot_fresh9 by (now apply is9x9_bset).
        destruct (pvalid (bset b r c (Num 0)) r c (bcell b r c));
          cbn [negb]; (eexists; split; [reflexivity|]);
          exists (extra ++ bset b r c (Num 0)); now rewrite app_assoc.
      + pose proof (is9x9_bset b r c (Num 0) Hb Hrc) as Hb'.
        apply is9x9_inv in Hb' as [Hlen' _]. rewrite <- Hlen'.
        apply allocated_fresh.
      + apply length_seq.
      + apply Hrc. }
  assert (HInv : Inv (World h rand k)) by (exists []; now rewrite app_nil_r).
  destruct (for_eachM_scan Inv (range 0 9)
              (fun r => for_eachM (range 0 9) (fun c =>
                 val <- reading (read_cell g r c) ;;
                 if strict_eq val (Num 0) then ret Next
                 else
                   copy <- cloneGrid g ;;
                   assign copy r c (Num 0) ;;;
                   ok <- reading (isValidPlacement copy r c val) ;;
                   if negb ok then ret (Return true) else ret Next))
              (fun r => existsb (fun c => conflict_at b r c) (range 0 9))
              true) with (w := World h rand k)
    as (w' & E & [extra ->]); [|assumption|].
  - intros r w Hr Hw. apply In_range in Hr.
    apply (for_eachM_scan Inv); [|assumption].
    intros c w1 Hc Hw1. apply In_range in Hc.
    apply Hbody; [unfold in_grid; lia|assumption].
  - exists extra. unfold gridHasConflicts. unfold bind at 1. rewrite E.
    unfold has_conflicts. fold b.
    destruct (existsb _ (range 0 9)); reflexivity.
Qed.

Lemma isValidPlacement_on_board b r c v :
  is9x9 b = true -> 0 <= r <= 8 ->
  isValidPlacement (seq 0 9) r c v b = Ok (pvalid b r c v).
Proof.
  intros Hb Hr.
  pose proof (snapshot_fresh9 [] b Hb) as Hs.
  pose proof (allocated_fresh [] b) as Ha.
  destruct (is9x9_inv b Hb) as [Hlen _]. rewrite Hlen in Ha.
  cbn [app length] in Hs, Ha.
  rewrite isValidPlacement_pvalid; auto. now rewrite Hs.
Qed.

(** *** Successful searches on clash-free grids *)

Lemma psearch_true_clash_free pcands fuel b k b' k' :
  (forall k v, In v (fst (pcands k)) -> 1 <= v <= 9) ->
  is9x9 b = true -> clash_free b ->
  psearch pcands fuel b k = Some (true, b', k') ->
  clash_free b'.
Proof.
  intros Hd Hb Hcf H.
  apply (psearch_sound pcands Hd) in H as (_ & _ & Hext & _ & Hcl);
    [|assumption].
  assert (Hin : clashes_within b b').
  { apply Hcl; [apply extends_refl|].
    intros r c r' c' Hrc Hrc' Hp Hnz Heq. exfalso.
    now apply (Hcf r c r' c'). }
  intros r c r' c' Hrc Hrc' Hp Hnz Heq.
  destruct (Hin r c r' c' Hrc Hrc' Hp Hnz Heq) as [Z1 Z2].
  rewrite (Hext r c Hrc Z1), (Hext r' c' Hrc' Z2) in Heq.
  now apply (Hcf r c r' c').
Qed.

Lemma clash_free_placement_ok b r c :
  is9x9 b = true -> clash_free b -> full b -> in_grid r c ->
  placement_ok b r c.
Proof.
  intros Hb Hcf Hfull Hrc. unfold placement_ok.
  rewrite isValidPlacement_on_board by (auto; apply Hrc). f_equal.
  apply pvalid_true_iff; [assumption|].
  intros r' c' Hrc' Hp. apply strict_eq_false.
  apply Hcf; auto.
Qed.

Lemma psearch_true_valid_completion pcands fuel b k b' k' :
  (forall k v, In v (fst (pcands k)) -> 1 <= v <= 9) ->
  is9x9 b = true -> clash_free b ->
  psearch pcands fuel b k = Some (true, b', k') ->
  valid_completion b b'.
Proof.
  intros Hd Hb Hcf H.
  pose proof (psearch_true_clash_free pcands fuel b k b' k' Hd Hb Hcf H)
    as Hcf'.
  apply (psearch_sound pcands Hd) in H as (Hb' & Hfull & Hext & Hdig & _);
    [|assumption].
  split; [split; [assumption|]|].
  - intros r c Hrc. split.
    + intros Hnz. apply Hext; [assumption|].
      destruct (is_zero (bcell b r c)) eqn:E; [|reflexivity].
      apply is_zero_true in E. contradiction.
    + now apply Hdig.
  - intros r c Hrc. now apply clash_free_placement_ok.
Qed.

Lemma no_clash_free_completion b b' r c r' c' :
  completes b b' -> in_grid r c -> in_grid r' c' -> peer r c r' c' ->
  bcell b' r' c' = bcell b' r c ->
  ~ placement_ok b' r c.
Proof.
  intros [Hb' _] Hrc Hrc' Hp Heq H. unfold placement_ok in H.
  rewrite isValidPlacement_on_board in H by (auto; apply Hrc).
  injection H as H. rewrite pvalid_true_iff in H by assumption.
  specialize (H r' c' Hrc' Hp). apply strict_eq_false in H. auto.
Qed.

Lemma fives_board_no_completion b' : ~ valid_completion fives_board b'.
Proof.
  intros [Hc Hv].
  assert (H00 : in_grid 0 0) by (unfold in_grid; lia).
  assert (H01 : in_grid 0 1) by (unfold in_grid; lia).
  apply (no_clash_free_completion fives_board b' 0 0 0 1 Hc H00 H01).
  - unfold peer. lia.
  - destruct Hc as [_ Hc].
    rewrite (proj1 (Hc 0 0 H00)), (proj1 (Hc 0 1 H01)); [reflexivity| |];
      discriminate.
  - now apply Hv.
Qed.

Lemma stuck_board_no_completion b' : ~ valid_completion stuck_board b'.
Proof.
  intros [Hc Hv].
  assert (H00 : in_grid 0 0) by (unfold in_grid; lia).
  destruct (proj2 Hc 0 0 H00) as [_ Hd].
  destruct (Hd eq_refl) as (v & Hv9 & Hcell).
  assert (Hcase : exists r c, in_grid r c /\ peer 0 0 r c /\
                              bcell stuck_board r c = Num v).
  { assert (v = 1 \/ v = 2 \/ v = 3 \/ v = 4 \/ v = 5 \/ v = 6 \/ v = 7 \/
            v = 8 \/ v = 9) as Hcases by lia.
    unfold in_grid, peer.
    destruct Hcases as [->|[->|[->|[->|[->|[->|[->|[->| ->]]]]]]]].
    - exists 1, 0. repeat split; lia.
    - exists 0, 1. repeat split; lia.
    - exists 0, 2. repeat split; lia.
    - exists 0, 3. repeat split; lia.
    - exists 0, 4. repeat split; lia.
    - exists 0, 5. repeat split; lia.
    - exists 0, 6. repeat split; lia.
    - exists 0, 7. repeat split; lia.
    - exists 0, 8. repeat split; lia. }
  destruct Hcase as (r & c & Hrc & Hp & Hval).
  apply (no_clash_free_completion stuck_board b' 0 0 r c Hc H00 Hrc Hp).
  - rewrite Hcell, <- Hval. apply (proj2 Hc r c Hrc).
    rewrite Hval. intros E. injection E as E. lia.
  - now apply Hv.
Qed.

(** *** [generateSudoku] *)

Lemma solutionb_sound G : solutionb G = true -> solution G.
Proof.
  unfold solutionb. rewrite !andb_true_iff, !forallb_forall.
  intros [[H9 Hd] Hp]. split; [assumption|]. split.
  - intros r c Hrc. apply In_cells in Hrc. specialize (Hd _ Hrc).
    cbn [fst snd] in Hd. destruct (bcell G r c) as [z|]; [|discriminate].
    exists z. simpl in Hd. apply andb_true_iff in Hd as [H1 H2].
    apply Z.leb_le in H1, H2. split; [lia|reflexivity].
  - intros r c r' c' Hrc Hrc' Hpeer Heq.
    apply In_cells in Hrc, Hrc'. specialize (Hp _ Hrc).
    rewrite forallb_forall in Hp. specialize (Hp _ Hrc').
    cbn [fst snd] in Hp. apply peerb_spec in Hpeer.
    rewrite Hpeer in Hp. simpl in Hp. apply negb_true_iff in Hp.
    apply strict_eq_false in Hp. contradiction.
Qed.

Lemma solved_board_solution : solution solved_board.
Proof. apply solutionb_sound. vm_compute. reflexivity. Qed.

Lemma empty_board_cell r c : in_grid r c -> bcell empty_board r c = Num 0.
Proof.
  intros Hrc. apply In_cells in Hrc.
  assert (H : forallb (fun p => is_zero (bcell empty_board (fst p) (snd p)))
                cells = true) by (vm_compute; reflexivity).
  rewrite forallb_forall in H. specialize (H _ Hrc).
  now apply is_zero_true in H.
Qed.

Lemma fill_board_succeeds rand k :
  exists S k1,
    psearch (shuffled rand) 82 empty_board k = Some (true, S, k1) /\
    is9x9 S = true /\ full S /\ clash_free S.
Proof.
  destruct (psearch_complete (shuffled rand) (shuffled_digits rand)
              (shuffled_all rand) solved_board 82 empty_board k)
    as (S & k1 & E).
  - exact solved_board_solution.
  - reflexivity.
  - intros r c Hrc. left. now apply empty_board_cell.
  - vm_compute. lia.
  - exists S, k1. split; [exact E|].
    assert (Hcf : clash_free empty_board).
    { intros r c r' c' Hrc _ _ Hnz. rewrite empty_board_cell in Hnz by auto.
      discriminate. }
    pose proof (psearch_true_clash_free (shuffled rand) 82 empty_board k S k1
                  (shuffled_digits rand) eq_refl Hcf E) as Hcf'.
    apply (psearch_sound (shuffled rand) (shuffled_digits rand)) in E
      as (Hb & Hfull & _); [|reflexivity].
    repeat split; assumption.
Qed.

Lemma skipn_cons {A} (l : list A) s x :
  nth_error l s = Some x -> skipn s l = x :: skipn (S s) l.
Proof.
  revert s; induction l as [|y t IH]; intros [|s] H; simpl in *;
    try discriminate.
  - now injection H as ->.
  - now apply IH.
Qed.

Lemma cell_of_in_grid idx :
  0 <= idx < 81 -> in_grid (idx / 9) (Z.rem idx 9).
Proof.
  intros H. rewrite Z.rem_mod_nonneg by lia. unfold in_grid.
  Z.div_mod_to_equations. lia.
Qed.

Lemma cell_of_inj i j :
  0 <= i < 81 -> 0 <= j < 81 ->
  i / 9 = j / 9 -> Z.rem i 9 = Z.rem j 9 -> i = j.
Proof.
  intros Hi Hj. rewrite !Z.rem_mod_nonneg by lia.
  Z.div_mod_to_equations. lia.
Qed.

Lemma is9x9_clear_cells idxs : forall b,
  is9x9 b = true -> (forall idx, In idx idxs -> 0 <= idx < 81) ->
  is9x9 (clear_cells b idxs) = true.
Proof.
  induction idxs as [|idx rest IH]; intros b Hb Hr; simpl; [assumption|].
  apply IH.
  - apply is9x9_bset; [assumption|]. apply cell_of_in_grid. apply Hr.
    now left.
  - intros i Hi. apply Hr. now right.
Qed.

(** The removal loop of [generateSudoku] clears the listed cells. *)
Lemma removal_loop h rand k indices puzzle :
  puzzle = seq (length h) 9 ->
  (forall idx, In idx indices -> 0 <= idx < 81) ->
  forall n s P,
    is9x9 P = true -> (s + n <= length indices)%nat ->
    for_eachM (map (fun k => 0 + Z.of_nat k) (seq s n))
      (fun k =>
         match index indices k with
         | None => throw
         | Some idx =>
             assign puzzle (idx / 9) (Z.rem idx 9) (Num 0) ;;;
             ret (@Next unit)
         end)
      (World (h ++ P) rand k) =
    Ok (Next,
        World (h ++ clear_cells P (firstn n (skipn s indices))) rand k).
Proof.
  intros Hpz Hr. induction n as [|n IH]; intros s P HP Hn; [reflexivity|].
  cbn [seq map for_eachM]. unfold bind at 1.
  destruct (nth_error indices s) as [idx|] eqn:E;
    [|apply nth_error_None in E; lia].
  assert (Hidx : index indices (0 + Z.of_nat s) = Some idx).
  { unfold index. cbn [Z.add].
    destruct (Z.ltb_spec (Z.of_nat s) 0); [lia|]. now rewrite Nat2Z.id. }
  rewrite Hidx. cbv zeta. unfold bind at 1.
  pose proof (cell_of_in_grid idx (Hr idx (nth_error_In _ _ E))) as Hrc.
  pose proof (assign_on_fresh h P (idx / 9) (Z.rem idx 9) (Num 0) rand k
                HP Hrc) as Ha.
  rewrite <- Hpz in Ha. rewrite Ha. unfold ret at 1.
  rewrite IH; [|now apply is9x9_bset|lia].
  rewrite (skipn_cons indices s idx E). reflexivity.
Qed.

Lemma bcell_clear_cells idxs : forall b r c,
  is9x9 b = true -> (forall idx, In idx idxs -> 0 <= idx < 81) ->
  in_grid r c ->
  bcell (clear_cells b idxs) r c = Num 0 \/
  bcell (clear_cells b idxs) r c = bcell b r c.
Proof.
  induction idxs as [|idx rest IH]; intros b r c Hb Hr Hrc; simpl;
    [now right|].
  pose proof (cell_of_in_grid idx (Hr idx (or_introl eq_refl))) as Hi.
  destruct (IH (bset b (idx / 9) (Z.rem idx 9) (Num 0)) r c) as [H|H];
    auto.
  - now apply is9x9_bset.
  - intros i Hin. apply Hr. now right.
  - rewrite H.
    destruct (Z.eq_dec r (idx / 9)) as [->|Hne];
      [destruct (Z.eq_dec c (Z.rem idx 9)) as [->|Hne]|].
    + left. now apply bcell_bset_same.
    + right. apply bcell_bset_other; auto.
    + right. apply bcell_bset_other; auto.
Qed.

Lemma count_filled_clear_cells idxs : forall b,
  is9x9 b = true -> NoDup idxs ->
  (forall idx, In idx idxs -> 0 <= idx < 81) ->
  (forall idx, In idx idxs ->
     is_zero (bcell b (idx / 9) (Z.rem idx 9)) = false) ->
  (count_filled (clear_cells b idxs) + length idxs = count_filled b)%nat.
Proof.
  induction idxs as [|idx rest IH]; intros b Hb Hnd Hr Hnz; simpl; [lia|].
  pose proof (cell_of_in_grid idx (Hr idx (or_introl eq_refl))) as Hi.
  inversion Hnd as [|? ? Hnotin Hnd']; subst.
  pose proof (count_filled_clear b (idx / 9) (Z.rem idx 9) Hb Hi
                (Hnz idx (or_introl eq_refl))) as H1.
  assert (H2 : (count_filled
                  (clear_cells (bset b (idx / 9) (Z.rem idx 9) (Num 0)) rest)
                + length rest =
                count_filled (bset b (idx / 9) (Z.rem idx 9) (Num 0)))%nat);
    [apply IH; auto|lia].
  - now apply is9x9_bset.
  - intros i Hin. apply Hr. now right.
  - intros i Hin. rewrite bcell_bset_other; auto.
    + apply Hnz. now right.
    + destruct (Z.eq_dec (i / 9) (idx / 9)) as [E1|]; [|now left].
      destruct (Z.eq_dec (Z.rem i 9) (Z.rem idx 9)) as [E2|]; [|now right].
      exfalso. apply Hnotin.
      rewrite <- (cell_of_inj i idx); auto; apply Hr; [now right|now left].
Qed.

Lemma list_sum_const {A} (f : A -> nat) (m : nat) (l : list A) :
  (forall x, In x l -> f x = m) -> list_sum (map f l) = (m * length l)%nat.
Proof.
  induction l as [|x t IH]; intros H; simpl; [lia|].
  rewrite (H x (or_introl eq_refl)), IH; [lia|].
  intros y Hy. apply H. now right.
Qed.

Lemma filter_all {A} (p : A -> bool) (l : list A) :
  forallb p l = true -> filter p l = l.
Proof.
  induction l as [|x t IH]; simpl; [reflexivity|].
  intros H. apply andb_true_iff in H as [H1 H2]. rewrite H1.
  f_equal. auto.
Qed.

Lemma full_no_empty_cell b :
  is9x9 b = true -> full b -> no_empty_cell b = true.
Proof.
  intros Hb Hfull. destruct (is9x9_inv b Hb) as [Hlen Hrows].
  unfold no_empty_cell. apply forallb_forall. intros row Hrow.
  apply forallb_forall. intros v Hv. apply negb_true_iff.
  apply In_nth_error in Hrow as [n Hn]. apply In_nth_error in Hv as [m Hm].
  assert (Hn' : (n < 9)%nat) by (rewrite <- Hlen; apply nth_error_Some;
                                  congruence).
  assert (Hm' : (m < 9)%nat).
  { rewrite <- (Hrows row (nth_error_In _ _ Hn)). apply nth_error_Some.
    congruence. }
  assert (Hrc : in_grid (Z.of_nat n) (Z.of_nat m)) by (unfold in_grid; lia).
  specialize (Hfull _ _ Hrc).
  assert (E : bcell b (Z.of_nat n) (Z.of_nat m) = v).
  { unfold bcell, index.
    destruct (Z.ltb_spec (Z.of_nat n) 0); [lia|].
    destruct (Z.ltb_spec (Z.of_nat m) 0); [lia|].
    now rewrite !Nat2Z.id, Hn, Hm. }
  now rewrite E in Hfull.
Qed.

Lemma count_filled_full b :
  is9x9 b = true -> no_empty_cell b = true -> count_filled b = 81%nat.
Proof.
  intros Hb Hne. destruct (is9x9_inv b Hb) as [Hlen Hrows].
  unfold count_filled.
  rewrite (list_sum_const _ 9); [lia|].
  intros row Hrow. unfold no_empty_cell in Hne.
  rewrite forallb_forall in Hne.
  rewrite filter_all by (now apply Hne). now apply Hrows.
Qed.

Lemma shuffledDigits_spec w :
  shuffledDigits w =
  Ok (fst (shuffled (w_rand w) (w_used w)),
      World (w_heap w) (w_rand w) (snd (shuffled (w_rand w) (w_used w)))).
Proof. unfold shuffledDigits, shuffled. apply fisher_yates_spec. Qed.

Lemma shuffled_indices rand k :
  let indices := fst (pshuffle rand 80 (range 0 81) k) in
  length indices = 81%nat /\ NoDup indices /\
  forall idx, In idx indices -> 0 <= idx < 81.
Proof.
  intros indices.
  assert (Hp : Permutation (range 0 81) indices)
    by (apply pshuffle_perm; vm_compute; lia).
  split; [|split].
  - rewrite <- (Permutation_length Hp). reflexivity.
  - apply (Permutation_NoDup Hp). unfold range.
    apply Finite.Injective_map_NoDup; [|apply seq_NoDup].
    intros x y H. lia.
  - intros idx Hin. apply In_range.
    apply (Permutation_in idx (Permutation_sym Hp) Hin).
Qed.

(** [generateSudoku] in one equation: the solution is the board found
    by [fill] on the empty grid, the puzzle is that board with the
    first [81 - keep] cells of the shuffled index list cleared, and the
    two grids are new arrays at the end of the store. *)
Lemma generateSudoku_spec givens w :
  exists S k1,
    psearch (shuffled (w_rand w)) 82 empty_board (w_used w)
      = Some (true, S, k1) /\
    is9x9 S = true /\ full S /\ clash_free S /\
    let g := match givens with Some n => n | None => 32 end in
    let indices := fst (pshuffle (w_rand w) 80 (range 0 81) k1) in
    let k2 := snd (pshuffle (w_rand w) 80 (range 0 81) k1) in
    let n := Z.to_nat (81 - clamp_givens g) in
    generateSudoku givens w =
    Ok ((seq (length (w_heap w) + 9) 9, seq (length (w_heap w)) 9),
        World ((w_heap w ++ S) ++ clear_cells S (firstn n indices))
          (w_rand w) k2).
Proof.
  destruct w as [h rand k]. cbn [w_heap w_rand w_used].
  destruct (fill_board_succeeds rand k) as (S & k1 & E & HS & Hfull & Hcf).
  exists S, k1. repeat (split; [assumption|]).
  set (g := match givens with Some n => n | None => 32 end).
  set (indices := fst (pshuffle rand 80 (range 0 81) k1)).
  set (k2 := snd (pshuffle rand 80 (range 0 81) k1)).
  set (n := Z.to_nat (81 - clamp_givens g)).
  destruct (is9x9_inv S HS) as [HlenS _].
  unfold generateSudoku, generateSudoku_fuel. fold g.
  unfold bind at 1. rewrite createEmptyGrid_spec.
  cbn [w_heap w_rand w_used]. unfold bind at 1.
  rewrite fill_search.
  pose proof (search_on_clone shuffledDigits (shuffled rand) 82 h empty_board
                rand k eq_refl) as Hs.
  change (length empty_board) with 9%nat in Hs. unfold empty_board in Hs at 1.
  rewrite Hs, E; clear Hs.
  2:{ intros w1 <-. apply shuffledDigits_spec. }
  unfold bind at 1. rewrite cloneGrid_spec; cbn [w_heap w_rand w_used].
  2:{ rewrite <- HlenS. apply allocated_fresh. }
  rewrite snapshot_fresh9 by assumption. rewrite length_seq.
  unfold bind at 1. rewrite fisher_yates_spec. cbn [w_heap w_rand w_used].
  fold indices k2. unfold bind at 1.
  destruct (shuffled_indices rand k1) as (Hlen & _ & Hr). fold indices in Hlen, Hr.
  unfold range at 1. rewrite Z.sub_0_r.
  change (Z.max 17 (Z.min 81 g)) with (clamp_givens g). fold n.
  rewrite (removal_loop (h ++ S) rand k2 indices
             (seq (length (h ++ S)) 9) eq_refl Hr n 0 S HS).
  2:{ rewrite Hlen. unfold n, clamp_givens. lia. }
  unfold ret. rewrite length_app, HlenS. reflexivity.
Qed.

Lemma In_firstn {A} (n : nat) (l : list A) x : In x (firstn n l) -> In x l.
Proof.
  intros H. rewrite <- (firstn_skipn n l). apply in_or_app. now left.
Qed.

Lemma NoDup_firstn' {A} (n : nat) (l : list A) : NoDup l -> NoDup (firstn n l).
Proof.
  intros H. rewrite <- (firstn_skipn n l) in H.
  now apply NoDup_app_remove_r in H.
Qed.

Lemma count_cells b :
  (count_empty b + count_filled b = list_sum (map (@length jsval) b))%nat.
Proof.
  unfold count_empty, count_filled.
  induction b as [|row t IH]; simpl; [reflexivity|].
  assert (length (filter is_zero row) +
          length (filter (fun v => negb (is_zero v)) row) = length row)%nat.
  { clear. induction row as [|v t IH]; simpl; [reflexivity|].
    destruct (is_zero v); simpl; lia. }
  lia.
Qed.

Lemma count_cells_9x9 b :
  is9x9 b = true -> (count_empty b + count_filled b = 81)%nat.
Proof.
  intros Hb. destruct (is9x9_inv b Hb) as [Hlen Hrows].
  rewrite count_cells, (list_sum_const _ 9); [lia|assumption].
Qed.

Lemma clash_free_clear_cells S idxs :
  is9x9 S = true -> (forall idx, In idx idxs -> 0 <= idx < 81) ->
  clash_free S -> clash_free (clear_cells S idxs).
Proof.
  intros HS Hr Hcf r c r' c' Hrc Hrc' Hp Hnz Heq.
  destruct (bcell_clear_cells idxs S r c HS Hr Hrc) as [E|E].
  - rewrite E in Hnz. discriminate.
  - destruct (bcell_clear_cells idxs S r' c' HS Hr Hrc') as [E'|E'].
    + rewrite E' in Heq. rewrite <- Heq in Hnz. discriminate.
    + rewrite E in Hnz, Heq. rewrite E' in Heq.
      now apply (Hcf r c r' c').
Qed.

(** The two grids returned by [generateSudoku], as boards. *)
Lemma generateSudoku_boards givens w :
  exists puzzle solution w' S idxs,
    generateSudoku givens w = Ok ((puzzle, solution), w') /\
    grid9x9 (w_heap w') puzzle = true /\
    grid9x9 (w_heap w') solution = true /\
    snapshot (w_heap w') solution = S /\
    snapshot (w_heap w') puzzle = clear_cells S idxs /\
    is9x9 S = true /\ full S /\ clash_free S /\
    NoDup idxs /\ (forall idx, In idx idxs -> 0 <= idx < 81) /\
    length idxs =
      Z.to_nat (81 - clamp_givens
                       (match givens with Some n => n | None => 32 end)).
Proof.
  destruct (generateSudoku_spec givens w)
    as (S & k1 & _ & HS & Hfull & Hcf & E).
  cbv zeta in E.
  destruct (shuffled_indices (w_rand w) k1) as (Hlen & Hnd & Hr).
  cbv zeta in Hlen, Hnd, Hr.
  set (indices := fst (pshuffle (w_rand w) 80 (range 0 81) k1)) in *.
  set (n := Z.to_nat (81 - clamp_givens
                             (match givens with Some n => n | None => 32 end)))
    in *.
  assert (Hr' : forall idx, In idx (firstn n indices) -> 0 <= idx < 81)
    by (intros idx Hin; apply Hr; eapply In_firstn; eauto).
  pose proof (is9x9_clear_cells (firstn n indices) S HS Hr') as HP.
  destruct (is9x9_inv S HS) as [HlenS _].
  assert (Hsol : snapshot ((w_heap w ++ S) ++ clear_cells S (firstn n indices))
                   (seq (length (w_heap w)) 9) = S).
  { rewrite snapshot_app; [now apply snapshot_fresh9|].
    rewrite <- HlenS. apply allocated_fresh. }
  assert (Hpuz : snapshot ((w_heap w ++ S) ++ clear_cells S (firstn n indices))
                   (seq (length (w_heap w) + 9) 9) =
                 clear_cells S (firstn n indices)).
  { rewrite <- HlenS at 1. rewrite <- length_app.
    now apply snapshot_fresh9. }
  do 3 eexists. exists S, (firstn n indices).
  split; [exact E|]. cbn [w_heap].
  split; [|split; [|split; [exact Hsol|split; [exact Hpuz|]]]].
  - rewrite <- HlenS at 1. rewrite <- length_app.
    now apply grid9x9_fresh.
  - unfold grid9x9. rewrite Hsol, HS, andb_true_r.
    apply allocated_app. rewrite <- HlenS. apply allocated_fresh.
  - repeat (split; [assumption|]). split; [now apply NoDup_firstn'|].
    split; [assumption|].
    apply firstn_length_le. rewrite Hlen. unfold n, clamp_givens. lia.
Qed.

(** * The claims *)

(** ** The placement check *)

(** C1. On a 9x9 grid with entries in 0..9, for a cell in the grid and a
    value in 1..9, [isValidPlacement] returns a boolean, and it is
    [true] exactly when no other cell of the same row, column or 3x3
    box holds the value; the cell itself is not compared. *)
Theorem isValidPlacement_iff_no_peer_holds h g row col v :
  wf_grid h g = true -> 0 <= row <= 8 -> 0 <= col <= 8 -> 1 <= v <= 9 ->
  exists ok,
    isValidPlacement g row col (Num v) h = Ok ok /\
    (ok = true <->
     forall r c, 0 <= r <= 8 -> 0 <= c <= 8 ->
       (r <> row \/ c <> col) ->
       (r = row \/ c = col \/ (r / 3 = row / 3 /\ c / 3 = col / 3)) ->
       read_cell g r c h <> Ok (Num v)).
Proof.
  intros Hwf Hrow Hcol Hv.
  destruct (wf_grid_inv h g Hwf) as [Hg _].
  destruct (grid9x9_inv h g Hg) as (Ha & Hb & Hlen).
  exists (pvalid (snapshot h g) row col (Num v)).
  split; [now apply isValidPlacement_pvalid|].
  rewrite pvalid_true_iff by (split; assumption). split.
  - intros H r c Hr Hc Hne Hp.
    rewrite read_cell_snapshot by (auto; lia).
    specialize (H r c (conj Hr Hc) (conj Hne Hp)).
    apply strict_eq_false in H. congruence.
  - intros H r c [Hr Hc] [Hne Hp]. apply strict_eq_false.
    specialize (H r c Hr Hc Hne Hp).
    rewrite read_cell_snapshot in H by (auto; lia). congruence.
Qed.

Lemma isValidPlacement_iff_no_peer_holds_witness :
  exists ok,
    isValidPlacement first_rows 0 3 (Num 4) open_board = Ok ok /\
    (ok = true <->
     forall r c, 0 <= r <= 8 -> 0 <= c <= 8 ->
       (r <> 0 \/ c <> 3) ->
       (r = 0 \/ c = 3 \/ (r / 3 = 0 / 3 /\ c / 3 = 3 / 3)) ->
       read_cell first_rows r c open_board <> Ok (Num 4)).
Proof.
  apply (isValidPlacement_iff_no_peer_holds open_board first_rows 0 3 4);
    [reflexivity | lia | lia | lia].
Defined.

(** C9 (as stated).  An out-of-range value, and an out-of-range column,
    are answered with a boolean: nothing fails. *)
Lemma isValidPlacement_out_of_range_answers :
  wf_grid empty_board first_rows = true /\
  ~ (1 <= 10 <= 9) /\ ~ (0 <= 9 <= 8) /\
  isValidPlacement first_rows 0 0 (Num 10) empty_board = Ok true /\
  isValidPlacement first_rows 0 9 (Num 1) empty_board = Ok true.
Proof.
  repeat split; try reflexivity; lia.
Qed.

(** C9 (amended).  [isValidPlacement] checks no range.  With the row in
    0..8 it returns a boolean for every value and for every column from
    which the code computes safe integers only: numbers are doubles, and
    every value the box loop gives to [c], from [bc] to [bc + 3], is
    then exact (past [2^53] the step [c++] is not, and the model no
    longer follows the code).  With the row outside 0..8 it raises a
    [TypeError] on reading a cell of the missing row, unless the column
    is 0 and [grid[0][0]] holds the value, where it returns [false]
    before that read; that case computes nothing from the column. *)
Theorem isValidPlacement_range_behaviour h g row col val row' col' val' :
  grid9x9 h g = true ->
  0 <= row <= 8 -> exact_column col -> ~ 0 <= row' <= 8 ->
  (exists ok, isValidPlacement g row col val h = Ok ok) /\
  (forall c, col / 3 * 3 <= c <= col / 3 * 3 + 3 ->
     - MAX_SAFE_INTEGER <= c <= MAX_SAFE_INTEGER) /\
  isValidPlacement g row' col' val' h =
  match read_cell g 0 0 h with
  | Ok x => if (col' =? 0) && strict_eq x val' then Ok false else TypeError
  | _ => TypeError
  end.
Proof.
  intros Hg Hrow [Hlo Hhi] Hrow'.
  destruct (grid9x9_inv h g Hg) as (Ha & Hb & Hlen).
  split; [|split].
  - eexists. now apply isValidPlacement_pvalid.
  - intros c Hc. pose proof (Z.mul_div_le col 3 ltac:(lia)) as Hle.
    pose proof (Z.mod_pos_bound col 3 ltac:(lia)) as Hmod.
    pose proof (Z.div_mod col 3 ltac:(lia)) as Hdm. lia.
  - unfold isValidPlacement. rewrite range_0_9.
    cbn [for_each].
    rewrite !(read_cell_missing_row h g row') by lia.
    rewrite (read_cell_snapshot h g 0 0) by (auto; lia).
    destruct (Z.eqb_spec 0 col') as [<-|Hc].
    + cbn [negb and_then rbind].
      replace (0 =? row') with false by (symmetry; apply Z.eqb_neq; lia).
      cbn [negb and_then rbind].
      rewrite (read_cell_snapshot h g 0 0) by (auto; lia).
      cbn [rbind Z.eqb andb].
      destruct (strict_eq (bcell (snapshot h g) 0 0) val'); reflexivity.
    + replace (col' =? 0) with false by (symmetry; apply Z.eqb_neq; lia).
      reflexivity.
Qed.

Lemma isValidPlacement_range_behaviour_witness :
  (exists ok, isValidPlacement first_rows 0 12 (Num 0) open_board = Ok ok) /\
  (forall c, 12 / 3 * 3 <= c <= 12 / 3 * 3 + 3 ->
     - MAX_SAFE_INTEGER <= c <= MAX_SAFE_INTEGER) /\
  isValidPlacement first_rows 9 4 (Num 5) open_board =
  match read_cell first_rows 0 0 open_board with
  | Ok x => if (4 =? 0) && strict_eq x (Num 5) then Ok false else TypeError
  | _ => TypeError
  end.
Proof.
  apply (isValidPlacement_range_behaviour open_board first_rows
           0 12 (Num 0) 9 4 (Num 5));
    [reflexivity | lia | unfold exact_column, MAX_SAFE_INTEGER; lia | lia].
Defined.

(** ** [solveSudoku] *)

(** C4. [solveSudoku] works on a copy: every array that was in the store
    before the call is unchanged after it, so the caller's grid reads
    the same cell for cell, and the rows of the returned grid are new
    arrays. *)
Theorem solveSudoku_leaves_input_untouched w g :
  grid9x9 (w_heap w) g = true ->
  exists solved g' w',
    solveSudoku g w = Ok ((solved, g'), w') /\
    (exists fresh, w_heap w' = w_heap w ++ fresh) /\
    snapshot (w_heap w') g = snapshot (w_heap w) g /\
    (forall l, In l g' -> (length (w_heap w) <= l)%nat /\ ~ In l g).
Proof.
  intros Hg. destruct (grid9x9_inv _ _ Hg) as (Ha & Hb & Hlen).
  destruct (solveSudoku_fuel_outcome 82 g w Hg) as (res & b' & _ & E & _).
  { pose proof (count_empty_le _ Hb). lia. }
  do 3 eexists. split; [exact E|].
  cbn [w_heap]. split; [now exists b'|]. split.
  - now apply snapshot_app.
  - intros l Hl. apply in_seq in Hl. split; [lia|]. intros Hin.
    unfold allocated in Ha. rewrite forallb_forall in Ha.
    specialize (Ha l Hin). apply Nat.ltb_lt in Ha. lia.
Qed.

Lemma solveSudoku_leaves_input_untouched_witness :
  exists solved g' w',
    solveSudoku first_rows (start open_board) = Ok ((solved, g'), w') /\
    (exists fresh, w_heap w' = w_heap (start open_board) ++ fresh) /\
    snapshot (w_heap w') first_rows =
      snapshot (w_heap (start open_board)) first_rows /\
    (forall l, In l g' ->
       (length (w_heap (start open_board)) <= l)%nat /\ ~ In l first_rows).
Proof.
  apply (solveSudoku_leaves_input_untouched (start open_board) first_rows).
  reflexivity.
Defined.

(** C6. A 9x9 grid without an empty cell is returned as it is, with
    [solved = true]. *)
Theorem solveSudoku_complete_grid w g :
  grid9x9 (w_heap w) g = true ->
  no_empty_cell (snapshot (w_heap w) g) = true ->
  exists g' w',
    solveSudoku g w = Ok ((true, g'), w') /\
    snapshot (w_heap w') g' = snapshot (w_heap w) g.
Proof.
  intros Hg Hne. destruct (grid9x9_inv _ _ Hg) as (Ha & Hb & Hlen).
  unfold solveSudoku. rewrite (solveSudoku_fuel_spec 82 g w Hg).
  cbn [psearch].
  rewrite (first_empty_full _ (no_empty_cell_full _ Hb Hne)).
  eexists _, _. split; [reflexivity|]. cbn [w_heap].
  now apply snapshot_fresh9.
Qed.

Lemma solveSudoku_complete_grid_witness :
  exists g' w',
    solveSudoku first_rows (start solved_board) = Ok ((true, g'), w') /\
    snapshot (w_heap w') g' = snapshot (w_heap (start solved_board)) first_rows.
Proof.
  apply (solveSudoku_complete_grid (start solved_board) first_rows);
    reflexivity.
Defined.

(** C10. When [solveSudoku] answers [solved = false], the grid it
    returns holds the input, cell for cell: every tentative placement
    was undone. *)
Theorem solveSudoku_failure_returns_input w g g' w' :
  grid9x9 (w_heap w) g = true ->
  solveSudoku g w = Ok ((false, g'), w') ->
  snapshot (w_heap w') g' = snapshot (w_heap w) g.
Proof.
  intros Hg H. destruct (grid9x9_inv _ _ Hg) as (Ha & Hb & Hlen).
  destruct (solveSudoku_fuel_outcome 82 g w Hg) as (res & b' & P & E & Hb').
  { pose proof (count_empty_le _ Hb). lia. }
  unfold solveSudoku in H. rewrite E in H. injection H as -> <- <-.
  change (snapshot (w_heap w ++ b') (seq (length (w_heap w)) 9) =
          snapshot (w_heap w) g).
  rewrite (snapshot_fresh9 _ _ Hb').
  now apply (psearch_restores ascending) in P.
Qed.

Lemma solveSudoku_failure_returns_input_witness :
  snapshot (stuck_board ++ stuck_board) (seq 9 9) =
  snapshot (w_heap (start stuck_board)) first_rows.
Proof.
  apply (solveSudoku_failure_returns_input (start stuck_board) first_rows
           (seq 9 9)
           (World (stuck_board ++ stuck_board) (w_rand (start stuck_board)) O));
    [reflexivity | vm_compute; reflexivity].
Defined.

(** C7. Solving the grid returned by [solveSudoku] returns a grid with
    the same contents. *)
Theorem solveSudoku_idempotent w g :
  grid9x9 (w_heap w) g = true ->
  exists s1 g1 w1 s2 g2 w2,
    solveSudoku g w = Ok ((s1, g1), w1) /\
    solveSudoku g1 w1 = Ok ((s2, g2), w2) /\
    snapshot (w_heap w2) g2 = snapshot (w_heap w1) g1.
Proof.
  intros Hg. destruct (grid9x9_inv _ _ Hg) as (Ha & Hb & Hlen).
  destruct (solveSudoku_fuel_outcome 82 g w Hg) as (s1 & b1 & P1 & E1 & Hb1).
  { pose proof (count_empty_le _ Hb). lia. }
  pose proof (grid9x9_fresh (w_heap w) b1 Hb1) as Hg1.
  set (w1 := World (w_heap w ++ b1) (w_rand w) (w_used w)) in *.
  destruct (solveSudoku_fuel_outcome 82 (seq (length (w_heap w)) 9) w1 Hg1)
    as (s2 & b2 & P2 & E2 & Hb2).
  { cbn [w1 w_heap]. rewrite (snapshot_fresh9 _ _ Hb1).
    pose proof (count_empty_le _ Hb1). lia. }
  do 6 eexists. split; [exact E1|]. split; [exact E2|].
  cbn [w1 w_heap w_used w_rand] in *. rewrite (snapshot_fresh9 _ _ Hb1) in *.
  rewrite snapshot_fresh9 by assumption.
  destruct s1.
  - apply (psearch_sound ascending ascending_digits) in P1
      as (_ & Hfull & _); [|assumption].
    cbn [psearch] in P2. rewrite (first_empty_full _ Hfull) in P2.
    congruence.
  - apply (psearch_restores ascending) in P1 as Heq; [|assumption].
    subst b1. rewrite P1 in P2. congruence.
Qed.

Lemma solveSudoku_idempotent_witness :
  exists s1 g1 w1 s2 g2 w2,
    solveSudoku first_rows (start open_board) = Ok ((s1, g1), w1) /\
    solveSudoku g1 w1 = Ok ((s2, g2), w2) /\
    snapshot (w_heap w2) g2 = snapshot (w_heap w1) g1.
Proof.
  apply (solveSudoku_idempotent (start open_board) first_rows).
  reflexivity.
Defined.

(** C8. [solveSudoku] returns on every 9x9 grid with entries in 0..9.
    A grid has at most 81 empty cells, every nested call of [backtrack]
    is made with one empty cell less, so the frames nest at most 81 deep
    below the first one: any fuel above the number of empty cells gives
    the result of [solveSudoku].  Each frame tries the nine values of
    [DIGITS]. *)
Theorem solveSudoku_terminates w g :
  wf_grid (w_heap w) g = true ->
  (count_empty (snapshot (w_heap w) g) <= 81)%nat /\
  (exists res w', solveSudoku g w = Ok (res, w') /\
     forall fuel, (count_empty (snapshot (w_heap w) g) < fuel)%nat ->
       solveSudoku_fuel fuel g w = Ok (res, w')) /\
  length DIGITS = 9%nat.
Proof.
  intros Hwf. destruct (wf_grid_inv _ _ Hwf) as [Hg _].
  destruct (grid9x9_inv _ _ Hg) as (Ha & Hb & Hlen).
  pose proof (count_empty_le _ Hb) as H81.
  split; [assumption|]. split; [|reflexivity].
  destruct (solveSudoku_fuel_outcome 82 g w Hg) as (res & b' & P & E & _);
    [lia|].
  eexists _, _. split; [exact E|]. intros fuel Hfuel.
  destruct (solveSudoku_fuel_outcome fuel g w Hg Hfuel)
    as (res2 & b2 & P2 & E2 & _).
  rewrite E2.
  destruct (Nat.le_ge_cases fuel 82) as [Hle|Hge].
  - apply (psearch_more_fuel ascending fuel 82) in P2; [|assumption].
    rewrite P in P2. injection P2 as <- <-. reflexivity.
  - apply (psearch_more_fuel ascending 82 fuel) in P; [|assumption].
    rewrite P in P2. injection P2 as <- <-. reflexivity.
Qed.

Lemma solveSudoku_terminates_witness :
  (count_empty (snapshot (w_heap (start open_board)) first_rows) <= 81)%nat /\
  (exists res w', solveSudoku first_rows (start open_board) = Ok (res, w') /\
     forall fuel,
       (count_empty (snapshot (w_heap (start open_board)) first_rows) < fuel)%nat ->
       solveSudoku_fuel fuel first_rows (start open_board) = Ok (res, w')) /\
  length DIGITS = 9%nat.
Proof.
  apply (solveSudoku_terminates (start open_board) first_rows).
  reflexivity.
Defined.

(** C2 (as stated).  The grid filled with 5 has two identical givens in
    its first row and no valid completion, and [solveSudoku] answers
    [solved = true] on it: with no empty cell there is nothing to
    check. *)
Lemma solveSudoku_accepts_conflicting_full_grid :
  wf_grid (w_heap (start fives_board)) first_rows = true /\
  bcell fives_board 0 0 = bcell fives_board 0 1 /\
  (forall b', ~ valid_completion fives_board b') /\
  exists g' w',
    solveSudoku first_rows (start fives_board) = Ok ((true, g'), w').
Proof.
  split; [reflexivity|]. split; [reflexivity|].
  split; [exact fives_board_no_completion|].
  eexists _, _. vm_compute. reflexivity.
Qed.

(** C2 (amended).  On a 9x9 grid with entries in 0..9 in which
    [gridHasConflicts] finds no conflict, and which has no valid
    completion, [solveSudoku] answers [solved = false]. *)
Theorem solveSudoku_unsolvable_grid w g :
  wf_grid (w_heap w) g = true ->
  (exists w1, gridHasConflicts g w = Ok (false, w1)) ->
  (forall b', ~ valid_completion (snapshot (w_heap w) g) b') ->
  exists g' w', solveSudoku g w = Ok ((false, g'), w').
Proof.
  intros Hwf [w1 Hc] Hnone. destruct (wf_grid_inv _ _ Hwf) as [Hg _].
  destruct (grid9x9_inv _ _ Hg) as (Ha & Hb & Hlen).
  destruct (gridHasConflicts_spec g w Hg) as [extra Hspec].
  rewrite Hspec in Hc. injection Hc as Hc _.
  apply has_conflicts_false in Hc; [|assumption].
  destruct (solveSudoku_fuel_outcome 82 g w Hg) as (res & b' & P & E & _).
  { pose proof (count_empty_le _ Hb). lia. }
  destruct res; [|eexists _, _; exact E].
  exfalso. apply (Hnone b').
  now apply (psearch_true_valid_completion ascending 82 _ _ _ _
               ascending_digits Hb Hc P).
Qed.

Lemma solveSudoku_unsolvable_grid_witness :
  exists g' w',
    solveSudoku first_rows (start stuck_board) = Ok ((false, g'), w').
Proof.
  apply (solveSudoku_unsolvable_grid (start stuck_board) first_rows);
    [reflexivity | eexists; vm_compute; reflexivity
     | exact stuck_board_no_completion].
Defined.

(** ** [generateSudoku] *)

(** C3. For every integer [givens], [generateSudoku] returns a full
    solution and a puzzle with exactly [clamp(givens, 17, 81)] filled
    cells and [81 - clamp(givens, 17, 81)] empty ones; every cell of the
    puzzle is either empty or the cell of the solution, so clearing in
    the solution the cells that are empty in the puzzle gives the
    puzzle.  For [givens <= 17] (as 5) the puzzle has 17 filled cells;
    for [givens >= 81] (as 90) the puzzle is the solution. *)
Theorem generateSudoku_keeps_clamped_givens givens w :
  exists puzzle solution w',
    generateSudoku (Some givens) w = Ok ((puzzle, solution), w') /\
    is9x9 (snapshot (w_heap w') puzzle) = true /\
    is9x9 (snapshot (w_heap w') solution) = true /\
    no_empty_cell (snapshot (w_heap w') solution) = true /\
    Z.of_nat (count_filled (snapshot (w_heap w') puzzle))
      = clamp_givens givens /\
    Z.of_nat (count_empty (snapshot (w_heap w') puzzle))
      = 81 - clamp_givens givens /\
    (forall r c, in_grid r c ->
       bcell (snapshot (w_heap w') puzzle) r c =
       if is_zero (bcell (snapshot (w_heap w') puzzle) r c) then Num 0
       else bcell (snapshot (w_heap w') solution) r c) /\
    (givens <= 17 ->
       count_filled (snapshot (w_heap w') puzzle) = 17%nat) /\
    (81 <= givens ->
       snapshot (w_heap w') puzzle = snapshot (w_heap w') solution).
Proof.
  destruct (generateSudoku_boards (Some givens) w)
    as (puzzle & solution & w' & S & idxs & E & Hgp & Hgs & Hs & Hp & HS
        & Hfull & Hcf & Hnd & Hr & Hlen).
  exists puzzle, solution, w'. split; [exact E|]. rewrite Hs, Hp.
  pose proof (is9x9_clear_cells idxs S HS Hr) as HP.
  pose proof (full_no_empty_cell S HS Hfull) as Hne.
  assert (Hcount : (count_filled (clear_cells S idxs) + length idxs = 81)%nat).
  { rewrite <- (count_filled_full S HS Hne).
    apply count_filled_clear_cells; auto.
    intros idx Hin. apply Hfull. apply cell_of_in_grid. auto. }
  pose proof (count_cells_9x9 _ HP) as Hall.
  assert (Hclamp : 17 <= clamp_givens givens <= 81)
    by (unfold clamp_givens; lia).
  split; [assumption|]. split; [assumption|]. split; [assumption|].
  split; [lia|]. split; [lia|]. split; [|split].
  - intros r c Hrc.
    destruct (is_zero (bcell (clear_cells S idxs) r c)) eqn:Hz.
    + now apply is_zero_true.
    + destruct (bcell_clear_cells idxs S r c HS Hr Hrc) as [H|H];
        [|assumption].
      rewrite H in Hz. discriminate.
  - intros Hg. unfold clamp_givens in *. lia.
  - intros Hg. assert (Hnil : length idxs = 0%nat)
      by (unfold clamp_givens in *; lia).
    destruct idxs; [reflexivity|discriminate].
Qed.

Lemma generateSudoku_keeps_clamped_givens_witness :
  exists puzzle solution w',
    generateSudoku (Some 30) (start []) = Ok ((puzzle, solution), w') /\
    is9x9 (snapshot (w_heap w') puzzle) = true /\
    is9x9 (snapshot (w_heap w') solution) = true /\
    no_empty_cell (snapshot (w_heap w') solution) = true /\
    Z.of_nat (count_filled (snapshot (w_heap w') puzzle))
      = clamp_givens 30 /\
    Z.of_nat (count_empty (snapshot (w_heap w') puzzle))
      = 81 - clamp_givens 30 /\
    (forall r c, in_grid r c ->
       bcell (snapshot (w_heap w') puzzle) r c =
       if is_zero (bcell (snapshot (w_heap w') puzzle) r c) then Num 0
       else bcell (snapshot (w_heap w') solution) r c) /\
    (30 <= 17 ->
       count_filled (snapshot (w_heap w') puzzle) = 17%nat) /\
    (81 <= 30 ->
       snapshot (w_heap w') puzzle = snapshot (w_heap w') solution).
Proof.
  apply (generateSudoku_keeps_clamped_givens 30 (start [])).
Defined.

(** ** [gridHasConflicts] on the grids the engine returns *)

(** C5 (as stated).  [solveSudoku] answers [solved = true] on the grid
    filled with 5, and [gridHasConflicts] is [true] on the grid it
    returns. *)
Lemma gridHasConflicts_true_after_successful_solve :
  exists w2,
    solveSudoku first_rows (start fives_board) =
      Ok ((true, seq 9 9),
          World (fives_board ++ fives_board) (w_rand (start fives_board)) O) /\
    gridHasConflicts (seq 9 9)
      (World (fives_board ++ fives_board) (w_rand (start fives_board)) O) =
      Ok (true, w2).
Proof.
  eexists. split; vm_compute; reflexivity.
Qed.

(** C5 (amended).  [gridHasConflicts] is [false] on the puzzle and on
    the solution returned by [generateSudoku]; and it is [false] on the
    grid returned by [solveSudoku] with [solved = true] when it was
    [false] on the 9x9 input grid. *)
Theorem gridHasConflicts_false_on_engine_grids :
  (forall givens w,
     exists puzzle solution w' w1 w2,
       generateSudoku givens w = Ok ((puzzle, solution), w') /\
       gridHasConflicts puzzle w' = Ok (false, w1) /\
       gridHasConflicts solution w' = Ok (false, w2)) /\
  (forall w g g' w',
     wf_grid (w_heap w) g = true ->
     (exists w1, gridHasConflicts g w = Ok (false, w1)) ->
     solveSudoku g w = Ok ((true, g'), w') ->
     exists w2, gridHasConflicts g' w' = Ok (false, w2)).
Proof.
  split.
  - intros givens w.
    destruct (generateSudoku_boards givens w)
      as (puzzle & solution & w' & S & idxs & E & Hgp & Hgs & Hs & Hp & HS
          & Hfull & Hcf & Hnd & Hr & Hlen).
    destruct (gridHasConflicts_spec puzzle w' Hgp) as [x1 E1].
    destruct (gridHasConflicts_spec solution w' Hgs) as [x2 E2].
    rewrite Hp in E1. rewrite Hs in E2.
    rewrite (proj2 (has_conflicts_false _ (is9x9_clear_cells idxs S HS Hr)))
      in E1 by (now apply clash_free_clear_cells).
    rewrite (proj2 (has_conflicts_false S HS) Hcf) in E2.
    do 5 eexists. split; [exact E|]. split; [exact E1|exact E2].
  - intros w g g' w' Hwf [w1 Hc] Hsolve.
    destruct (wf_grid_inv _ _ Hwf) as [Hg _].
    destruct (grid9x9_inv _ _ Hg) as (Ha & Hb & Hlen).
    destruct (gridHasConflicts_spec g w Hg) as [extra Hspec].
    rewrite Hspec in Hc. injection Hc as Hc _.
    apply has_conflicts_false in Hc; [|assumption].
    destruct (solveSudoku_fuel_outcome 82 g w Hg) as (res & b' & P & E & Hb').
    { pose proof (count_empty_le _ Hb). lia. }
    unfold solveSudoku in Hsolve. rewrite E in Hsolve.
    assert (Hres : res = true) by congruence. subst res.
    assert (Hg' : g' = seq (length (w_heap w)) 9) by congruence.
    assert (Hw' : w' = World (w_heap w ++ b') (w_rand w) (w_used w))
      by congruence.
    subst g' w'.
    destruct (gridHasConflicts_spec (seq (length (w_heap w)) 9)
                (World (w_heap w ++ b') (w_rand w) (w_used w))
                (grid9x9_fresh (w_heap w) b' Hb'))
      as [x E'].
    cbn [w_heap w_rand w_used] in *.
    rewrite (snapshot_fresh9 _ _ Hb') in E'.
    rewrite (proj2 (has_conflicts_false b' Hb')) in E'; [eauto|].
    now apply (psearch_true_clash_free ascending 82 _ _ _ _
                 ascending_digits Hb Hc P).
Qed.

Lemma gridHasConflicts_false_on_engine_grids_witness :
  (exists puzzle solution w' w1 w2,
     generateSudoku (Some 32) (start []) = Ok ((puzzle, solution), w') /\
     gridHasConflicts puzzle w' = Ok (false, w1) /\
     gridHasConflicts solution w' = Ok (false, w2)) /\
  (exists w2,
     gridHasConflicts (seq 9 9)
       (World (open_board ++ solved_board) (w_rand (start open_board)) O) =
     Ok (false, w2)).
Proof.
  split.
  - apply (proj1 gridHasConflicts_false_on_engine_grids (Some 32) (start [])).
  - apply (proj2 gridHasConflicts_false_on_engine_grids
             (start open_board) first_rows (seq 9 9)
             (World (open_board ++ solved_board)
                (w_rand (start open_board)) O));
      [reflexivity | eexists; vm_compute; reflexivity
       | vm_compute; reflexivity].
Defined.

(** * Further properties of the engine *)

(** ** Grid construction and copy *)

Lemma write_cell_frame g r c v h h' :
  write_cell g r c v h = Ok h' ->
  length h' = length h /\
  forall l, ~ In l g -> nth_error h' l = nth_error h l.
Proof.
  unfold write_cell, index. intros H.
  destruct (r <? 0); [discriminate|].
  destruct (nth_error g (Z.to_nat r)) as [l0|] eqn:Hl; [|discriminate].
  destruct (nth_error h l0) as [row|]; [|discriminate].
  injection H as <-. split; [apply upd_length|].
  intros l Hin. apply nth_error_upd_neq. intros <-. apply Hin.
  eapply nth_error_In; eauto.
Qed.

Lemma snapshot_same_rows g h h' :
  (forall l, In l g -> nth_error h' l = nth_error h l) ->
  snapshot h' g = snapshot h g.
Proof.
  intros H. unfold snapshot. apply map_ext_in. intros l Hl.
  specialize (H l Hl).
  destruct (nth_error h l) as [row|] eqn:E.
  - rewrite (nth_error_nth _ _ [] H). symmetry. now apply nth_error_nth.
  - rewrite !nth_overflow; auto; now apply nth_error_None.
Qed.

Lemma bcell_empty_board_set r c v r' c' :
  in_grid r c -> in_grid r' c' ->
  bcell (bset empty_board r c v) r' c' =
  if (r' =? r) && (c' =? c) then v else Num 0.
Proof.
  intros Hrc Hrc'.
  destruct (Z.eqb_spec r' r) as [->|Hr]; [destruct (Z.eqb_spec c' c) as [->|Hc]|];
    cbn [andb].
  - now apply bcell_bset_same.
  - rewrite bcell_bset_other by auto. now apply empty_board_cell.
  - rewrite bcell_bset_other by auto. now apply empty_board_cell.
Qed.

(** X1. [createEmptyGrid] returns nine new, pairwise distinct row arrays
    holding 0 everywhere and leaves the arrays of the store as they
    were; since no row is shared, a write to one cell of the new grid
    shows in that cell only. *)
Theorem createEmptyGrid_rows_not_shared w :
  exists g w',
    createEmptyGrid w = Ok (g, w') /\
    (exists fresh, w_heap w' = w_heap w ++ fresh) /\
    NoDup g /\
    (forall l, In l g -> (length (w_heap w) <= l)%nat) /\
    snapshot (w_heap w') g = empty_board /\
    forall r c v, in_grid r c ->
      exists h2,
        write_cell g r c v (w_heap w') = Ok h2 /\
        forall r' c', in_grid r' c' ->
          read_cell g r' c' h2 =
          Ok (if (r' =? r) && (c' =? c) then v else Num 0).
Proof.
  rewrite createEmptyGrid_spec. do 2 eexists. split; [reflexivity|].
  cbn [w_heap].
  pose proof (arena_fresh (w_heap w) empty_board eq_refl) as (Hnd & Ha & Hlen).
  pose proof (snapshot_fresh (w_heap w) empty_board) as Hs.
  change (length empty_board) with 9%nat in *.
  change (repeat (repeat (Num 0) 9) 9) with empty_board.
  split; [now exists empty_board|]. split; [assumption|].
  split; [intros l Hl; apply in_seq in Hl; lia|].
  split; [assumption|].
  intros r c v Hrc.
  destruct (write_cell_snapshot (w_heap w ++ empty_board)
              (seq (length (w_heap w)) 9) r c v Hnd Ha)
    as (h2 & E & Hs2 & _ & Ha2).
  { rewrite Hlen. destruct Hrc. lia. }
  exists h2. split; [exact E|]. intros r' c' Hrc'.
  rewrite read_cell_snapshot by (auto; rewrite Hlen; destruct Hrc'; lia).
  rewrite Hs2, Hs. f_equal. now apply bcell_empty_board_set.
Qed.

Lemma createEmptyGrid_rows_not_shared_witness :
  exists g w',
    createEmptyGrid (start open_board) = Ok (g, w') /\
    (exists fresh, w_heap w' = w_heap (start open_board) ++ fresh) /\
    NoDup g /\
    (forall l, In l g -> (length (w_heap (start open_board)) <= l)%nat) /\
    snapshot (w_heap w') g = empty_board /\
    forall r c v, in_grid r c ->
      exists h2,
        write_cell g r c v (w_heap w') = Ok h2 /\
        forall r' c', in_grid r' c' ->
          read_cell g r' c' h2 =
          Ok (if (r' =? r) && (c' =? c) then v else Num 0).
Proof.
  apply (createEmptyGrid_rows_not_shared (start open_board)).
Defined.

(** X2. On any grid whose rows are in the store, [cloneGrid] returns a
    grid of new, pairwise distinct row arrays with the same contents
    (rows that the input shares are copied apart), and a later write to
    any cell of the copy leaves the contents of the input as they
    were. *)
Theorem cloneGrid_is_deep w g :
  allocated (w_heap w) g = true ->
  exists g' w',
    cloneGrid g w = Ok (g', w') /\
    (exists fresh, w_heap w' = w_heap w ++ fresh) /\
    snapshot (w_heap w') g' = snapshot (w_heap w) g /\
    NoDup g' /\
    (forall l, In l g' -> (length (w_heap w) <= l)%nat /\ ~ In l g) /\
    forall r c v h2,
      write_cell g' r c v (w_heap w') = Ok h2 ->
      snapshot h2 g = snapshot (w_heap w) g.
Proof.
  intros Ha. rewrite (cloneGrid_spec g w Ha). do 2 eexists.
  split; [reflexivity|]. cbn [w_heap].
  assert (Hlen : length g = length (snapshot (w_heap w) g))
    by (unfold snapshot; now rewrite length_map).
  assert (Hfresh : forall l, In l (seq (length (w_heap w)) (length g)) ->
                     (length (w_heap w) <= l)%nat /\ ~ In l g).
  { intros l Hl. apply in_seq in Hl. split; [lia|]. intros Hin.
    unfold allocated in Ha. rewrite forallb_forall in Ha.
    specialize (Ha l Hin). apply Nat.ltb_lt in Ha. lia. }
  split; [eexists; reflexivity|]. split.
  { rewrite Hlen. apply snapshot_fresh. }
  split; [apply seq_NoDup|]. split; [exact Hfresh|].
  intros r c v h2 Hw. apply write_cell_frame in Hw as [_ Hw].
  rewrite (snapshot_same_rows g (w_heap w ++ snapshot (w_heap w) g) h2).
  - now apply snapshot_app.
  - intros l Hl. apply Hw. intros Hin. now apply (Hfresh l Hin).
Qed.

Lemma cloneGrid_is_deep_witness :
  exists g' w',
    cloneGrid [0; 0; 1]%nat (start open_board) = Ok (g', w') /\
    (exists fresh, w_heap w' = w_heap (start open_board) ++ fresh) /\
    snapshot (w_heap w') g' = snapshot (w_heap (start open_board)) [0; 0; 1]%nat /\
    NoDup g' /\
    (forall l, In l g' ->
       (length (w_heap (start open_board)) <= l)%nat /\ ~ In l [0; 0; 1]%nat) /\
    forall r c v h2,
      write_cell g' r c v (w_heap w') = Ok h2 ->
      snapshot h2 [0; 0; 1]%nat = snapshot (w_heap (start open_board)) [0; 0; 1]%nat.
Proof.
  apply (cloneGrid_is_deep (start open_board) [0; 0; 1]%nat). reflexivity.
Defined.

(** ** [findEmpty], [shuffledDigits], [isValidPlacement] *)

Lemma find_first {A} (p : A -> bool) (l : list A) x :
  find p l = Some x ->
  exists n, nth_error l n = Some x /\
            forall m y, (m < n)%nat -> nth_error l m = Some y -> p y = false.
Proof.
  induction l as [|a t IH]; simpl; [discriminate|].
  destruct (p a) eqn:Ha.
  - intros H. injection H as <-. exists O. split; [reflexivity|].
    intros m y Hm. lia.
  - intros H. destruct (IH H) as (n & Hn & Hbefore). exists (S n).
    split; [exact Hn|]. intros [|m] y Hm Hy; simpl in Hy.
    + now injection Hy as <-.
    + apply (Hbefore m); [lia|assumption].
Qed.

Lemma nth_error_cells m :
  (m < 81)%nat ->
  nth_error cells m = Some (Z.of_nat m / 9, Z.of_nat m mod 9).
Proof.
  intros Hm.
  assert (H : forallb (fun m =>
                match nth_error cells m with
                | Some (r, c) =>
                    (r =? Z.of_nat m / 9) && (c =? Z.of_nat m mod 9)
                | None => false
                end) (seq 0 81) = true) by (vm_compute; reflexivity).
  rewrite forallb_forall in H. specialize (H m).
  destruct (nth_error cells m) as [[r c]|].
  - assert (Hin : In m (seq 0 81)) by (apply in_seq; lia).
    apply H in Hin. apply andb_true_iff in Hin as [H1 H2].
    apply Z.eqb_eq in H1, H2. now subst.
  - assert (Hin : In m (seq 0 81)) by (apply in_seq; lia).
    apply H in Hin. discriminate.
Qed.

(** X3. On a 9x9 grid [findEmpty] returns [null] exactly when no cell
    holds 0, and otherwise the position of a cell holding 0 such that
    no cell before it in row-major order holds 0. *)
Theorem findEmpty_returns_first_empty h g :
  grid9x9 h g = true ->
  exists pos,
    findEmpty g h = Ok pos /\
    match pos with
    | None =>
        forall r c, in_grid r c -> read_cell g r c h <> Ok (Num 0)
    | Some (r, c) =>
        in_grid r c /\ read_cell g r c h = Ok (Num 0) /\
        forall r' c', in_grid r' c' -> row_major_lt r' c' r c ->
          read_cell g r' c' h <> Ok (Num 0)
    end.
Proof.
  intros Hg. destruct (grid9x9_inv h g Hg) as (Ha & Hb & Hlen).
  exists (first_empty (snapshot h g)).
  split; [now apply findEmpty_first_empty|].
  assert (Hread : forall r c, in_grid r c ->
            read_cell g r c h = Ok (bcell (snapshot h g) r c)).
  { intros r c [Hr Hc]. apply read_cell_snapshot; auto. lia. }
  destruct (first_empty (snapshot h g)) as [[r c]|] eqn:E.
  - destruct (first_empty_Some _ _ _ E) as [Hrc Hz].
    split; [assumption|]. split; [rewrite Hread by assumption; now f_equal|].
    intros r' c' Hrc' Hlt. rewrite Hread by assumption.
    apply find_first in E as (n & Hn & Hbefore).
    assert (Hn81 : (n < 81)%nat).
    { change 81%nat with (length cells). apply nth_error_Some. congruence. }
    rewrite (nth_error_cells n Hn81) in Hn. injection Hn as Hr Hc.
    set (m := Z.to_nat (9 * r' + c')).
    assert (Hm : (m < n)%nat).
    { unfold m, row_major_lt, in_grid in *.
      assert (Z.of_nat n = 9 * r + c)
        by (subst r c; Z.div_mod_to_equations; lia).
      lia. }
    assert (Hcell : nth_error cells m = Some (r', c')).
    { rewrite nth_error_cells by lia. unfold m, in_grid in *.
      rewrite Z2Nat.id by lia. f_equal. f_equal.
      - Z.div_mod_to_equations; lia.
      - Z.div_mod_to_equations; lia. }
    specialize (Hbefore m (r', c') Hm Hcell). cbn [fst snd] in Hbefore.
    intros Heq. injection Heq as Heq. rewrite Heq in Hbefore. discriminate.
  - intros r c Hrc. rewrite Hread by assumption.
    pose proof (first_empty_None _ r c E Hrc) as Hnz.
    intros Heq. injection Heq as Heq. rewrite Heq in Hnz. discriminate.
Qed.

Lemma findEmpty_returns_first_empty_witness :
  exists pos,
    findEmpty first_rows open_board = Ok pos /\
    match pos with
    | None =>
        forall r c, in_grid r c ->
          read_cell first_rows r c open_board <> Ok (Num 0)
    | Some (r, c) =>
        in_grid r c /\ read_cell first_rows r c open_board = Ok (Num 0) /\
        forall r' c', in_grid r' c' -> row_major_lt r' c' r c ->
          read_cell first_rows r' c' open_board <> Ok (Num 0)
    end.
Proof.
  apply (findEmpty_returns_first_empty open_board first_rows). reflexivity.
Defined.

Lemma pshuffle_draws rand i : forall arr k,
  snd (pshuffle rand i arr k) = (k + i)%nat.
Proof.
  induction i as [|i IH]; intros arr k; simpl; [lia|].
  rewrite IH. lia.
Qed.

(** X4. [shuffledDigits] returns a permutation of 1..9, whatever the
    draws of [Math.random]; it makes eight draws and writes nothing to
    the store. *)
Theorem shuffledDigits_is_a_permutation w :
  exists arr w',
    shuffledDigits w = Ok (arr, w') /\
    Permutation DIGITS arr /\
    w_heap w' = w_heap w /\ w_rand w' = w_rand w /\
    w_used w' = (w_used w + 8)%nat.
Proof.
  rewrite shuffledDigits_spec. do 2 eexists. split; [reflexivity|].
  cbn [w_heap w_rand w_used]. split; [apply shuffled_perm|].
  repeat split. unfold shuffled. now rewrite pshuffle_draws.
Qed.

(** X5. The answer of [isValidPlacement] for a cell does not depend on
    what that cell holds: on a 9x9 grid with distinct rows, writing any
    value to [(row, col)] leaves [isValidPlacement(grid, row, col, val)]
    as it was. *)
Theorem isValidPlacement_ignores_own_cell h g row col val x h' :
  NoDup g -> grid9x9 h g = true -> in_grid row col ->
  write_cell g row col x h = Ok h' ->
  isValidPlacement g row col val h' = isValidPlacement g row col val h.
Proof.
  intros Hnd Hg Hrc Hw. destruct (grid9x9_inv h g Hg) as (Ha & Hb & Hlen).
  destruct (write_cell_snapshot h g row col x Hnd Ha)
    as (h2 & E & Hs & _ & Ha2); [destruct Hrc; lia|].
  rewrite E in Hw. injection Hw as <-.
  rewrite !isValidPlacement_pvalid by (auto; apply Hrc).
  rewrite Hs. f_equal. now apply pvalid_bset_self.
Qed.

Lemma isValidPlacement_ignores_own_cell_witness :
  isValidPlacement first_rows 0 3 (Num 4) (bset open_board 0 3 (Num 4)) =
  isValidPlacement first_rows 0 3 (Num 4) open_board.
Proof.
  apply (isValidPlacement_ignores_own_cell open_board first_rows 0 3
           (Num 4) (Num 4));
    [apply seq_NoDup | reflexivity | unfold in_grid; lia
     | vm_compute; reflexivity].
Defined.

(** ** What [solveSudoku] finds *)

Lemma clashes_within_self b : clashes_within b b.
Proof.
  intros r c r' c' _ _ _ Hnz Heq. split; [assumption|]. now rewrite Heq.
Qed.

Lemma read_fresh_grid h b r c :
  is9x9 b = true -> in_grid r c ->
  read_cell (seq (length h) 9) r c (h ++ b) = Ok (bcell b r c).
Proof.
  intros Hb [Hr Hc]. destruct (is9x9_inv b Hb) as [Hlen _].
  rewrite read_cell_snapshot.
  - now rewrite snapshot_fresh9.
  - rewrite <- Hlen. apply allocated_fresh.
  - rewrite length_seq. lia.
Qed.

Lemma check_fresh_grid h b r c v :
  is9x9 b = true -> 0 <= r <= 8 ->
  isValidPlacement (seq (length h) 9) r c v (h ++ b) = Ok (pvalid b r c v).
Proof.
  intros Hb Hr. destruct (is9x9_inv b Hb) as [Hlen _].
  rewrite isValidPlacement_pvalid; auto.
  - now rewrite snapshot_fresh9.
  - rewrite <- Hlen. apply allocated_fresh.
Qed.

(** The outcome of a successful [solveSudoku], read off the board
    search. *)
Lemma solveSudoku_true_outcome w g g' w' :
  grid9x9 (w_heap w) g = true ->
  solveSudoku g w = Ok ((true, g'), w') ->
  exists b',
    g' = seq (length (w_heap w)) 9 /\
    w' = World (w_heap w ++ b') (w_rand w) (w_used w) /\
    psearch ascending 82 (snapshot (w_heap w) g) (w_used w) =
      Some (true, b', w_used w) /\
    is9x9 b' = true.
Proof.
  intros Hg H. destruct (grid9x9_inv _ _ Hg) as (Ha & Hb & Hlen).
  destruct (solveSudoku_fuel_outcome 82 g w Hg) as (res & b' & P & E & Hb').
  { pose proof (count_empty_le _ Hb). lia. }
  unfold solveSudoku in H. rewrite E in H.
  assert (res = true) by congruence. subst res.
  exists b'. repeat split; auto; congruence.
Qed.

(** X6. When [solveSudoku] answers [solved = true] on a 9x9 grid,
    conflicting or not, the returned grid keeps every filled cell of the
    input, and every cell that was empty holds a digit 1..9 that passes
    the placement check in the returned grid. *)
Theorem solveSudoku_success_completes_input w g g' w' :
  grid9x9 (w_heap w) g = true ->
  solveSudoku g w = Ok ((true, g'), w') ->
  forall r c, in_grid r c ->
    (read_cell g r c (w_heap w) <> Ok (Num 0) ->
     read_cell g' r c (w_heap w') = read_cell g r c (w_heap w)) /\
    (read_cell g r c (w_heap w) = Ok (Num 0) ->
     exists v, 1 <= v <= 9 /\
       read_cell g' r c (w_heap w') = Ok (Num v) /\
       isValidPlacement g' r c (Num v) (w_heap w') = Ok true).
Proof.
  intros Hg H r c Hrc. destruct (grid9x9_inv _ _ Hg) as (Ha & Hb & Hlen).
  destruct (solveSudoku_true_outcome w g g' w' Hg H)
    as (b' & -> & -> & P & Hb').
  apply (psearch_sound ascending ascending_digits) in P
    as (_ & Hfull & Hext & Hdig & Hcl); [|assumption].
  cbn [w_heap]. rewrite (read_fresh_grid _ _ r c Hb' Hrc).
  rewrite (read_cell_snapshot (w_heap w) g r c Ha)
    by (destruct Hrc; lia).
  split.
  - intros Hnz. f_equal. apply Hext; [assumption|].
    apply strict_eq_false. congruence.
  - intros Hz. injection Hz as Hz.
    destruct (Hdig r c Hrc Hz) as (v & Hv & Hcell).
    exists v. split; [assumption|]. split; [now f_equal|].
    rewrite check_fresh_grid by (auto; apply Hrc). f_equal.
    apply pvalid_true_iff; [assumption|].
    intros r' c' Hrc' Hp. apply strict_eq_false. intros Heq.
    destruct (Hcl _ (extends_refl _) (clashes_within_self _)
                r c r' c' Hrc Hrc' Hp) as [Hnz _].
    + rewrite Hcell. now apply is_zero_digit.
    + congruence.
    + rewrite Hz in Hnz. discriminate.
Qed.

Lemma solveSudoku_success_completes_input_witness :
  (read_cell first_rows 0 4 (w_heap (start open_board)) <> Ok (Num 0) ->
   read_cell (seq 9 9) 0 4 (open_board ++ solved_board) =
   read_cell first_rows 0 4 (w_heap (start open_board))) /\
  (read_cell first_rows 0 4 (w_heap (start open_board)) = Ok (Num 0) ->
   exists v, 1 <= v <= 9 /\
     read_cell (seq 9 9) 0 4 (open_board ++ solved_board) = Ok (Num v) /\
     isValidPlacement (seq 9 9) 0 4 (Num v) (open_board ++ solved_board)
       = Ok true).
Proof.
  apply (solveSudoku_success_completes_input (start open_board) first_rows
           (seq 9 9)
           (World (open_board ++ solved_board) (w_rand (start open_board)) O)
           eq_refl);
    [vm_compute; reflexivity | unfold in_grid; lia].
Defined.

Lemma belowb_sound b G : belowb b G = true -> below b G.
Proof.
  unfold belowb. rewrite forallb_forall. intros H r c Hrc.
  apply In_cells in Hrc. specialize (H _ Hrc). cbn [fst snd] in H.
  apply orb_true_iff in H as [H|H].
  - left. now apply is_zero_true.
  - right. now apply strict_eq_true.
Qed.

Lemma below_clash_free b G : solution G -> below b G -> clash_free b.
Proof.
  intros (_ & _ & HGp) Hbel r c r' c' Hrc Hrc' Hp Hnz Heq.
  destruct (Hbel r c Hrc) as [E|E]; [rewrite E in Hnz; discriminate|].
  destruct (Hbel r' c' Hrc') as [E'|E'].
  - rewrite <- Heq, E' in Hnz. discriminate.
  - apply (HGp r c r' c' Hrc Hrc' Hp). congruence.
Qed.

(** A successful search from a board below a solution ends on a
    solution above that board. *)
Lemma psearch_true_solution pcands fuel b k b' k' G :
  (forall k v, In v (fst (pcands k)) -> 1 <= v <= 9) ->
  is9x9 b = true -> solution G -> below b G ->
  psearch pcands fuel b k = Some (true, b', k') ->
  solution b' /\ below b b'.
Proof.
  intros Hd Hb HG Hbel P.
  pose proof (below_clash_free b G HG Hbel) as Hcf.
  pose proof (psearch_true_clash_free pcands fuel b k b' k' Hd Hb Hcf P)
    as Hcf'.
  apply (psearch_sound pcands Hd) in P as (Hb' & Hfull & Hext & Hdig & _);
    [|assumption].
  destruct HG as (_ & HGd & _).
  assert (Hbel' : below b b').
  { intros r c Hrc.
    destruct (is_zero (bcell b r c)) eqn:Hz.
    - left. now apply is_zero_true.
    - right. symmetry. now apply Hext. }
  split; [|assumption]. split; [assumption|]. split.
  - intros r c Hrc. destruct (Hbel r c Hrc) as [E|E].
    + now apply Hdig.
    + destruct (HGd r c Hrc) as (v & Hv & HGv). exists v.
      split; [assumption|]. rewrite Hext; [congruence|assumption|].
      rewrite E, HGv. now apply is_zero_digit.
  - intros r c r' c' Hrc Hrc' Hp. apply Hcf'; auto.
Qed.

(** [solveSudoku] on a grid that lies below a solution. *)
Lemma solveSudoku_below_solution w g G :
  grid9x9 (w_heap w) g = true ->
  solution G -> below (snapshot (w_heap w) g) G ->
  exists b',
    solveSudoku g w =
      Ok ((true, seq (length (w_heap w)) 9),
          World (w_heap w ++ b') (w_rand w) (w_used w)) /\
    solution b' /\ below (snapshot (w_heap w) g) b'.
Proof.
  intros Hg HG Hbel. destruct (grid9x9_inv _ _ Hg) as (Ha & Hb & Hlen).
  destruct (solveSudoku_fuel_outcome 82 g w Hg) as (res & b' & P & E & Hb').
  { pose proof (count_empty_le _ Hb). lia. }
  destruct (psearch_complete ascending ascending_digits ascending_all G 82
              (snapshot (w_heap w) g) (w_used w) HG Hb Hbel)
    as (b2 & k2 & P2).
  { pose proof (count_empty_le _ Hb). lia. }
  rewrite P in P2. injection P2 as -> <- _.
  exists b'. split; [exact E|].
  exact (psearch_true_solution ascending 82 _ (w_used w) b' (w_used w) G
           ascending_digits Hb HG Hbel P).
Qed.

(** X7. If the contents of a 9x9 grid can be completed to a solved
    Sudoku, [solveSudoku] answers [solved = true], and the grid it
    returns is a solved Sudoku (a digit in every cell, no two peers
    equal) that keeps the filled cells of the input. *)
Theorem solveSudoku_finds_a_solution w g G :
  grid9x9 (w_heap w) g = true ->
  solution G -> below (snapshot (w_heap w) g) G ->
  exists g' w',
    solveSudoku g w = Ok ((true, g'), w') /\
    solution (snapshot (w_heap w') g') /\
    below (snapshot (w_heap w) g) (snapshot (w_heap w') g').
Proof.
  intros Hg HG Hbel.
  destruct (solveSudoku_below_solution w g G Hg HG Hbel)
    as (b' & E & Hsol & Hbel').
  do 2 eexists. split; [exact E|]. cbn [w_heap].
  rewrite snapshot_fresh9 by apply Hsol. now split.
Qed.

Lemma solveSudoku_finds_a_solution_witness :
  exists g' w',
    solveSudoku first_rows (start open_board) = Ok ((true, g'), w') /\
    solution (snapshot (w_heap w') g') /\
    below (snapshot (w_heap (start open_board)) first_rows)
      (snapshot (w_heap w') g').
Proof.
  apply (solveSudoku_finds_a_solution (start open_board) first_rows
           solved_board);
    [reflexivity | exact solved_board_solution
     | apply belowb_sound; vm_compute; reflexivity].
Defined.

Lemma board_ext b1 b2 :
  is9x9 b1 = true -> is9x9 b2 = true ->
  (forall r c, in_grid r c -> bcell b1 r c = bcell b2 r c) ->
  b1 = b2.
Proof.
  intros H1 H2 Hcells.
  destruct (is9x9_inv b1 H1) as [L1 _]. destruct (is9x9_inv b2 H2) as [L2 _].
  apply nth_error_ext. intros n.
  destruct (Nat.ltb_spec n 9) as [Hn|Hn].
  - destruct (board_row b1 (Z.of_nat n) H1) as (row1 & _ & R1 & Len1); [lia|].
    destruct (board_row b2 (Z.of_nat n) H2) as (row2 & _ & R2 & Len2); [lia|].
    rewrite Nat2Z.id in R1, R2. rewrite R1, R2. f_equal.
    apply nth_error_ext. intros m.
    destruct (Nat.ltb_spec m 9) as [Hm|Hm].
    + assert (Hrc : in_grid (Z.of_nat n) (Z.of_nat m))
        by (unfold in_grid; lia).
      pose proof (bcell_nth b1 _ _ row1 Hrc) as C1.
      pose proof (bcell_nth b2 _ _ row2 Hrc) as C2.
      rewrite !Nat2Z.id in C1, C2.
      rewrite (C1 R1 Len1), (C2 R2 Len2). f_equal. now apply Hcells.
    + transitivity (@None jsval); [|symmetry]; apply nth_error_None; lia.
  - transitivity (@None (list jsval)); [|symmetry]; apply nth_error_None; lia.
Qed.

(** X8. If the contents of a 9x9 grid have exactly one completion to a
    solved Sudoku, [solveSudoku] answers [solved = true] and returns
    that completion. *)
Theorem solveSudoku_returns_the_unique_solution w g G :
  grid9x9 (w_heap w) g = true ->
  solution G -> below (snapshot (w_heap w) g) G ->
  (forall G', solution G' -> below (snapshot (w_heap w) g) G' -> G' = G) ->
  exists g' w',
    solveSudoku g w = Ok ((true, g'), w') /\
    snapshot (w_heap w') g' = G.
Proof.
  intros Hg HG Hbel Huniq.
  destruct (solveSudoku_below_solution w g G Hg HG Hbel)
    as (b' & E & Hsol & Hbel').
  do 2 eexists. split; [exact E|]. cbn [w_heap].
  rewrite snapshot_fresh9 by apply Hsol. now apply Huniq.
Qed.

Lemma almost_solved_unique G' :
  solution G' -> below almost_solved G' -> G' = solved_board.
Proof.
  intros (H9 & Hd & Hp) Hbel.
  assert (Hkeep : forall r c, in_grid r c -> (r <> 0 \/ c <> 0) ->
            bcell G' r c = bcell solved_board r c).
  { intros r c Hrc Hne.
    assert (E : bcell almost_solved r c = bcell solved_board r c)
      by (apply bcell_bset_other; [reflexivity|unfold in_grid; lia|exact Hne]).
    destruct (proj1 (proj2 solved_board_solution) r c Hrc) as (v & Hv & Hs).
    destruct (Hbel r c Hrc) as [Z|Z]; rewrite E in Z; [|now symmetry].
    rewrite Hs in Z. injection Z as Z. lia. }
  apply board_ext; [assumption|reflexivity|].
  intros r c Hrc.
  destruct (Z.eq_dec r 0) as [->|Hr]; [|apply Hkeep; auto].
  destruct (Z.eq_dec c 0) as [->|Hc]; [|apply Hkeep; auto].
  destruct (Hd 0 0 Hrc) as (v & Hv & Hcell). rewrite Hcell.
  assert (Hrow : forall j, 1 <= j <= 8 -> bcell G' 0 j <> Num v).
  { intros j Hj. rewrite <- Hcell. apply Hp; unfold in_grid, peer; lia. }
  assert (Hcase : v = 1 \/ v = 2 \/ v = 3 \/ v = 4 \/ v = 5 \/ v = 6 \/
                  v = 7 \/ v = 8 \/ v = 9) by lia.
  destruct Hcase as [->|Hcase]; [reflexivity|]. exfalso.
  apply (Hrow (v - 1)); [lia|].
  rewrite Hkeep by (unfold in_grid; lia).
  destruct Hcase as [->|[->|[->|[->|[->|[->|[->| ->]]]]]]]; reflexivity.
Qed.

Lemma solveSudoku_returns_the_unique_solution_witness :
  exists g' w',
    solveSudoku first_rows (start almost_solved) = Ok ((true, g'), w') /\
    snapshot (w_heap w') g' = solved_board.
Proof.
  apply (solveSudoku_returns_the_unique_solution (start almost_solved)
           first_rows solved_board);
    [reflexivity | exact solved_board_solution
     | apply belowb_sound; vm_compute; reflexivity
     | exact almost_solved_unique].
Defined.

(** ** [gridHasConflicts] and [generateSudoku] *)

Lemma has_conflicts_true b :
  is9x9 b = true ->
  has_conflicts b = true <->
  exists r c r' c',
    in_grid r c /\ in_grid r' c' /\ peer r c r' c' /\
    bcell b r c <> Num 0 /\ bcell b r' c' = bcell b r c.
Proof.
  intros Hb. split.
  - unfold has_conflicts. intros H.
    apply existsb_exists in H as (r & Hr & H).
    apply existsb_exists in H as (c & Hc & H).
    apply In_range in Hr, Hc.
    assert (Hrc : in_grid r c) by (unfold in_grid; lia).
    unfold conflict_at in H. apply andb_true_iff in H as [Hnz Hv].
    apply negb_true_iff in Hnz, Hv.
    rewrite pvalid_bset_self in Hv by assumption.
    apply pvalid_false_iff in Hv as (r' & c' & Hrc' & Hp & Heq);
      [|assumption].
    exists r, c, r', c'.
    split; [assumption|]. split; [assumption|]. split; [assumption|]. split.
    + intros E. rewrite E in Hnz. discriminate.
    + now apply strict_eq_true.
  - intros (r & c & r' & c' & Hrc & Hrc' & Hp & Hnz & Heq).
    destruct (has_conflicts b) eqn:E; [reflexivity|]. exfalso.
    apply has_conflicts_false in E; [|assumption].
    apply (E r c r' c'); auto.
    destruct (is_zero (bcell b r c)) eqn:Hz; [|reflexivity].
    apply is_zero_true in Hz. contradiction.
Qed.

(** X9. On a 9x9 grid [gridHasConflicts] returns [true] exactly when
    some filled cell holds the same value as one of its peers (another
    cell of its row, column or 3x3 box).  It works on copies: the arrays
    of the store, those of the grid included, are left as they were. *)
Theorem gridHasConflicts_iff_two_peers_equal w g :
  grid9x9 (w_heap w) g = true ->
  exists ans w',
    gridHasConflicts g w = Ok (ans, w') /\
    (exists fresh, w_heap w' = w_heap w ++ fresh) /\
    (ans = true <->
     exists r c r' c',
       in_grid r c /\ in_grid r' c' /\ peer r c r' c' /\
       read_cell g r c (w_heap w) <> Ok (Num 0) /\
       read_cell g r' c' (w_heap w) = read_cell g r c (w_heap w)).
Proof.
  intros Hg. destruct (grid9x9_inv _ _ Hg) as (Ha & Hb & Hlen).
  destruct (gridHasConflicts_spec g w Hg) as [extra E].
  do 2 eexists. split; [exact E|]. cbn [w_heap].
  split; [now exists extra|].
  rewrite (has_conflicts_true _ Hb).
  assert (Hread : forall r c, in_grid r c ->
            read_cell g r c (w_heap w) =
            Ok (bcell (snapshot (w_heap w) g) r c)).
  { intros r c [Hr Hc]. apply read_cell_snapshot; auto. lia. }
  split; intros (r & c & r' & c' & Hrc & Hrc' & Hp & Hnz & Heq);
    exists r, c, r', c';
    (split; [assumption|]); (split; [assumption|]); (split; [assumption|]);
    split.
  - rewrite Hread by assumption. congruence.
  - rewrite !Hread by assumption. congruence.
  - rewrite Hread in Hnz by assumption. congruence.
  - rewrite !Hread in Heq by assumption. congruence.
Qed.

Lemma gridHasConflicts_iff_two_peers_equal_witness :
  exists ans w',
    gridHasConflicts first_rows (start fives_board) = Ok (ans, w') /\
    (exists fresh, w_heap w' = w_heap (start fives_board) ++ fresh) /\
    (ans = true <->
     exists r c r' c',
       in_grid r c /\ in_grid r' c' /\ peer r c r' c' /\
       read_cell first_rows r c (w_heap (start fives_board)) <> Ok (Num 0) /\
       read_cell first_rows r' c' (w_heap (start fives_board)) =
       read_cell first_rows r c (w_heap (start fives_board))).
Proof.
  apply (gridHasConflicts_iff_two_peers_equal (start fives_board) first_rows).
  reflexivity.
Defined.

(** The grids returned by [generateSudoku], with the solution known to
    be a solved Sudoku. *)
Lemma generateSudoku_solved_boards givens w :
  exists S idxs k2,
    generateSudoku givens w =
      Ok ((seq (length (w_heap w) + 9) 9, seq (length (w_heap w)) 9),
          World ((w_heap w ++ S) ++ clear_cells S idxs) (w_rand w) k2) /\
    solution S /\
    (forall idx, In idx idxs -> 0 <= idx < 81).
Proof.
  destruct (generateSudoku_spec givens w) as (S & k1 & P & HS & _ & _ & E).
  cbv zeta in E.
  destruct (shuffled_indices (w_rand w) k1) as (_ & _ & Hr).
  cbv zeta in Hr.
  do 3 eexists. split; [exact E|]. split.
  - apply (psearch_true_solution (shuffled (w_rand w)) 82 empty_board
             (w_used w) S k1 solved_board (shuffled_digits (w_rand w))
             eq_refl solved_board_solution); [|exact P].
    intros r c Hrc. left. now apply empty_board_cell.
  - intros idx Hin. apply Hr. eapply In_firstn; eauto.
Qed.

Lemma generated_grids_snapshots h S P :
  is9x9 S = true -> is9x9 P = true ->
  snapshot ((h ++ S) ++ P) (seq (length h) 9) = S /\
  snapshot ((h ++ S) ++ P) (seq (length h + 9) 9) = P /\
  grid9x9 ((h ++ S) ++ P) (seq (length h + 9) 9) = true.
Proof.
  intros HS HP. destruct (is9x9_inv S HS) as [HlenS _].
  split; [|split].
  - rewrite snapshot_app; [now apply snapshot_fresh9|].
    rewrite <- HlenS. apply allocated_fresh.
  - rewrite <- HlenS at 1. rewrite <- length_app. now apply snapshot_fresh9.
  - rewrite <- HlenS at 1. rewrite <- length_app. now apply grid9x9_fresh.
Qed.

Lemma below_clear_cells S idxs :
  is9x9 S = true -> (forall idx, In idx idxs -> 0 <= idx < 81) ->
  below (clear_cells S idxs) S.
Proof.
  intros HS Hr r c Hrc. now apply bcell_clear_cells.
Qed.

(** X10. For every [givens] option and every sequence of draws, the
    solution returned by [generateSudoku] is a solved Sudoku: every cell
    holds a digit 1..9 and no two cells of a row, a column or a 3x3 box
    hold the same digit; the puzzle is that solution with some cells
    emptied. *)
Theorem generateSudoku_solution_is_solved givens w :
  exists puzzle sol w',
    generateSudoku givens w = Ok ((puzzle, sol), w') /\
    solution (snapshot (w_heap w') sol) /\
    below (snapshot (w_heap w') puzzle) (snapshot (w_heap w') sol).
Proof.
  destruct (generateSudoku_solved_boards givens w)
    as (S & idxs & k2 & E & Hsol & Hr).
  pose proof (is9x9_clear_cells idxs S (proj1 Hsol) Hr) as HP.
  destruct (generated_grids_snapshots (w_heap w) S _ (proj1 Hsol) HP)
    as (Hs & Hp & _).
  do 3 eexists. split; [exact E|]. cbn [w_heap]. rewrite Hs, Hp.
  split; [exact Hsol|]. apply below_clear_cells; [apply Hsol|exact Hr].
Qed.

(** X11. Every puzzle returned by [generateSudoku] is solvable by
    [solveSudoku]: the call answers [solved = true] with a solved Sudoku
    that keeps the givens of the puzzle. *)
Theorem generated_puzzle_is_solvable givens w :
  exists puzzle sol w1 g' w2,
    generateSudoku givens w = Ok ((puzzle, sol), w1) /\
    solveSudoku puzzle w1 = Ok ((true, g'), w2) /\
    solution (snapshot (w_heap w2) g') /\
    below (snapshot (w_heap w1) puzzle) (snapshot (w_heap w2) g').
Proof.
  destruct (generateSudoku_solved_boards givens w)
    as (S & idxs & k2 & E & Hsol & Hr).
  pose proof (is9x9_clear_cells idxs S (proj1 Hsol) Hr) as HP.
  destruct (generated_grids_snapshots (w_heap w) S _ (proj1 Hsol) HP)
    as (_ & Hp & Hg).
  set (w1 := World ((w_heap w ++ S) ++ clear_cells S idxs) (w_rand w) k2)
    in *.
  destruct (solveSudoku_below_solution w1 (seq (length (w_heap w) + 9) 9) S)
    as (b' & E' & Hsol' & Hbel').
  - exact Hg.
  - exact Hsol.
  - cbn [w1 w_heap]. rewrite Hp.
    apply below_clear_cells; [apply Hsol|exact Hr].
  - do 5 eexists. split; [exact E|]. split; [exact E'|].
    cbn [w1 w_heap] in *. rewrite Hp in *.
    rewrite snapshot_fresh9 by apply Hsol'. now split.
Qed.


(** * Properties of the screen *)

(** ** Matrices of booleans *)

Lemma bool9x9_fresh : bool9x9 (repeat (repeat false 9) 9).
Proof.
  split; [reflexivity|]. intros row Hin.
  apply repeat_spec in Hin. now subst.
Qed.

Lemma mrow m r :
  bool9x9 m -> 0 <= r <= 8 ->
  exists row, index m r = Some row /\
              nth_error m (Z.to_nat r) = Some row /\ length row = 9%nat.
Proof.
  intros [Hlen Hrows] Hr.
  destruct (index_Some m r) as (row & H1 & H2); [lia|].
  exists row. repeat split; auto. apply Hrows. eapply nth_error_In; eauto.
Qed.

Lemma mask_set_mset m r c v :
  bool9x9 m -> in_grid r c -> mask_set m r c v = Ok (mset m r c v).
Proof.
  intros Hm [Hr Hc]. destruct (mrow m r Hm Hr) as (row & H1 & _ & Hlen).
  unfold mask_set, mset. rewrite H1.
  destruct (Z.ltb_spec c 0); [lia|].
  destruct (Nat.ltb_spec (Z.to_nat c) (length row)); [reflexivity|lia].
Qed.

Lemma bool9x9_mset m r c v :
  bool9x9 m -> in_grid r c -> bool9x9 (mset m r c v).
Proof.
  intros Hm [Hr Hc]. destruct (mrow m r Hm Hr) as (row & H1 & H2 & Hlen).
  destruct Hm as [Hl Hrows]. unfold mset. rewrite H1. split.
  - now rewrite upd_length.
  - intros row' Hin. apply In_nth_error in Hin as [n Hn].
    destruct (Nat.eq_dec (Z.to_nat r) n) as [<-|Hne].
    + rewrite nth_error_upd_eq in Hn by lia. injection Hn as <-.
      now rewrite upd_length.
    + rewrite nth_error_upd_neq in Hn by assumption.
      apply Hrows. eapply nth_error_In; eauto.
Qed.

Lemma mget_mset m r c v r' c' :
  bool9x9 m -> in_grid r c ->
  mget (mset m r c v) r' c' =
  if (r' =? r) && (c' =? c) then v else mget m r' c'.
Proof.
  intros Hm [Hr Hc]. destruct (mrow m r Hm Hr) as (row & H1 & H2 & Hlen).
  destruct Hm as [Hl _]. unfold mset. rewrite H1. unfold mget, index.
  destruct (Z.ltb_spec r' 0) as [Hneg|Hpos].
  { replace (r' =? r) with false by (symmetry; apply Z.eqb_neq; lia).
    reflexivity. }
  destruct (Z.eqb_spec r' r) as [->|Hne].
  - rewrite nth_error_upd_eq by lia. rewrite H2.
    destruct (Z.ltb_spec c' 0) as [Hcn|Hcp].
    { replace (c' =? c) with false by (symmetry; apply Z.eqb_neq; lia).
      reflexivity. }
    destruct (Z.eqb_spec c' c) as [->|Hcne]; cbn [andb].
    + now rewrite nth_error_upd_eq by lia.
    + now rewrite nth_error_upd_neq by lia.
  - cbn [andb]. now rewrite nth_error_upd_neq by lia.
Qed.

Lemma mask_at_mget m r c :
  bool9x9 m -> 0 <= r <= 8 -> mask_at m r c = Ok (mget m r c).
Proof.
  intros Hm Hr. destruct (mrow m r Hm Hr) as (row & H1 & _ & _).
  unfold mask_at, mget. now rewrite H1.
Qed.

Lemma mget_fresh r c : mget (repeat (repeat false 9) 9) r c = false.
Proof.
  unfold mget, index. destruct (r <? 0); [reflexivity|].
  destruct (nth_error _ (Z.to_nat r)) as [row|] eqn:E; [|reflexivity].
  apply nth_error_In, repeat_spec in E. subst.
  destruct (c <? 0); [reflexivity|].
  destruct (nth_error _ (Z.to_nat c)) as [x|] eqn:E; [|reflexivity].
  apply nth_error_In, repeat_spec in E. now subst.
Qed.

(** ** [invalidMask] *)

Lemma for_accM_fold {I S} (Inv : world -> Prop) (InvS : S -> Prop)
  (xs : list I) (body : I -> S -> M S) (step : I -> S -> S) :
  (forall x s w, In x xs -> Inv w -> InvS s ->
     exists w', body x s w = Ok (step x s, w') /\ Inv w' /\ InvS (step x s)) ->
  forall s w, Inv w -> InvS s ->
    exists w', for_accM xs body s w =
                 Ok (fold_left (fun s x => step x s) xs s, w') /\
               Inv w' /\ InvS (fold_left (fun s x => step x s) xs s).
Proof.
  induction xs as [|x t IH]; intros Hbody s w Hw Hs; simpl.
  - exists w. repeat split; assumption.
  - destruct (Hbody x s w (or_introl eq_refl) Hw Hs) as (w1 & E & Hw1 & Hs1).
    unfold bind at 1. rewrite E. apply IH; auto.
    intros y s2 w2 Hy. apply Hbody. now right.
Qed.

Lemma mget_mark_row b r cs : forall inv r' c',
  bool9x9 inv -> 0 <= r <= 8 -> (forall c, In c cs -> 0 <= c <= 8) ->
  bool9x9 (fold_left (fun s c => mark b r c s) cs inv) /\
  mget (fold_left (fun s c => mark b r c s) cs inv) r' c' =
  ((r' =? r) && existsb (Z.eqb c') cs && conflict_at b r c')
  || mget inv r' c'.
Proof.
  induction cs as [|c t IH]; intros inv r' c' Hinv Hr Hcs; simpl.
  - split; [assumption|]. now rewrite andb_false_r.
  - assert (Hc : 0 <= c <= 8) by (apply Hcs; now left).
    assert (Hinv1 : bool9x9 (mark b r c inv)).
    { unfold mark. destruct (conflict_at b r c); [|assumption].
      apply bool9x9_mset; [assumption|split; assumption]. }
    destruct (IH (mark b r c inv) r' c' Hinv1 Hr) as [H9 Hget].
    { intros x Hx. apply Hcs. now right. }
    split; [assumption|]. rewrite Hget. unfold mark.
    destruct (conflict_at b r c) eqn:Hcf.
    + rewrite mget_mset by (auto; split; assumption).
      destruct (Z.eqb_spec r' r) as [->|Hne]; cbn [andb];
        [|reflexivity].
      destruct (Z.eqb_spec c' c) as [->|Hcne]; cbn [andb orb].
      * rewrite Hcf. now rewrite orb_true_r.
      * reflexivity.
    + destruct (Z.eqb_spec c' c) as [->|Hcne]; cbn [orb]; [|reflexivity].
      rewrite Hcf, !andb_false_r. reflexivity.
Qed.

Lemma mget_mark_rows b rs : forall inv r' c',
  bool9x9 inv -> (forall r, In r rs -> 0 <= r <= 8) ->
  bool9x9 (fold_left (fun s r =>
             fold_left (fun s c => mark b r c s) (range 0 9) s) rs inv) /\
  mget (fold_left (fun s r =>
          fold_left (fun s c => mark b r c s) (range 0 9) s) rs inv) r' c' =
  (existsb (Z.eqb r') rs && existsb (Z.eqb c') (range 0 9)
   && conflict_at b r' c')
  || mget inv r' c'.
Proof.
  induction rs as [|r t IH]; intros inv r' c' Hinv Hrs;
    cbn [fold_left existsb].
  - split; [assumption|reflexivity].
  - assert (Hr : 0 <= r <= 8) by (apply Hrs; now left).
    assert (Hcs : forall c, In c (range 0 9) -> 0 <= c <= 8)
      by (intros c Hc; apply In_range in Hc; lia).
    destruct (mget_mark_row b r (range 0 9) inv r' c' Hinv Hr Hcs)
      as [H9 Hget].
    destruct (IH _ r' c' H9) as [H9' Hget'].
    { intros x Hx. apply Hrs. now right. }
    split; [assumption|]. rewrite Hget', Hget.
    destruct (Z.eqb_spec r' r) as [->|Hne]; cbn [orb andb].
    + destruct (existsb (Z.eqb r) t), (existsb (Z.eqb c') (range 0 9)),
        (conflict_at b r c'), (mget inv r c'); reflexivity.
    + reflexivity.
Qed.

(** [invalidMask] computes the matrix of [conflict_at]. *)
Lemma invalidMask_spec g w :
  grid9x9 (w_heap w) g = true ->
  exists mask extra,
    invalidMask g w =
      Ok (mask, World (w_heap w ++ extra) (w_rand w) (w_used w)) /\
    bool9x9 mask /\
    forall r c, in_grid r c ->
      mget mask r c = conflict_at (snapshot (w_heap w) g) r c.
Proof.
  intros Hg. destruct (grid9x9_inv _ _ Hg) as (Ha & Hb & Hlen).
  destruct w as [h rand k]. cbn [w_heap w_rand w_used] in *.
  set (b := snapshot h g) in *.
  set (Inv := fun w : world => exists extra, w = World (h ++ extra) rand k).
  assert (Hbody : forall r c inv w, in_grid r c -> Inv w -> bool9x9 inv ->
            exists w',
              (v <- reading (read_cell g r c) ;;
               if strict_eq v (Num 0) then ret inv
               else
                 copy <- cloneGrid g ;;
                 assign copy r c (Num 0) ;;;
                 ok <- reading (isValidPlacement copy r c v) ;;
                 if negb ok then lift (mask_set inv r c true)
                 else ret inv) w =
              Ok (mark b r c inv, w') /\ Inv w' /\ bool9x9 (mark b r c inv)).
  { intros r c inv w Hrc [extra ->] Hinv.
    pose proof (allocated_app h extra g Ha) as Ha'.
    pose proof (snapshot_app h extra g Ha) as Hs.
    unfold bind at 1. unfold reading at 1. cbn [w_heap].
    rewrite read_cell_snapshot by (auto; destruct Hrc; lia).
    rewrite Hs. fold b. unfold mark, conflict_at.
    fold (is_zero (bcell b r c)).
    destruct (is_zero (bcell b r c)); cbn [negb andb].
    - eexists. split; [reflexivity|]. split; [now exists extra|assumption].
    - unfold bind at 1. rewrite cloneGrid_spec by assumption.
      cbn [w_heap w_rand w_used]. rewrite Hs, Hlen. fold b.
      unfold bind at 1. rewrite assign_on_fresh by assumption.
      unfold bind at 1. unfold reading at 1. cbn [w_heap].
      rewrite check_fresh_grid
        by (try apply is9x9_bset; auto; apply Hrc).
      destruct (pvalid (bset b r c (Num 0)) r c (bcell b r c));
        cbn [negb].
      + eexists. split; [reflexivity|]. split; [|assumption].
        exists (extra ++ bset b r c (Num 0)). now rewrite app_assoc.
      + unfold lift. rewrite mask_set_mset by assumption.
        eexists. split; [reflexivity|]. split.
        * exists (extra ++ bset b r c (Num 0)). now rewrite app_assoc.
        * now apply bool9x9_mset. }
  assert (HInv : Inv (World h rand k)) by (exists []; now rewrite app_nil_r).
  destruct (for_accM_fold Inv bool9x9 (range 0 9)
              (fun r invalid =>
                 for_accM (range 0 9) (fun c invalid =>
                   v <- reading (read_cell g r c) ;;
                   if strict_eq v (Num 0) then ret invalid
                   else
                     copy <- cloneGrid g ;;
                     assign copy r c (Num 0) ;;;
                     ok <- reading (isValidPlacement copy r c v) ;;
                     if negb ok then lift (mask_set invalid r c true)
                     else ret invalid) invalid)
              (fun r s => fold_left (fun s c => mark b r c s) (range 0 9) s))
    with (s := repeat (repeat false 9) 9) (w := World h rand k)
    as (w' & E & [extra ->] & H9); [|assumption|apply bool9x9_fresh|].
  - intros r inv w Hr Hw Hinv. apply In_range in Hr.
    apply (for_accM_fold Inv bool9x9 (range 0 9) _
             (fun c s => mark b r c s)); [|assumption|assumption].
    intros c s w1 Hc Hw1 Hs. apply In_range in Hc.
    apply Hbody; [unfold in_grid; lia|assumption|assumption].
  - eexists _, extra. split; [exact E|]. split; [exact H9|].
    intros r c [Hr Hc].
    destruct (mget_mark_rows b (range 0 9) (repeat (repeat false 9) 9) r c
                bool9x9_fresh) as [_ Hget].
    { intros x Hx. apply In_range in Hx. lia. }
    rewrite Hget, mget_fresh, orb_false_r.
    assert (Hin : forall x, 0 <= x <= 8 -> existsb (Z.eqb x) (range 0 9) = true).
    { intros x Hx. apply existsb_exists. exists x.
      split; [apply In_range; lia|apply Z.eqb_refl]. }
    now rewrite !Hin by assumption.
Qed.

Lemma conflict_at_true b r c :
  is9x9 b = true -> in_grid r c ->
  conflict_at b r c = true <->
  bcell b r c <> Num 0 /\
  exists r' c', in_grid r' c' /\ peer r c r' c' /\
                bcell b r' c' = bcell b r c.
Proof.
  intros Hb Hrc. unfold conflict_at.
  rewrite pvalid_bset_self by assumption.
  rewrite andb_true_iff, !negb_true_iff, pvalid_false_iff by assumption.
  split.
  - intros [Hnz (r' & c' & Hrc' & Hp & Heq)]. split.
    + intros E. rewrite E in Hnz. discriminate.
    + exists r', c'. split; [assumption|]. split; [assumption|].
      now apply strict_eq_true.
  - intros [Hnz (r' & c' & Hrc' & Hp & Heq)]. split.
    + apply strict_eq_false. exact Hnz.
    + exists r', c'. split; [assumption|]. split; [assumption|].
      now apply strict_eq_true.
Qed.

(** X13. On a 9x9 grid the entry [(r, c)] of [invalidMask] is [true]
    exactly when the cell is filled and one of its peers holds the same
    value; [gridHasConflicts] answers [true] exactly when some entry of
    the mask is [true]; the computation leaves the arrays of the store
    as they were. *)
Theorem invalidMask_flags_conflicting_cells w g :
  grid9x9 (w_heap w) g = true ->
  exists mask w',
    invalidMask g w = Ok (mask, w') /\
    (exists fresh, w_heap w' = w_heap w ++ fresh) /\
    (forall r c, in_grid r c ->
       exists flag,
         mask_at mask r c = Ok flag /\
         (flag = true <->
          read_cell g r c (w_heap w) <> Ok (Num 0) /\
          exists r' c', in_grid r' c' /\ peer r c r' c' /\
            read_cell g r' c' (w_heap w) = read_cell g r c (w_heap w))) /\
    exists ans w2,
      gridHasConflicts g w = Ok (ans, w2) /\
      (ans = true <->
       exists r c, in_grid r c /\ mask_at mask r c = Ok true).
Proof.
  intros Hg. destruct (grid9x9_inv _ _ Hg) as (Ha & Hb & Hlen).
  destruct (invalidMask_spec g w Hg) as (mask & extra & E & H9 & Hget).
  destruct (gridHasConflicts_spec g w Hg) as [extra2 E2].
  assert (Hread : forall r c, in_grid r c ->
            read_cell g r c (w_heap w) =
            Ok (bcell (snapshot (w_heap w) g) r c)).
  { intros r c [Hr Hc]. apply read_cell_snapshot; auto. lia. }
  exists mask. eexists. split; [exact E|]. cbn [w_heap].
  split; [now exists extra|]. split.
  - intros r c Hrc. exists (mget mask r c).
    split; [apply mask_at_mget; [assumption|apply Hrc]|].
    rewrite Hget, conflict_at_true, Hread by assumption. split.
    + intros [Hnz (r' & c' & Hrc' & Hp & Heq)]. split; [congruence|].
      exists r', c'. rewrite Hread by assumption.
      split; [assumption|]. split; [assumption|]. congruence.
    + intros [Hnz (r' & c' & Hrc' & Hp & Heq)]. split; [congruence|].
      exists r', c'. rewrite Hread in Heq by assumption.
      split; [assumption|]. split; [assumption|]. congruence.
  - do 2 eexists. split; [exact E2|]. unfold has_conflicts. split.
    + intros H. apply existsb_exists in H as (r & Hr & H).
      apply existsb_exists in H as (c & Hc & H).
      apply In_range in Hr, Hc.
      assert (Hrc : in_grid r c) by (unfold in_grid; lia).
      exists r, c. split; [assumption|].
      rewrite mask_at_mget by (auto; apply Hrc). now rewrite Hget, H.
    + intros (r & c & Hrc & H).
      rewrite mask_at_mget in H by (auto; apply Hrc).
      injection H as H. rewrite Hget in H by assumption.
      apply existsb_exists. exists r.
      split; [apply In_range; destruct Hrc; lia|].
      apply existsb_exists. exists c.
      split; [apply In_range; destruct Hrc; lia|assumption].
Qed.

Lemma invalidMask_flags_conflicting_cells_witness :
  exists mask w',
    invalidMask first_rows (start stuck_board) = Ok (mask, w') /\
    (exists fresh, w_heap w' = w_heap (start stuck_board) ++ fresh) /\
    (forall r c, in_grid r c ->
       exists flag,
         mask_at mask r c = Ok flag /\
         (flag = true <->
          read_cell first_rows r c (w_heap (start stuck_board))
            <> Ok (Num 0) /\
          exists r' c', in_grid r' c' /\ peer r c r' c' /\
            read_cell first_rows r' c' (w_heap (start stuck_board)) =
            read_cell first_rows r c (w_heap (start stuck_board)))) /\
    exists ans w2,
      gridHasConflicts first_rows (start stuck_board) = Ok (ans, w2) /\
      (ans = true <->
       exists r c, in_grid r c /\ mask_at mask r c = Ok true).
Proof.
  apply (invalidMask_flags_conflicting_cells (start stuck_board) first_rows).
  reflexivity.
Defined.

(** X14. Flags of [invalidMask] come in pairs: a flagged cell of a 9x9
    grid has a peer that holds the same value and is flagged too. *)
Theorem invalidMask_flags_come_in_pairs w g mask r c :
  grid9x9 (w_heap w) g = true ->
  (exists w', invalidMask g w = Ok (mask, w')) ->
  in_grid r c -> mask_at mask r c = Ok true ->
  exists r' c',
    in_grid r' c' /\ peer r c r' c' /\
    mask_at mask r' c' = Ok true /\
    read_cell g r' c' (w_heap w) = read_cell g r c (w_heap w).
Proof.
  intros Hg [w' E] Hrc Hflag.
  destruct (grid9x9_inv _ _ Hg) as (Ha & Hb & Hlen).
  destruct (invalidMask_spec g w Hg) as (mask2 & extra & E2 & H9 & Hget).
  rewrite E2 in E. injection E as -> _.
  rewrite mask_at_mget in Hflag by (auto; apply Hrc).
  injection Hflag as Hflag. rewrite Hget in Hflag by assumption.
  apply conflict_at_true in Hflag as [Hnz (r' & c' & Hrc' & Hp & Heq)];
    try assumption.
  exists r', c'. split; [assumption|]. split; [assumption|]. split.
  - rewrite mask_at_mget by (auto; apply Hrc'). f_equal.
    rewrite Hget by assumption. apply conflict_at_true; try assumption.
    split; [congruence|]. exists r, c.
    split; [assumption|]. split; [now apply peer_sym|congruence].
  - rewrite !read_cell_snapshot
      by (auto; destruct Hrc, Hrc'; lia). congruence.
Qed.

Lemma invalidMask_flags_come_in_pairs_witness :
  exists r' c',
    in_grid r' c' /\ peer 2 7 r' c' /\
    mask_at (repeat (repeat true 9) 9) r' c' = Ok true /\
    read_cell first_rows r' c' (w_heap (start fives_board)) =
    read_cell first_rows 2 7 (w_heap (start fives_board)).
Proof.
  apply (invalidMask_flags_come_in_pairs (start fives_board) first_rows
           (repeat (repeat true 9) 9) 2 7);
    [reflexivity | eexists; vm_compute; reflexivity
     | unfold in_grid; lia | reflexivity].
Defined.

(** ** [setCellValue] *)

Lemma setCellValue_spec row col v st w :
  grid9x9 (w_heap w) (st_grid st) = true -> in_grid row col ->
  setCellValue row col v st w =
  Ok (Screen (seq (length (w_heap w)) 9) (st_givensMask st) (st_toast st),
      World (w_heap w ++ bset (snapshot (w_heap w) (st_grid st)) row col
                           (Num v))
        (w_rand w) (w_used w)).
Proof.
  intros Hg Hrc. destruct (grid9x9_inv _ _ Hg) as (Ha & Hb & Hlen).
  unfold setCellValue. unfold bind at 1.
  rewrite (cloneGrid_spec _ w Ha), Hlen. unfold bind at 1.
  now rewrite assign_on_fresh.
Qed.

(** X15. The state update made by [setCellValue] on a 9x9 grid installs
    a new grid that holds [nextVal] at [(row, col)] and the previous
    contents everywhere else; the previous grid and every other array
    of the store are left as they were, and the mask and the message
    are kept. *)
Theorem setCellValue_changes_one_cell row col v st w :
  grid9x9 (w_heap w) (st_grid st) = true -> in_grid row col ->
  exists st' w',
    setCellValue row col v st w = Ok (st', w') /\
    (exists fresh, w_heap w' = w_heap w ++ fresh) /\
    (forall l, In l (st_grid st') -> ~ In l (st_grid st)) /\
    st_givensMask st' = st_givensMask st /\ st_toast st' = st_toast st /\
    forall r c, in_grid r c ->
      read_cell (st_grid st') r c (w_heap w') =
      if (r =? row) && (c =? col) then Ok (Num v)
      else read_cell (st_grid st) r c (w_heap w).
Proof.
  intros Hg Hrc. destruct (grid9x9_inv _ _ Hg) as (Ha & Hb & Hlen).
  rewrite (setCellValue_spec row col v st w Hg Hrc).
  do 2 eexists. split; [reflexivity|]. cbn [w_heap st_grid st_givensMask st_toast].
  split; [eexists; reflexivity|]. split.
  { intros l Hl Hin. apply in_seq in Hl.
    unfold allocated in Ha. rewrite forallb_forall in Ha.
    specialize (Ha l Hin). apply Nat.ltb_lt in Ha. lia. }
  split; [reflexivity|]. split; [reflexivity|].
  intros r c Hrc'.
  rewrite read_fresh_grid by (try apply is9x9_bset; assumption).
  rewrite (read_cell_snapshot (w_heap w)) by (auto; destruct Hrc'; lia).
  destruct (Z.eqb_spec r row) as [->|Hr];
    [destruct (Z.eqb_spec c col) as [->|Hc]|]; cbn [andb]; f_equal.
  - now apply bcell_bset_same.
  - apply bcell_bset_other; auto.
  - apply bcell_bset_other; auto.
Qed.

Lemma setCellValue_changes_one_cell_witness :
  exists st' w',
    setCellValue 0 0 7 (Screen first_rows [] (Toast "" "")) (start open_board)
      = Ok (st', w') /\
    (exists fresh, w_heap w' = w_heap (start open_board) ++ fresh) /\
    (forall l, In l (st_grid st') ->
       ~ In l (st_grid (Screen first_rows [] (Toast "" "")))) /\
    st_givensMask st' = st_givensMask (Screen first_rows [] (Toast "" "")) /\
    st_toast st' = st_toast (Screen first_rows [] (Toast "" "")) /\
    forall r c, in_grid r c ->
      read_cell (st_grid st') r c (w_heap w') =
      if (r =? 0) && (c =? 0) then Ok (Num 7)
      else read_cell (st_grid (Screen first_rows [] (Toast "" ""))) r c
             (w_heap (start open_board)).
Proof.
  apply (setCellValue_changes_one_cell 0 0 7
           (Screen first_rows [] (Toast "" "")) (start open_board));
    [reflexivity | unfold in_grid; lia].
Defined.

(** ** [handleKeyDown] *)

Lemma read_after_write_fresh h g row col v r c :
  grid9x9 h g = true -> in_grid row col -> in_grid r c ->
  read_cell (seq (length h) 9) r c (h ++ bset (snapshot h g) row col v) =
  if (r =? row) && (c =? col) then Ok v else read_cell g r c h.
Proof.
  intros Hg Hrc Hrc'. destruct (grid9x9_inv _ _ Hg) as (Ha & Hb & Hlen).
  rewrite read_fresh_grid by (try apply is9x9_bset; assumption).
  rewrite (read_cell_snapshot h) by (auto; destruct Hrc'; lia).
  destruct (Z.eqb_spec r row) as [->|Hr];
    [destruct (Z.eqb_spec c col) as [->|Hc]|]; cbn [andb]; f_equal.
  - now apply bcell_bset_same.
  - apply bcell_bset_other; auto.
  - apply bcell_bset_other; auto.
Qed.

Lemma digit_key_range key d : digit_key key = Some d -> 1 <= d <= 9.
Proof.
  unfold digit_key. destruct key as [|ch [|? ?]]; try discriminate.
  destruct (Z.leb_spec 49 (Z.of_nat (Ascii.nat_of_ascii ch))) as [Hlo|Hlo];
    destruct (Z.leb_spec (Z.of_nat (Ascii.nat_of_ascii ch)) 57) as [Hhi|Hhi];
    cbn [andb]; try discriminate.
  intros E. injection E as <-. lia.
Qed.

Lemma digit_key_not_command key d :
  digit_key key = Some d ->
  (String.eqb key "ArrowUp" || String.eqb key "ArrowDown" ||
   String.eqb key "ArrowLeft" || String.eqb key "ArrowRight") = false /\
  (String.eqb key "Backspace" || String.eqb key "Delete" ||
   String.eqb key "0") = false.
Proof.
  intros H. destruct key as [|ch [|? ?]]; try discriminate.
  cbn [String.eqb]. split.
  - repeat match goal with
           | |- context [Ascii.eqb ch ?x] => destruct (Ascii.eqb ch x)
           end; reflexivity.
  - destruct (Ascii.eqb_spec ch
                (Ascii.Ascii false false false false true true false false))
      as [->|Hne];
      [vm_compute in H; discriminate|].
    repeat match goal with
           | |- context [Ascii.eqb ch ?x] => destruct (Ascii.eqb ch x)
           end; reflexivity.
Qed.

Lemma digit_keys_digit_key key d :
  In (key, d) digit_keys -> digit_key key = Some d.
Proof.
  intros H. unfold digit_keys in H.
  repeat (destruct H as [H|H]; [injection H as <- <-; reflexivity|]).
  destruct H.
Qed.

(** The branch of [handleKeyDown] that writes a value. *)
Lemma keydown_write row col v st w (reqs : list request) :
  grid9x9 (w_heap w) (st_grid st) = true -> in_grid row col ->
  mask_at (st_givensMask st) row col = Ok false ->
  (given <- lift (mask_at (st_givensMask st) row col) ;;
   if given then ret (st, [PreventDefault])
   else st' <- setCellValue row col v st ;; ret (st', reqs)) w =
  Ok ((Screen (seq (length (w_heap w)) 9) (st_givensMask st) (st_toast st),
       reqs),
      World (w_heap w ++ bset (snapshot (w_heap w) (st_grid st)) row col
                           (Num v))
        (w_rand w) (w_used w)).
Proof.
  intros Hg Hrc Hm. unfold bind at 1. unfold lift. rewrite Hm.
  unfold bind at 1. now rewrite setCellValue_spec.
Qed.

(** X16. An arrow key changes nothing in the state and asks to focus a
    cell of the grid, whatever the cell it is pressed in; pressed in a
    cell of the grid, it moves the focus one cell in its direction, and
    keeps it where it is at the edge. *)
Theorem handleKeyDown_arrows_move_focus key row col st w :
  In key arrow_keys ->
  exists nr nc,
    handleKeyDown key row col st w =
      Ok ((st, [PreventDefault; Focus nr nc]), w) /\
    in_grid nr nc /\
    (in_grid row col ->
     (key = "ArrowUp"%string ->
        nc = col /\ nr = if row =? 0 then 0 else row - 1) /\
     (key = "ArrowDown"%string ->
        nc = col /\ nr = if row =? 8 then 8 else row + 1) /\
     (key = "ArrowLeft"%string ->
        nr = row /\ nc = if col =? 0 then 0 else col - 1) /\
     (key = "ArrowRight"%string ->
        nr = row /\ nc = if col =? 8 then 8 else col + 1)).
Proof.
  intros Hkey. unfold arrow_keys in Hkey.
  assert (Hmove : forall dr dc,
            in_grid (Z.max 0 (Z.min 8 (row + dr)))
                    (Z.max 0 (Z.min 8 (col + dc))))
    by (intros dr dc; unfold in_grid; lia).
  destruct Hkey as [<-|[<-|[<-|[<-|[]]]]].
  - exists (Z.max 0 (Z.min 8 (row + -1))), (Z.max 0 (Z.min 8 (col + 0))).
    split; [reflexivity|]. split; [apply Hmove|].
    intros [Hr Hc]. split; [|split; [|split]]; intros E;
      try discriminate E; destruct (Z.eqb_spec row 0); lia.
  - exists (Z.max 0 (Z.min 8 (row + 1))), (Z.max 0 (Z.min 8 (col + 0))).
    split; [reflexivity|]. split; [apply Hmove|].
    intros [Hr Hc]. split; [|split; [|split]]; intros E;
      try discriminate E; destruct (Z.eqb_spec row 8); lia.
  - exists (Z.max 0 (Z.min 8 (row + 0))), (Z.max 0 (Z.min 8 (col + -1))).
    split; [reflexivity|]. split; [apply Hmove|].
    intros [Hr Hc]. split; [|split; [|split]]; intros E;
      try discriminate E; destruct (Z.eqb_spec col 0); lia.
  - exists (Z.max 0 (Z.min 8 (row + 0))), (Z.max 0 (Z.min 8 (col + 1))).
    split; [reflexivity|]. split; [apply Hmove|].
    intros [Hr Hc]. split; [|split; [|split]]; intros E;
      try discriminate E; destruct (Z.eqb_spec col 8); lia.
Qed.

Lemma handleKeyDown_arrows_move_focus_witness :
  exists nr nc,
    handleKeyDown "ArrowDown" 8 3 (Screen first_rows [] (Toast "" ""))
      (start open_board) =
      Ok ((Screen first_rows [] (Toast "" ""), [PreventDefault; Focus nr nc]),
          start open_board) /\
    in_grid nr nc /\
    (in_grid 8 3 ->
     ("ArrowDown"%string = "ArrowUp"%string ->
        nc = 3 /\ nr = if 8 =? 0 then 0 else 8 - 1) /\
     ("ArrowDown"%string = "ArrowDown"%string ->
        nc = 3 /\ nr = if 8 =? 8 then 8 else 8 + 1) /\
     ("ArrowDown"%string = "ArrowLeft"%string ->
        nr = 8 /\ nc = if 3 =? 0 then 0 else 3 - 1) /\
     ("ArrowDown"%string = "ArrowRight"%string ->
        nr = 8 /\ nc = if 3 =? 8 then 8 else 3 + 1)).
Proof.
  apply (handleKeyDown_arrows_move_focus "ArrowDown" 8 3
           (Screen first_rows [] (Toast "" "")) (start open_board)).
  unfold arrow_keys. simpl. tauto.
Defined.

(** X17. No key changes a given cell: when the mask marks [(row, col)]
    as given, [handleKeyDown] returns the state and the store it was
    called with, for every key. *)
Theorem handleKeyDown_leaves_given_cells key row col st w :
  mask_at (st_givensMask st) row col = Ok true ->
  exists reqs, handleKeyDown key row col st w = Ok ((st, reqs), w).
Proof.
  intros Hm. unfold handleKeyDown.
  destruct (String.eqb key "ArrowUp" || String.eqb key "ArrowDown" ||
            String.eqb key "ArrowLeft" || String.eqb key "ArrowRight");
    [eexists; reflexivity|].
  destruct (String.eqb key "Backspace" || String.eqb key "Delete" ||
            String.eqb key "0").
  - unfold bind at 1. unfold lift. rewrite Hm. eexists; reflexivity.
  - destruct (digit_key key); [|eexists; reflexivity].
    unfold bind at 1. unfold lift. rewrite Hm. eexists; reflexivity.
Qed.

Lemma handleKeyDown_leaves_given_cells_witness :
  exists reqs,
    handleKeyDown "7" 1 2
      (Screen first_rows (repeat (repeat true 9) 9) (Toast "" ""))
      (start open_board) =
    Ok ((Screen first_rows (repeat (repeat true 9) 9) (Toast "" ""), reqs),
        start open_board).
Proof.
  apply (handleKeyDown_leaves_given_cells "7" 1 2
           (Screen first_rows (repeat (repeat true 9) 9) (Toast "" ""))
           (start open_board)).
  reflexivity.
Defined.

(** X18. A digit key 1..9 pressed in a cell of a 9x9 grid that is not
    given installs a new grid holding that digit in the cell and the
    previous contents elsewhere, keeps the mask, leaves the previous
    grid as it was, and asks to focus the next cell in row-major order
    (the last cell keeps the focus). *)
Theorem handleKeyDown_digit_fills_cell key d row col st w :
  In (key, d) digit_keys ->
  grid9x9 (w_heap w) (st_grid st) = true -> in_grid row col ->
  mask_at (st_givensMask st) row col = Ok false ->
  exists st' w' nr nc,
    handleKeyDown key row col st w =
      Ok ((st', [PreventDefault; Focus nr nc]), w') /\
    in_grid nr nc /\ 9 * nr + nc = Z.min 80 (9 * row + col + 1) /\
    st_givensMask st' = st_givensMask st /\
    (exists fresh, w_heap w' = w_heap w ++ fresh) /\
    forall r c, in_grid r c ->
      read_cell (st_grid st') r c (w_heap w') =
      if (r =? row) && (c =? col) then Ok (Num d)
      else read_cell (st_grid st) r c (w_heap w).
Proof.
  intros Hkey Hg Hrc Hm. apply digit_keys_digit_key in Hkey.
  destruct (digit_key_not_command key d Hkey) as [H1 H2].
  unfold handleKeyDown. rewrite H1, H2, Hkey. cbv zeta.
  rewrite (keydown_write row col d st w _ Hg Hrc Hm).
  do 4 eexists. split; [reflexivity|].
  cbn [st_grid st_givensMask w_heap].
  assert (Hflat : 0 <= Z.min 80 (row * 9 + col + 1) <= 80)
    by (unfold in_grid in Hrc; lia).
  split; [|split; [|split; [reflexivity|split; [eexists; reflexivity|]]]].
  - rewrite Z.rem_mod_nonneg by lia. unfold in_grid.
    Z.div_mod_to_equations. lia.
  - rewrite Z.rem_mod_nonneg by lia. Z.div_mod_to_equations. lia.
  - intros r c Hrc'. now apply read_after_write_fresh.
Qed.

Lemma handleKeyDown_digit_fills_cell_witness :
  exists st' w' nr nc,
    handleKeyDown "5" 0 8
      (Screen first_rows (repeat (repeat false 9) 9) (Toast "" ""))
      (start open_board) =
      Ok ((st', [PreventDefault; Focus nr nc]), w') /\
    in_grid nr nc /\ 9 * nr + nc = Z.min 80 (9 * 0 + 8 + 1) /\
    st_givensMask st' =
      st_givensMask
        (Screen first_rows (repeat (repeat false 9) 9) (Toast "" "")) /\
    (exists fresh, w_heap w' = w_heap (start open_board) ++ fresh) /\
    forall r c, in_grid r c ->
      read_cell (st_grid st') r c (w_heap w') =
      if (r =? 0) && (c =? 8) then Ok (Num 5)
      else read_cell
             (st_grid (Screen first_rows (repeat (repeat false 9) 9)
                         (Toast "" "")))
             r c (w_heap (start open_board)).
Proof.
  apply (handleKeyDown_digit_fills_cell "5" 5 0 8
           (Screen first_rows (repeat (repeat false 9) 9) (Toast "" ""))
           (start open_board));
    [unfold digit_keys; simpl; tauto | reflexivity | unfold in_grid; lia
     | reflexivity].
Defined.

(** X19. Backspace, Delete or 0 pressed in a cell of a 9x9 grid that is
    not given installs a new grid with that cell emptied and the
    previous contents elsewhere; the mask is kept and no focus change
    is asked. *)
Theorem handleKeyDown_clear_empties_cell key row col st w :
  In key clear_keys ->
  grid9x9 (w_heap w) (st_grid st) = true -> in_grid row col ->
  mask_at (st_givensMask st) row col = Ok false ->
  exists st' w',
    handleKeyDown key row col st w = Ok ((st', [PreventDefault]), w') /\
    st_givensMask st' = st_givensMask st /\
    (exists fresh, w_heap w' = w_heap w ++ fresh) /\
    forall r c, in_grid r c ->
      read_cell (st_grid st') r c (w_heap w') =
      if (r =? row) && (c =? col) then Ok (Num 0)
      else read_cell (st_grid st) r c (w_heap w).
Proof.
  intros Hkey Hg Hrc Hm. unfold clear_keys in Hkey.
  assert (E : handleKeyDown key row col st w =
              (given <- lift (mask_at (st_givensMask st) row col) ;;
               if given then ret (st, [PreventDefault])
               else st' <- setCellValue row col 0 st ;;
                    ret (st', [PreventDefault])) w)
    by (destruct Hkey as [<-|[<-|[<-|[]]]]; reflexivity).
  rewrite E, (keydown_write row col 0 st w _ Hg Hrc Hm).
  do 2 eexists. split; [reflexivity|].
  cbn [st_grid st_givensMask w_heap].
  split; [reflexivity|]. split; [eexists; reflexivity|].
  intros r c Hrc'. now apply read_after_write_fresh.
Qed.

Lemma handleKeyDown_clear_empties_cell_witness :
  exists st' w',
    handleKeyDown "Delete" 1 1
      (Screen first_rows (repeat (repeat false 9) 9) (Toast "" ""))
      (start open_board) = Ok ((st', [PreventDefault]), w') /\
    st_givensMask st' =
      st_givensMask
        (Screen first_rows (repeat (repeat false 9) 9) (Toast "" "")) /\
    (exists fresh, w_heap w' = w_heap (start open_board) ++ fresh) /\
    forall r c, in_grid r c ->
      read_cell (st_grid st') r c (w_heap w') =
      if (r =? 1) && (c =? 1) then Ok (Num 0)
      else read_cell
             (st_grid (Screen first_rows (repeat (repeat false 9) 9)
                         (Toast "" "")))
             r c (w_heap (start open_board)).
Proof.
  apply (handleKeyDown_clear_empties_cell "Delete" 1 1
           (Screen first_rows (repeat (repeat false 9) 9) (Toast "" ""))
           (start open_board));
    [unfold clear_keys; simpl; tauto | reflexivity | unfold in_grid; lia
     | reflexivity].
Defined.

(** ** Grids of the data model *)

Lemma grid9x9_app h extra g :
  grid9x9 h g = true -> grid9x9 (h ++ extra) g = true.
Proof.
  intros Hg. destruct (grid9x9_inv _ _ Hg) as (Ha & Hb & _).
  unfold grid9x9. rewrite allocated_app, snapshot_app by assumption.
  now rewrite Hb.
Qed.

Lemma forallb_cells (p : jsval -> bool) b :
  is9x9 b = true ->
  (forall r c, in_grid r c -> p (bcell b r c) = true) ->
  forallb (forallb p) b = true.
Proof.
  intros Hb H. destruct (is9x9_inv b Hb) as [Hlen Hrows].
  apply forallb_forall. intros row Hrow.
  apply forallb_forall. intros v Hv.
  apply In_nth_error in Hrow as [n Hn]. apply In_nth_error in Hv as [m Hm].
  assert (Hn' : (n < 9)%nat)
    by (rewrite <- Hlen; apply nth_error_Some; congruence).
  assert (Hm' : (m < 9)%nat).
  { rewrite <- (Hrows row (nth_error_In _ _ Hn)). apply nth_error_Some.
    congruence. }
  assert (Hrc : in_grid (Z.of_nat n) (Z.of_nat m)) by (unfold in_grid; lia).
  specialize (H _ _ Hrc).
  assert (E : bcell b (Z.of_nat n) (Z.of_nat m) = v).
  { unfold bcell, index.
    destruct (Z.ltb_spec (Z.of_nat n) 0); [lia|].
    destruct (Z.ltb_spec (Z.of_nat m) 0); [lia|].
    now rewrite !Nat2Z.id, Hn, Hm. }
  now rewrite E in H.
Qed.

Lemma wf_grid_fresh h b :
  is9x9 b = true ->
  (forall r c, in_grid r c -> digit_or_zero (bcell b r c) = true) ->
  wf_grid (h ++ b) (seq (length h) 9) = true.
Proof.
  intros Hb H. unfold wf_grid. rewrite grid9x9_fresh by assumption.
  rewrite snapshot_fresh9 by assumption. now apply forallb_cells.
Qed.

Lemma wf_grid_app h extra g :
  wf_grid h g = true -> wf_grid (h ++ extra) g = true.
Proof.
  unfold wf_grid. intros H. apply andb_true_iff in H as [Hg Hd].
  destruct (grid9x9_inv _ _ Hg) as (Ha & _ & _).
  rewrite grid9x9_app, snapshot_app by assumption. exact Hd.
Qed.

Lemma digit_or_zero_digit v :
  digit_or_zero v = true -> is_zero v = false ->
  exists z, 1 <= z <= 9 /\ v = Num z.
Proof.
  destruct v as [z|]; [|discriminate]. intros H Hz. exists z.
  split; [|reflexivity].
  unfold digit_or_zero in H. apply andb_true_iff in H as [H1 H2].
  apply Z.leb_le in H1, H2.
  assert (z <> 0) by (intros ->; discriminate Hz). lia.
Qed.

Lemma solution_digit_or_zero G r c :
  solution G -> in_grid r c -> digit_or_zero (bcell G r c) = true.
Proof.
  intros (_ & Hd & _) Hrc. destruct (Hd r c Hrc) as (v & Hv & ->).
  unfold digit_or_zero. apply andb_true_iff. split; apply Z.leb_le; lia.
Qed.

(** A successful search from a clash-free grid of the data model ends
    on a solved Sudoku above that grid. *)
Lemma psearch_true_solution_wf pcands fuel b k b' k' :
  (forall k v, In v (fst (pcands k)) -> 1 <= v <= 9) ->
  is9x9 b = true ->
  (forall r c, in_grid r c -> digit_or_zero (bcell b r c) = true) ->
  clash_free b ->
  psearch pcands fuel b k = Some (true, b', k') ->
  solution b' /\ below b b'.
Proof.
  intros Hd Hb Hwf Hcf P.
  pose proof (psearch_true_clash_free pcands fuel b k b' k' Hd Hb Hcf P)
    as Hcf'.
  apply (psearch_sound pcands Hd) in P as (Hb' & Hfull & Hext & Hdig & _);
    [|assumption].
  assert (Hbel' : below b b').
  { intros r c Hrc.
    destruct (is_zero (bcell b r c)) eqn:Hz.
    - left. now apply is_zero_true.
    - right. symmetry. now apply Hext. }
  split; [|assumption]. split; [assumption|]. split.
  - intros r c Hrc. destruct (is_zero (bcell b r c)) eqn:Hz.
    + apply Hdig; [assumption|]. now apply is_zero_true.
    + rewrite (Hext r c Hrc Hz).
      apply digit_or_zero_digit; [now apply Hwf|assumption].
  - intros r c r' c' Hrc Hrc' Hp. apply Hcf'; auto.
Qed.

(** ** [handleSolve] *)

(** [handleSolve] in one equation: the conflict check, then the search
    on a copy of the grid. *)
Lemma handleSolve_spec st w :
  grid9x9 (w_heap w) (st_grid st) = true ->
  exists extra res b',
    psearch ascending 82 (snapshot (w_heap w) (st_grid st)) (w_used w) =
      Some (res, b', w_used w) /\
    is9x9 b' = true /\
    handleSolve st w =
      if has_conflicts (snapshot (w_heap w) (st_grid st)) then
        Ok (Screen (st_grid st) (st_givensMask st)
              (Toast "Fix conflicts before solving." "error"),
            World (w_heap w ++ extra) (w_rand w) (w_used w))
      else if res then
        Ok (Screen (seq (length (w_heap w ++ extra)) 9) (st_givensMask st)
              (Toast "Solved." "success"),
            World ((w_heap w ++ extra) ++ b') (w_rand w) (w_used w))
      else
        Ok (Screen (st_grid st) (st_givensMask st)
              (Toast "No solution found. Check the puzzle inputs." "error"),
            World ((w_heap w ++ extra) ++ b') (w_rand w) (w_used w)).
Proof.
  intros Hg. destruct (grid9x9_inv _ _ Hg) as (Ha & Hb & Hlen).
  destruct (gridHasConflicts_spec _ _ Hg) as [extra E].
  pose proof (grid9x9_app _ extra _ Hg) as Hg1.
  destruct (solveSudoku_fuel_outcome 82 (st_grid st)
              (World (w_heap w ++ extra) (w_rand w) (w_used w)) Hg1)
    as (res & b' & P & E' & Hb').
  { cbn [w_heap]. rewrite snapshot_app by assumption.
    pose proof (count_empty_le _ Hb). lia. }
  cbn [w_heap w_rand w_used] in P, E'.
  rewrite snapshot_app in P by assumption.
  exists extra, res, b'. split; [exact P|]. split; [exact Hb'|].
  unfold handleSolve. unfold bind at 1. rewrite E.
  destruct (has_conflicts (snapshot (w_heap w) (st_grid st)));
    [reflexivity|].
  unfold bind at 1. unfold solveSudoku. rewrite E'.
  destruct res; reflexivity.
Qed.

(** [handleSolve] on a grid that lies below a solved Sudoku. *)
Lemma handleSolve_below_solution st w G :
  grid9x9 (w_heap w) (st_grid st) = true ->
  solution G -> below (snapshot (w_heap w) (st_grid st)) G ->
  exists extra b',
    handleSolve st w =
      Ok (Screen (seq (length (w_heap w ++ extra)) 9) (st_givensMask st)
            (Toast "Solved." "success"),
          World ((w_heap w ++ extra) ++ b') (w_rand w) (w_used w)) /\
    solution b' /\ below (snapshot (w_heap w) (st_grid st)) b'.
Proof.
  intros Hg HG Hbel. destruct (grid9x9_inv _ _ Hg) as (Ha & Hb & Hlen).
  destruct (handleSolve_spec st w Hg) as (extra & res & b' & P & Hb' & E).
  assert (Hc : has_conflicts (snapshot (w_heap w) (st_grid st)) = false).
  { apply has_conflicts_false; [assumption|].
    now apply (below_clash_free _ G). }
  rewrite Hc in E.
  destruct (psearch_complete ascending ascending_digits ascending_all G 82
              (snapshot (w_heap w) (st_grid st)) (w_used w) HG Hb Hbel)
    as (b2 & k2 & P2).
  { pose proof (count_empty_le _ Hb). lia. }
  rewrite P in P2. injection P2 as -> <- _.
  exists extra, b'. split; [exact E|].
  exact (psearch_true_solution ascending 82 _ (w_used w) b' (w_used w) G
           ascending_digits Hb HG Hbel P).
Qed.

(** X20. On a 9x9 grid [handleSolve] always returns; it keeps the mask
    of givens, consumes no random draw and changes no array of the
    store; it reports conflicts exactly when [gridHasConflicts] answers
    true on the grid, and it installs a new grid only together with the
    message Solved: with either error message the grid of the state is
    the one it was called with. *)
Theorem handleSolve_keeps_grid_unless_solved st w :
  grid9x9 (w_heap w) (st_grid st) = true ->
  exists st' w',
    handleSolve st w = Ok (st', w') /\
    st_givensMask st' = st_givensMask st /\
    (exists fresh, w_heap w' = w_heap w ++ fresh) /\
    w_used w' = w_used w /\
    (st_toast st' = Toast "Fix conflicts before solving." "error" <->
     exists w1, gridHasConflicts (st_grid st) w = Ok (true, w1)) /\
    (st_toast st' = Toast "Solved." "success" \/
     st_grid st' = st_grid st /\
     (st_toast st' = Toast "Fix conflicts before solving." "error" \/
      st_toast st' =
        Toast "No solution found. Check the puzzle inputs." "error")).
Proof.
  intros Hg.
  destruct (handleSolve_spec st w Hg) as (extra & res & b' & _ & _ & E).
  destruct (gridHasConflicts_spec _ _ Hg) as [extra' Ec].
  rewrite Ec.
  destruct (has_conflicts (snapshot (w_heap w) (st_grid st)));
    [|destruct res]; do 2 eexists; (split; [exact E|]);
    cbn [st_givensMask st_grid st_toast w_heap w_used];
    (split; [reflexivity|]);
    (split; [first [now exists extra | exists (extra ++ b');
                                       now rewrite app_assoc]|]);
    (split; [reflexivity|]); split.
  - split; [eauto|reflexivity].
  - right. split; [reflexivity|now left].
  - split; [discriminate|]. intros [w1 H]. discriminate H.
  - now left.
  - split; [discriminate|]. intros [w1 H]. discriminate H.
  - right. split; [reflexivity|now right].
Qed.

Lemma handleSolve_keeps_grid_unless_solved_witness :
  exists st' w',
    handleSolve (Screen first_rows [] (Toast "" "")) (start stuck_board) =
      Ok (st', w') /\
    st_givensMask st' = st_givensMask (Screen first_rows [] (Toast "" "")) /\
    (exists fresh, w_heap w' = w_heap (start stuck_board) ++ fresh) /\
    w_used w' = w_used (start stuck_board) /\
    (st_toast st' = Toast "Fix conflicts before solving." "error" <->
     exists w1,
       gridHasConflicts (st_grid (Screen first_rows [] (Toast "" "")))
         (start stuck_board) = Ok (true, w1)) /\
    (st_toast st' = Toast "Solved." "success" \/
     st_grid st' = st_grid (Screen first_rows [] (Toast "" "")) /\
     (st_toast st' = Toast "Fix conflicts before solving." "error" \/
      st_toast st' =
        Toast "No solution found. Check the puzzle inputs." "error")).
Proof.
  apply (handleSolve_keeps_grid_unless_solved
           (Screen first_rows [] (Toast "" "")) (start stuck_board)).
  reflexivity.
Defined.

(** X21. On a grid of the data model (9x9, entries in 0..9)
    [handleSolve] shows Solved exactly when the grid can be completed to
    a solved Sudoku, and the grid it then installs is such a
    completion: a solved Sudoku that keeps every filled cell. *)
Theorem handleSolve_solves_iff_solvable st w :
  wf_grid (w_heap w) (st_grid st) = true ->
  exists st' w',
    handleSolve st w = Ok (st', w') /\
    (st_toast st' = Toast "Solved." "success" <->
     exists G, solution G /\ below (snapshot (w_heap w) (st_grid st)) G) /\
    (st_toast st' = Toast "Solved." "success" ->
     solution (snapshot (w_heap w') (st_grid st')) /\
     below (snapshot (w_heap w) (st_grid st))
           (snapshot (w_heap w') (st_grid st'))).
Proof.
  intros Hwf. destruct (wf_grid_inv _ _ Hwf) as [Hg Hd].
  destruct (grid9x9_inv _ _ Hg) as (Ha & Hb & Hlen).
  destruct (handleSolve_spec st w Hg) as (extra & res & b' & P & Hb' & E).
  destruct (has_conflicts (snapshot (w_heap w) (st_grid st))) eqn:Hc;
    [|destruct res].
  - do 2 eexists. split; [exact E|]. cbn [st_toast]. split.
    + split; [discriminate|]. intros (G & HG & Hbel).
      pose proof (below_clash_free _ G HG Hbel) as Hcf.
      apply has_conflicts_false in Hcf; [congruence|assumption].
    + discriminate.
  - apply has_conflicts_false in Hc; [|assumption].
    destruct (psearch_true_solution_wf ascending 82 _ _ _ _
                ascending_digits Hb Hd Hc P) as [Hsol Hbel].
    do 2 eexists. split; [exact E|]. cbn [st_toast st_grid w_heap].
    rewrite snapshot_fresh9 by assumption. split.
    + split; [eauto|reflexivity].
    + intros _. now split.
  - do 2 eexists. split; [exact E|]. cbn [st_toast]. split.
    + split; [discriminate|]. intros (G & HG & Hbel).
      destruct (psearch_complete ascending ascending_digits ascending_all
                  G 82 (snapshot (w_heap w) (st_grid st)) (w_used w)
                  HG Hb Hbel) as (b2 & k2 & P2).
      { pose proof (count_empty_le _ Hb). lia. }
      rewrite P in P2. discriminate P2.
    + discriminate.
Qed.

Lemma handleSolve_solves_iff_solvable_witness :
  exists st' w',
    handleSolve (Screen first_rows [] (Toast "" "")) (start open_board) =
      Ok (st', w') /\
    (st_toast st' = Toast "Solved." "success" <->
     exists G, solution G /\
       below (snapshot (w_heap (start open_board))
                (st_grid (Screen first_rows [] (Toast "" "")))) G) /\
    (st_toast st' = Toast "Solved." "success" ->
     solution (snapshot (w_heap w') (st_grid st')) /\
     below (snapshot (w_heap (start open_board))
              (st_grid (Screen first_rows [] (Toast "" ""))))
           (snapshot (w_heap w') (st_grid st'))).
Proof.
  apply (handleSolve_solves_iff_solvable
           (Screen first_rows [] (Toast "" "")) (start open_board)).
  reflexivity.
Defined.

(** ** [handleClear] *)

Lemma handleClear_spec st w :
  handleClear st w =
  Ok ((Screen (seq (length (w_heap w)) 9) (repeat (repeat false 9) 9)
         (Toast "Cleared." "info"), [FocusLater 0 0]),
      World (w_heap w ++ empty_board) (w_rand w) (w_used w)).
Proof.
  unfold handleClear. unfold bind at 1. now rewrite createEmptyGrid_spec.
Qed.

Lemma is9x9_empty_board : is9x9 empty_board = true.
Proof. reflexivity. Qed.

Lemma below_empty_board G : below empty_board G.
Proof. intros r c Hrc. left. now apply empty_board_cell. Qed.


(** X23. Clear followed by Solve always succeeds: the empty grid is
    completed to a solved Sudoku and the message is Solved. *)
Theorem handleClear_then_handleSolve_solves st w :
  exists st1 reqs w1 st2 w2,
    handleClear st w = Ok ((st1, reqs), w1) /\
    handleSolve st1 w1 = Ok (st2, w2) /\
    st_toast st2 = Toast "Solved." "success" /\
    solution (snapshot (w_heap w2) (st_grid st2)).
Proof.
  set (st1 := Screen (seq (length (w_heap w)) 9) (repeat (repeat false 9) 9)
                (Toast "Cleared." "info")).
  set (w1 := World (w_heap w ++ empty_board) (w_rand w) (w_used w)).
  assert (Hg : grid9x9 (w_heap w1) (st_grid st1) = true)
    by (apply grid9x9_fresh, is9x9_empty_board).
  assert (Hs : snapshot (w_heap w1) (st_grid st1) = empty_board)
    by (apply snapshot_fresh9, is9x9_empty_board).
  destruct (handleSolve_below_solution st1 w1 solved_board Hg
              solved_board_solution) as (extra & b' & E & Hsol & _).
  { rewrite Hs. apply below_empty_board. }
  exists st1, [FocusLater 0 0], w1. do 2 eexists.
  split; [apply handleClear_spec|]. split; [exact E|].
  cbn [st_toast st_grid w_heap]. split; [reflexivity|].
  now rewrite snapshot_fresh9 by apply Hsol.
Qed.

(** ** [handleGenerate] *)

Lemma givens_of_spec g w :
  allocated (w_heap w) g = true ->
  givens_of g w = Ok (map (map filled_cell) (snapshot (w_heap w) g), w).
Proof.
  unfold givens_of. induction g as [|l t IH]; intros Ha; simpl.
  - reflexivity.
  - simpl in Ha. apply andb_true_iff in Ha as [Hl Ht].
    apply Nat.ltb_lt in Hl.
    unfold bind at 1. unfold bind at 1.
    rewrite deref_allocated by assumption.
    unfold ret at 1. unfold bind at 1. rewrite (IH Ht). reflexivity.
Qed.

Lemma mask_at_map (f : jsval -> bool) b r c :
  is9x9 b = true -> in_grid r c ->
  mask_at (map (map f) b) r c = Ok (f (bcell b r c)).
Proof.
  intros Hb Hrc. destruct (board_row b r Hb (proj1 Hrc))
    as (row & _ & Hrow & Hlen).
  pose proof (bcell_nth b r c row Hrc Hrow Hlen) as Hc.
  destruct Hrc as [Hr Hc']. unfold mask_at, index.
  destruct (Z.ltb_spec r 0); [lia|]. destruct (Z.ltb_spec c 0); [lia|].
  rewrite nth_error_map, Hrow. cbn [option_map].
  now rewrite nth_error_map, Hc.
Qed.

Lemma bool9x9_map (f : jsval -> bool) b :
  is9x9 b = true -> bool9x9 (map (map f) b).
Proof.
  intros Hb. destruct (is9x9_inv b Hb) as [Hlen Hrows]. split.
  - now rewrite length_map.
  - intros row Hin. apply in_map_iff in Hin as (row' & <- & Hin').
    rewrite length_map. now apply Hrows.
Qed.

(** [handleGenerate] in one equation: the grid is the puzzle of
    [generateSudoku], a solved Sudoku with 49 distinct cells cleared,
    and the mask marks its filled cells. *)
Lemma handleGenerate_spec st w :
  exists S idxs k2,
    handleGenerate st w =
      Ok ((Screen (seq (length (w_heap w) + 9) 9)
             (map (map filled_cell) (clear_cells S idxs))
             (Toast "Generated a new regular puzzle." "success"),
           [FocusLater 0 0]),
          World ((w_heap w ++ S) ++ clear_cells S idxs) (w_rand w) k2) /\
    solution S /\ NoDup idxs /\
    (forall idx, In idx idxs -> 0 <= idx < 81) /\
    length idxs = 49%nat.
Proof.
  destruct (generateSudoku_spec (Some 32) w) as (S & k1 & P & HS & _ & _ & E).
  cbv zeta in E.
  destruct (shuffled_indices (w_rand w) k1) as (Hlen & Hnd & Hr).
  cbv zeta in Hlen, Hnd, Hr.
  set (indices := fst (pshuffle (w_rand w) 80 (range 0 81) k1)) in *.
  set (n := Z.to_nat (81 - clamp_givens 32)) in *.
  assert (Hn : n = 49%nat) by reflexivity.
  assert (Hr' : forall idx, In idx (firstn n indices) -> 0 <= idx < 81)
    by (intros idx Hin; apply Hr; exact (In_firstn n indices idx Hin)).
  pose proof (is9x9_clear_cells (firstn n indices) S HS Hr') as HP.
  destruct (generated_grids_snapshots (w_heap w) S _ HS HP)
    as (_ & Hp & Hg).
  destruct (grid9x9_inv _ _ Hg) as (Ha & _ & _).
  exists S, (firstn n indices). eexists. split; [|split; [|split; [|split]]].
  - unfold handleGenerate. unfold bind at 1. rewrite E. cbn [fst].
    unfold bind at 1. rewrite givens_of_spec by exact Ha.
    cbn [w_heap]. rewrite Hp. reflexivity.
  - apply (psearch_true_solution (shuffled (w_rand w)) 82 empty_board
             (w_used w) S k1 solved_board (shuffled_digits (w_rand w))
             eq_refl solved_board_solution); [|exact P].
    apply below_empty_board.
  - now apply NoDup_firstn'.
  - exact Hr'.
  - rewrite <- Hn. apply firstn_length_le. rewrite Hlen. lia.
Qed.

(** X24. Whatever the state and the random draws, [handleGenerate]
    installs a grid with exactly 32 filled cells, every cell holding 0
    or a digit, and a mask that marks exactly the filled cells as
    given; the new grid has no conflict, the message is the one of a
    new puzzle, and the arrays of the store are left as they were. *)
Theorem handleGenerate_installs_puzzle st w :
  exists st' w',
    handleGenerate st w = Ok ((st', [FocusLater 0 0]), w') /\
    st_toast st' = Toast "Generated a new regular puzzle." "success" /\
    (exists fresh, w_heap w' = w_heap w ++ fresh) /\
    count_filled (snapshot (w_heap w') (st_grid st')) = 32%nat /\
    (forall r c, in_grid r c ->
       exists v, 0 <= v <= 9 /\
         read_cell (st_grid st') r c (w_heap w') = Ok (Num v) /\
         mask_at (st_givensMask st') r c = Ok (negb (v =? 0))) /\
    exists w2, gridHasConflicts (st_grid st') w' = Ok (false, w2).
Proof.
  destruct (handleGenerate_spec st w)
    as (S & idxs & k2 & E & Hsol & Hnd & Hr & Hlen).
  pose proof (proj1 Hsol) as HS.
  pose proof (is9x9_clear_cells idxs S HS Hr) as HP.
  destruct (generated_grids_snapshots (w_heap w) S _ HS HP)
    as (_ & Hp & Hg).
  destruct (grid9x9_inv _ _ Hg) as (Ha & _ & _).
  do 2 eexists. split; [exact E|].
  cbn [st_toast st_grid st_givensMask w_heap].
  split; [reflexivity|].
  split; [exists (S ++ clear_cells S idxs); now rewrite app_assoc|].
  rewrite Hp. split; [|split].
  - assert (Hfull : full S).
    { intros r c Hrc. destruct Hsol as (_ & Hd & _).
      destruct (Hd r c Hrc) as (v & Hv & ->). now apply is_zero_digit. }
    pose proof (count_filled_clear_cells idxs S HS Hnd Hr) as Hcount.
    rewrite (count_filled_full S HS (full_no_empty_cell S HS Hfull)) in Hcount.
    rewrite Hlen in Hcount.
    assert (forall idx, In idx idxs ->
              is_zero (bcell S (idx / 9) (Z.rem idx 9)) = false)
      by (intros idx Hin; apply Hfull, cell_of_in_grid; auto).
    specialize (Hcount H). lia.
  - intros r c Hrc.
    rewrite read_cell_snapshot
      by (try exact Ha; rewrite length_seq; destruct Hrc; lia).
    rewrite Hp, mask_at_map by assumption.
    destruct (bcell_clear_cells idxs S r c HS Hr Hrc) as [Ez|Es].
    + exists 0. rewrite Ez. split; [lia|]. now split.
    + destruct Hsol as (_ & Hd & _).
      destruct (Hd r c Hrc) as (v & Hv & Ev). exists v.
      rewrite Es, Ev. split; [lia|]. split; [reflexivity|].
      unfold filled_cell. cbn [strict_eq]. reflexivity.
  - destruct (gridHasConflicts_spec (seq (length (w_heap w) + 9) 9)
                (World ((w_heap w ++ S) ++ clear_cells S idxs) (w_rand w) k2)
                Hg) as [extra Ec].
    cbn [w_heap] in Ec. rewrite Hp in Ec.
    assert (Hc : has_conflicts (clear_cells S idxs) = false).
    { apply has_conflicts_false; [assumption|].
      apply (below_clash_free _ S Hsol).
      now apply below_clear_cells. }
    rewrite Hc in Ec. eexists. exact Ec.
Qed.

(** X25. Generate followed by Solve always succeeds: the message is
    Solved, the mask still marks the givens of the puzzle, and the grid
    installed is a solved Sudoku that keeps those givens. *)
Theorem handleGenerate_then_handleSolve_solves st w :
  exists st1 reqs w1 st2 w2,
    handleGenerate st w = Ok ((st1, reqs), w1) /\
    handleSolve st1 w1 = Ok (st2, w2) /\
    st_toast st2 = Toast "Solved." "success" /\
    st_givensMask st2 = st_givensMask st1 /\
    solution (snapshot (w_heap w2) (st_grid st2)) /\
    below (snapshot (w_heap w1) (st_grid st1))
          (snapshot (w_heap w2) (st_grid st2)).
Proof.
  destruct (handleGenerate_spec st w)
    as (S & idxs & k2 & E & Hsol & Hnd & Hr & Hlen).
  pose proof (proj1 Hsol) as HS.
  pose proof (is9x9_clear_cells idxs S HS Hr) as HP.
  destruct (generated_grids_snapshots (w_heap w) S _ HS HP)
    as (_ & Hp & Hg).
  set (st1 := Screen (seq (length (w_heap w) + 9) 9)
                (map (map filled_cell) (clear_cells S idxs))
                (Toast "Generated a new regular puzzle." "success")) in *.
  set (w1 := World ((w_heap w ++ S) ++ clear_cells S idxs) (w_rand w) k2)
    in *.
  destruct (handleSolve_below_solution st1 w1 S Hg Hsol)
    as (extra & b' & E' & Hsol' & Hbel').
  { cbn [st1 w1 st_grid w_heap]. rewrite Hp.
    now apply below_clear_cells. }
  exists st1, [FocusLater 0 0], w1. do 2 eexists.
  split; [exact E|]. split; [exact E'|].
  cbn [st_toast st_givensMask]. split; [reflexivity|].
  split; [reflexivity|].
  cbn [st_grid w_heap]. rewrite snapshot_fresh9 by apply Hsol'.
  now split.
Qed.

(** ** The handlers keep the screen well formed *)

Lemma screen_ok_write row col v st w :
  screen_ok w st -> in_grid row col -> 0 <= v <= 9 ->
  screen_ok
    (World (w_heap w ++ bset (snapshot (w_heap w) (st_grid st)) row col
                         (Num v))
       (w_rand w) (w_used w))
    (Screen (seq (length (w_heap w)) 9) (st_givensMask st) (st_toast st)).
Proof.
  intros [Hwf Hm] Hrc Hv. destruct (wf_grid_inv _ _ Hwf) as [Hg Hd].
  destruct (grid9x9_inv _ _ Hg) as (Ha & Hb & Hlen).
  split; [|exact Hm]. cbn [w_heap st_grid].
  apply wf_grid_fresh; [now apply is9x9_bset|].
  intros r c Hrc'.
  destruct (Z.eq_dec r row) as [->|Hr];
    [destruct (Z.eq_dec c col) as [->|Hc]|].
  - rewrite bcell_bset_same by assumption. unfold digit_or_zero.
    apply andb_true_iff; split; apply Z.leb_le; lia.
  - rewrite bcell_bset_other by auto. now apply Hd.
  - rewrite bcell_bset_other by auto. now apply Hd.
Qed.

Lemma handleKeyDown_screen_ok key row col st w :
  screen_ok w st -> in_grid row col ->
  exists st' reqs w',
    handleKeyDown key row col st w = Ok ((st', reqs), w') /\
    screen_ok w' st'.
Proof.
  intros Hok Hrc. pose proof Hok as [Hwf Hm].
  destruct (wf_grid_inv _ _ Hwf) as [Hg _].
  assert (Hsame : forall reqs : list request, exists st' reqs' w',
            Ok ((st, reqs), w) = Ok ((st', reqs'), w') /\ screen_ok w' st')
    by (intros; do 3 eexists; split; [reflexivity|assumption]).
  assert (Hwrite : forall v (reqs : list request), 0 <= v <= 9 ->
            exists st' reqs' w',
              (given <- lift (mask_at (st_givensMask st) row col) ;;
               if given then ret (st, [PreventDefault])
               else st' <- setCellValue row col v st ;; ret (st', reqs)) w =
              Ok ((st', reqs'), w') /\ screen_ok w' st').
  { intros v reqs Hv.
    pose proof (mask_at_mget (st_givensMask st) row col Hm (proj1 Hrc))
      as Hmask.
    destruct (mget (st_givensMask st) row col) eqn:Hgiven.
    - unfold bind at 1. unfold lift. rewrite Hmask. apply Hsame.
    - rewrite (keydown_write row col v st w reqs Hg Hrc Hmask).
      do 3 eexists. split; [reflexivity|]. now apply screen_ok_write. }
  unfold handleKeyDown.
  destruct (String.eqb key "ArrowUp" || String.eqb key "ArrowDown" ||
            String.eqb key "ArrowLeft" || String.eqb key "ArrowRight");
    [apply Hsame|].
  destruct (String.eqb key "Backspace" || String.eqb key "Delete" ||
            String.eqb key "0"); [apply Hwrite; lia|].
  destruct (digit_key key) as [d|] eqn:Hd; [|apply Hsame].
  cbv zeta. apply Hwrite. pose proof (digit_key_range _ _ Hd). lia.
Qed.

Lemma handleSolve_screen_ok st w :
  screen_ok w st ->
  exists st' w', handleSolve st w = Ok (st', w') /\ screen_ok w' st'.
Proof.
  intros [Hwf Hm]. destruct (wf_grid_inv _ _ Hwf) as [Hg Hd].
  destruct (grid9x9_inv _ _ Hg) as (Ha & Hb & Hlen).
  destruct (handleSolve_spec st w Hg) as (extra & res & b' & P & Hb' & E).
  destruct (has_conflicts (snapshot (w_heap w) (st_grid st))) eqn:Hc;
    [|destruct res]; do 2 eexists; (split; [exact E|]);
    (split; [|exact Hm]); cbn [w_heap st_grid].
  - now apply wf_grid_app.
  - apply has_conflicts_false in Hc; [|assumption].
    destruct (psearch_true_solution_wf ascending 82 _ _ _ _
                ascending_digits Hb Hd Hc P) as [Hsol _].
    apply wf_grid_fresh; [assumption|].
    intros r c Hrc. now apply solution_digit_or_zero.
  - now apply wf_grid_app, wf_grid_app.
Qed.

Lemma handleClear_screen_ok st w :
  exists st' reqs w',
    handleClear st w = Ok ((st', reqs), w') /\ screen_ok w' st'.
Proof.
  do 3 eexists. split; [apply handleClear_spec|]. split.
  - cbn [w_heap st_grid]. apply wf_grid_fresh; [apply is9x9_empty_board|].
    intros r c Hrc. now rewrite empty_board_cell.
  - apply bool9x9_fresh.
Qed.

Lemma handleGenerate_screen_ok st w :
  exists st' reqs w',
    handleGenerate st w = Ok ((st', reqs), w') /\ screen_ok w' st'.
Proof.
  destruct (handleGenerate_spec st w)
    as (S & idxs & k2 & E & Hsol & Hnd & Hr & Hlen).
  pose proof (proj1 Hsol) as HS.
  pose proof (is9x9_clear_cells idxs S HS Hr) as HP.
  destruct (is9x9_inv S HS) as [HlenS _].
  do 3 eexists. split; [exact E|]. split.
  - cbn [w_heap st_grid].
    replace (length (w_heap w) + 9)%nat with (length (w_heap w ++ S))
      by (rewrite length_app; lia).
    apply wf_grid_fresh; [assumption|]. intros r c Hrc.
    destruct (bcell_clear_cells idxs S r c HS Hr Hrc) as [->| ->];
      [reflexivity|now apply solution_digit_or_zero].
  - cbn [st_givensMask]. now apply bool9x9_map.
Qed.

(** X26. A screen whose grid is 9x9 with entries in 0..9 and whose mask
    is 9x9 stays so under every event: a key press in a cell of the
    grid, Solve, Clear and Generate all return without an exception and
    leave a grid and a mask of that shape. *)
Theorem handlers_keep_screen_well_formed st w :
  screen_ok w st ->
  (forall key row col, in_grid row col ->
     exists st' reqs w',
       handleKeyDown key row col st w = Ok ((st', reqs), w') /\
       screen_ok w' st') /\
  (exists st' w', handleSolve st w = Ok (st', w') /\ screen_ok w' st') /\
  (exists st' reqs w',
     handleClear st w = Ok ((st', reqs), w') /\ screen_ok w' st') /\
  (exists st' reqs w',
     handleGenerate st w = Ok ((st', reqs), w') /\ screen_ok w' st').
Proof.
  intros Hok. split; [|split; [|split]].
  - intros key row col Hrc. now apply handleKeyDown_screen_ok.
  - now apply handleSolve_screen_ok.
  - apply handleClear_screen_ok.
  - apply handleGenerate_screen_ok.
Qed.

Lemma handlers_keep_screen_well_formed_witness :
  (forall key row col, in_grid row col ->
     exists st' reqs w',
       handleKeyDown key row col
         (Screen first_rows (repeat (repeat false 9) 9) (Toast "" ""))
         (start open_board) = Ok ((st', reqs), w') /\
       screen_ok w' st') /\
  (exists st' w',
     handleSolve (Screen first_rows (repeat (repeat false 9) 9) (Toast "" ""))
       (start open_board) = Ok (st', w') /\ screen_ok w' st') /\
  (exists st' reqs w',
     handleClear (Screen first_rows (repeat (repeat false 9) 9) (Toast "" ""))
       (start open_board) = Ok ((st', reqs), w') /\ screen_ok w' st') /\
  (exists st' reqs w',
     handleGenerate
       (Screen first_rows (repeat (repeat false 9) 9) (Toast "" ""))
       (start open_board) = Ok ((st', reqs), w') /\ screen_ok w' st').
Proof.
  apply (handlers_keep_screen_well_formed
           (Screen first_rows (repeat (repeat false 9) 9) (Toast "" ""))
           (start open_board)).
  split; [reflexivity|]. split; [reflexivity|].
  intros row Hin. simpl in Hin.
  repeat (destruct Hin as [<-|Hin]; [reflexivity|]). destruct Hin.
Defined.
(** ** Sessions *)

Lemma mget_map (f : jsval -> bool) b r c :
  is9x9 b = true -> in_grid r c ->
  mget (map (map f) b) r c = f (bcell b r c).
Proof.
  intros Hb Hrc.
  pose proof (mask_at_map f b r c Hb Hrc) as H.
  rewrite mask_at_mget in H by (try apply bool9x9_map; auto; apply Hrc).
  now injection H.
Qed.

Lemma on_grid_key key row col :
  on_grid (KeyDown key row col) = true -> in_grid row col.
Proof.
  cbn [on_grid]. intros H.
  apply andb_true_iff in H as [H H4]. apply andb_true_iff in H as [H H3].
  apply andb_true_iff in H as [H1 H2].
  apply Z.leb_le in H1, H2, H3, H4. unfold in_grid. lia.
Qed.

(** A write to a cell that is not given keeps the givens. *)
Lemma givens_hold_write mask b row col v :
  is9x9 b = true -> in_grid row col -> mget mask row col = false ->
  givens_hold mask b -> givens_hold mask (bset b row col v).
Proof.
  intros Hb Hrc Hm (G & HG & H). exists G. split; [assumption|].
  intros r c Hrc' Hgiven. rewrite bcell_bset_other; auto.
  destruct (Z.eq_dec r row) as [->|]; [|now left].
  destruct (Z.eq_dec c col) as [->|]; [|now right]. congruence.
Qed.

Lemma handleKeyDown_givens key row col st w :
  screen_ok w st -> in_grid row col ->
  givens_hold (st_givensMask st) (snapshot (w_heap w) (st_grid st)) ->
  exists st' reqs w',
    handleKeyDown key row col st w = Ok ((st', reqs), w') /\
    givens_hold (st_givensMask st') (snapshot (w_heap w') (st_grid st')).
Proof.
  intros [Hwf Hm] Hrc Hgv.
  destruct (wf_grid_inv _ _ Hwf) as [Hg _].
  destruct (grid9x9_inv _ _ Hg) as (Ha & Hb & Hlen).
  assert (Hsame : forall reqs : list request, exists st' reqs' w',
            Ok ((st, reqs), w) = Ok ((st', reqs'), w') /\
            givens_hold (st_givensMask st')
              (snapshot (w_heap w') (st_grid st')))
    by (intros; do 3 eexists; split; [reflexivity|assumption]).
  assert (Hwrite : forall v (reqs : list request),
            exists st' reqs' w',
              (given <- lift (mask_at (st_givensMask st) row col) ;;
               if given then ret (st, [PreventDefault])
               else st' <- setCellValue row col v st ;; ret (st', reqs)) w =
              Ok ((st', reqs'), w') /\
              givens_hold (st_givensMask st')
                (snapshot (w_heap w') (st_grid st'))).
  { intros v reqs.
    pose proof (mask_at_mget (st_givensMask st) row col Hm (proj1 Hrc))
      as Hmask.
    destruct (mget (st_givensMask st) row col) eqn:Hgiven.
    - unfold bind at 1. unfold lift. rewrite Hmask. apply Hsame.
    - rewrite (keydown_write row col v st w reqs Hg Hrc Hmask).
      do 3 eexists. split; [reflexivity|].
      cbn [st_givensMask st_grid w_heap].
      rewrite snapshot_fresh9 by (now apply is9x9_bset).
      now apply givens_hold_write. }
  unfold handleKeyDown.
  destruct (String.eqb key "ArrowUp" || String.eqb key "ArrowDown" ||
            String.eqb key "ArrowLeft" || String.eqb key "ArrowRight");
    [apply Hsame|].
  destruct (String.eqb key "Backspace" || String.eqb key "Delete" ||
            String.eqb key "0"); [apply Hwrite|].
  destruct (digit_key key) as [d|]; [|apply Hsame].
  cbv zeta. apply Hwrite.
Qed.

Lemma handleSolve_givens st w :
  screen_ok w st ->
  givens_hold (st_givensMask st) (snapshot (w_heap w) (st_grid st)) ->
  exists st' w',
    handleSolve st w = Ok (st', w') /\
    givens_hold (st_givensMask st') (snapshot (w_heap w') (st_grid st')).
Proof.
  intros [Hwf Hm] Hgv. destruct (wf_grid_inv _ _ Hwf) as [Hg _].
  destruct (grid9x9_inv _ _ Hg) as (Ha & Hb & Hlen).
  destruct (handleSolve_spec st w Hg) as (extra & res & b' & P & Hb' & E).
  destruct (has_conflicts (snapshot (w_heap w) (st_grid st)));
    [|destruct res]; do 2 eexists; (split; [exact E|]);
    cbn [w_heap st_grid st_givensMask].
  - now rewrite snapshot_app.
  - rewrite snapshot_fresh9 by assumption.
    apply (psearch_sound ascending ascending_digits) in P
      as (_ & _ & Hext & _ & _); [|assumption].
    destruct Hgv as (G & HG & H). exists G. split; [assumption|].
    intros r c Hrc Hgiven. rewrite <- (H r c Hrc Hgiven).
    apply Hext; [assumption|]. rewrite (H r c Hrc Hgiven).
    destruct HG as (_ & Hd & _). destruct (Hd r c Hrc) as (v & Hv & ->).
    now apply is_zero_digit.
  - rewrite snapshot_app by (now apply allocated_app).
    now rewrite snapshot_app.
Qed.

Lemma handleClear_givens st w :
  exists st' reqs w',
    handleClear st w = Ok ((st', reqs), w') /\
    givens_hold (st_givensMask st') (snapshot (w_heap w') (st_grid st')).
Proof.
  do 3 eexists. split; [apply handleClear_spec|].
  exists solved_board. split; [apply solved_board_solution|].
  intros r c _ H. cbn [st_givensMask] in H. rewrite mget_fresh in H.
  discriminate.
Qed.

Lemma handleGenerate_givens st w :
  exists st' reqs w',
    handleGenerate st w = Ok ((st', reqs), w') /\
    givens_hold (st_givensMask st') (snapshot (w_heap w') (st_grid st')).
Proof.
  destruct (handleGenerate_spec st w)
    as (S & idxs & k2 & E & Hsol & Hnd & Hr & Hlen).
  pose proof (proj1 Hsol) as HS.
  pose proof (is9x9_clear_cells idxs S HS Hr) as HP.
  destruct (generated_grids_snapshots (w_heap w) S _ HS HP)
    as (_ & Hp & _).
  do 3 eexists. split; [exact E|].
  cbn [w_heap st_grid st_givensMask]. rewrite Hp.
  exists S. split; [assumption|]. intros r c Hrc H.
  rewrite mget_map in H by assumption.
  destruct (bcell_clear_cells idxs S r c HS Hr Hrc) as [Ez|Es];
    [|assumption].
  rewrite Ez in H. discriminate.
Qed.

(** The invariant of a session. *)
Lemma dispatch_invariant e st w :
  on_grid e = true -> screen_ok w st ->
  givens_hold (st_givensMask st) (snapshot (w_heap w) (st_grid st)) ->
  exists st' w',
    dispatch e st w = Ok (st', w') /\ screen_ok w' st' /\
    givens_hold (st_givensMask st') (snapshot (w_heap w') (st_grid st')).
Proof.
  intros He Hok Hgv. destruct e as [key row col| | |]; cbn [dispatch].
  - apply on_grid_key in He.
    destruct (handleKeyDown_screen_ok key row col st w Hok He)
      as (st1 & reqs1 & w1 & E1 & H1).
    destruct (handleKeyDown_givens key row col st w Hok He Hgv)
      as (st2 & reqs2 & w2 & E2 & H2).
    rewrite E1 in E2. injection E2 as <- <- <-.
    exists st1, w1. unfold bind at 1. rewrite E1. now split.
  - destruct (handleSolve_screen_ok st w Hok) as (st1 & w1 & E1 & H1).
    destruct (handleSolve_givens st w Hok Hgv) as (st2 & w2 & E2 & H2).
    rewrite E1 in E2. injection E2 as <- <-.
    exists st1, w1. now split.
  - destruct (handleClear_screen_ok st w) as (st1 & reqs1 & w1 & E1 & H1).
    destruct (handleClear_givens st w) as (st2 & reqs2 & w2 & E2 & H2).
    rewrite E1 in E2. injection E2 as <- <- <-.
    exists st1, w1. unfold bind at 1. rewrite E1. now split.
  - destruct (handleGenerate_screen_ok st w)
      as (st1 & reqs1 & w1 & E1 & H1).
    destruct (handleGenerate_givens st w) as (st2 & reqs2 & w2 & E2 & H2).
    rewrite E1 in E2. injection E2 as <- <- <-.
    exists st1, w1. unfold bind at 1. rewrite E1. now split.
Qed.

Lemma run_invariant es : forall st w,
  forallb on_grid es = true -> screen_ok w st ->
  givens_hold (st_givensMask st) (snapshot (w_heap w) (st_grid st)) ->
  exists st' w',
    run es st w = Ok (st', w') /\ screen_ok w' st' /\
    givens_hold (st_givensMask st') (snapshot (w_heap w') (st_grid st')).
Proof.
  induction es as [|e rest IH]; intros st w Hes Hok Hgv; cbn [run].
  - exists st, w. now split.
  - cbn [forallb] in Hes. apply andb_true_iff in Hes as [He Hrest].
    destruct (dispatch_invariant e st w He Hok Hgv)
      as (st1 & w1 & E1 & Hok1 & Hgv1).
    unfold bind at 1. rewrite E1. now apply IH.
Qed.

Lemma session_invariant es w :
  forallb on_grid es = true ->
  exists st' w',
    session es w = Ok (st', w') /\ screen_ok w' st' /\
    givens_hold (st_givensMask st') (snapshot (w_heap w') (st_grid st')).
Proof.
  intros Hes. unfold session, initialScreen.
  unfold bind at 1. unfold bind at 1. rewrite createEmptyGrid_spec.
  unfold ret at 1. apply run_invariant; [assumption| |].
  - split; [|apply bool9x9_fresh]. cbn [w_heap st_grid].
    apply wf_grid_fresh; [apply is9x9_empty_board|].
    intros r c Hrc. now rewrite empty_board_cell.
  - exists solved_board. split; [apply solved_board_solution|].
    intros r c _ H. cbn [st_givensMask] in H. rewrite mget_fresh in H.
    discriminate.
Qed.

(** X27. A session never raises: from the first render, after any
    sequence of key presses in cells of the grid and clicks on Solve,
    Clear and Generate, every handler has returned, the grid is 9x9
    with entries in 0..9 and the mask is 9x9. *)
Theorem session_never_raises es w :
  forallb on_grid es = true ->
  exists st w', session es w = Ok (st, w') /\ screen_ok w' st.
Proof.
  intros Hes.
  destruct (session_invariant es w Hes) as (st & w' & E & Hok & _).
  now exists st, w'.
Qed.

Lemma session_never_raises_witness :
  exists st w',
    session [ClickGenerate; KeyDown "5" 0 0; KeyDown "Delete" 8 8;
             ClickSolve; ClickClear; KeyDown "ArrowUp" 0 3]
      (start []) = Ok (st, w') /\ screen_ok w' st.
Proof.
  apply (session_never_raises
           [ClickGenerate; KeyDown "5" 0 0; KeyDown "Delete" 8 8;
            ClickSolve; ClickClear; KeyDown "ArrowUp" 0 3] (start [])).
  reflexivity.
Defined.

(** X28. The givens are never lost: in every state a session reaches,
    the cells the mask marks as given hold digits 1..9 that all belong
    to one solved Sudoku, so no key press, Solve or Clear leaves a given
    cell empty or two givens in conflict. *)
Theorem session_givens_belong_to_a_solution es w :
  forallb on_grid es = true ->
  exists st w',
    session es w = Ok (st, w') /\
    exists G, solution G /\
      forall r c, in_grid r c ->
        mask_at (st_givensMask st) r c = Ok true ->
        read_cell (st_grid st) r c (w_heap w') = Ok (bcell G r c) /\
        exists v, 1 <= v <= 9 /\ bcell G r c = Num v.
Proof.
  intros Hes.
  destruct (session_invariant es w Hes)
    as (st & w' & E & [Hwf Hm] & G & HG & H).
  exists st, w'. split; [exact E|]. exists G. split; [assumption|].
  intros r c Hrc Hgiven.
  destruct (wf_grid_inv _ _ Hwf) as [Hg _].
  destruct (grid9x9_inv _ _ Hg) as (Ha & _ & Hlen).
  rewrite mask_at_mget in Hgiven by (auto; apply Hrc).
  injection Hgiven as Hgiven. split.
  - rewrite read_cell_snapshot by (auto; destruct Hrc; lia).
    f_equal. now apply H.
  - destruct HG as (_ & Hd & _). now apply Hd.
Qed.

Lemma session_givens_belong_to_a_solution_witness :
  exists st w',
    session [ClickGenerate; KeyDown "7" 4 4; ClickSolve] (start []) =
      Ok (st, w') /\
    exists G, solution G /\
      forall r c, in_grid r c ->
        mask_at (st_givensMask st) r c = Ok true ->
        read_cell (st_grid st) r c (w_heap w') = Ok (bcell G r c) /\
        exists v, 1 <= v <= 9 /\ bcell G r c = Num v.
Proof.
  apply (session_givens_belong_to_a_solution
           [ClickGenerate; KeyDown "7" 4 4; ClickSolve] (start [])).
  reflexivity.
Defined.

(** ** The table *)

(** X29. The thick borders of the table are the boundaries of the 3x3
    boxes that [isValidPlacement] scans: between two neighbouring rows
    (columns) of the grid a thick bottom (right) border is drawn exactly
    when the two belong to different boxes, and the row (column) after
    it then has a thick top (left) border. *)
Theorem thick_borders_are_box_boundaries i :
  0 <= i <= 7 ->
  (thickBottom i = true <-> i / 3 <> (i + 1) / 3) /\
  (thickRight i = true <-> i / 3 <> (i + 1) / 3) /\
  thickTop (i + 1) = thickBottom i /\
  thickLeft (i + 1) = thickRight i /\
  thickTop (i / 3 * 3) = true /\ thickLeft (i / 3 * 3) = true.
Proof.
  intros Hi.
  assert (Hcases : i = 0 \/ i = 1 \/ i = 2 \/ i = 3 \/ i = 4 \/ i = 5 \/
                   i = 6 \/ i = 7) by lia.
  repeat (destruct Hcases as [->|Hcases]);
    try subst i; vm_compute; repeat split; intros; congruence.
Qed.

Lemma thick_borders_are_box_boundaries_witness :
  (thickBottom 5 = true <-> 5 / 3 <> (5 + 1) / 3) /\
  (thickRight 5 = true <-> 5 / 3 <> (5 + 1) / 3) /\
  thickTop (5 + 1) = thickBottom 5 /\
  thickLeft (5 + 1) = thickRight 5 /\
  thickTop (5 / 3 * 3) = true /\ thickLeft (5 / 3 * 3) = true.
Proof.
  apply (thick_borders_are_box_boundaries 5). lia.
Defined.
